(** * Obscurafy dataset tooling: merge scripts and Core ML export

    A shallow embedding of the three Python programs under
    [train-ml-model/]:

    - [merge_dataset_1.py]  (module [Merge1]): merge with a fixed
      per-dataset class mapping [DATASETS];
    - [merge_dataset_2.py]  (module [Merge2]): merge forcing every box to
      [FORCED_TARGET_ID], with dataset resolution by glob or discovery;
    - [export_to_coreml.py] (module [CoreML]): [next_free_path] and the
      tail of [main] that places the exported artefact.

    Text is modelled as [string], one [ascii] per code point below 256;
    integers are [Z]; counters are [nat]; dictionaries are [gmap]s; the
    file system is a finite map from absolute paths to nodes, threaded
    through a state-and-exception monad. Paths are resolved and free of
    symbolic links, a file or directory name is one path component, and
    [print] calls are left out. The order in which a directory walk
    yields its entries is the order of the map's keys. *)

From Stdlib Require Import ZArith Ascii String DecimalString DecimalPos.
From stdpp Require Import gmap strings list fin_maps.

Local Open Scope string_scope.
Local Open Scope nat_scope.
Local Open Scope list_scope.

(** ** Python string primitives *)

Module PyStr.

Definition code (c : ascii) : nat := nat_of_ascii c.

Definition between (lo hi n : nat) : bool := (lo <=? n) && (n <=? hi).

(** [str.isspace] on one code point below 256: TAB..CR, FS..US, SPACE,
    NEL and NBSP. *)
Definition isspace (c : ascii) : bool :=
  let n := code c in
  between 9 13 n || between 28 32 n || (n =? 133) || (n =? 160).

(** Line boundaries of [str.splitlines], CR handled apart because of
    CR LF: LF, VT, FF, FS, GS, RS and NEL. *)
Definition is_linebreak (c : ascii) : bool :=
  let n := code c in
  between 10 12 n || between 28 30 n || (n =? 133).

Definition is_empty (s : string) : bool :=
  match s with EmptyString => true | String _ _ => false end.

Definition snoc (s : string) (c : ascii) : string := s +:+ String c EmptyString.

Fixpoint lstrip (s : string) : string :=
  match s with
  | EmptyString => EmptyString
  | String c s' => if isspace c then lstrip s' else s
  end.

Fixpoint rstrip (s : string) : string :=
  match s with
  | EmptyString => EmptyString
  | String c s' =>
      let r := rstrip s' in
      if is_empty r && isspace c then EmptyString else String c r
  end.

(** [s.strip()] *)
Definition strip (s : string) : string := rstrip (lstrip s).

Fixpoint split_go (cur s : string) : list string :=
  match s with
  | EmptyString => if is_empty cur then [] else [cur]
  | String c s' =>
      if isspace c
      then (if is_empty cur then split_go EmptyString s' else cur :: split_go EmptyString s')
      else split_go (snoc cur c) s'
  end.

(** [s.split()] with no separator: the maximal runs of non-space. *)
Definition split (s : string) : list string := split_go EmptyString s.

Fixpoint splitlines_go (cur s : string) : list string :=
  match s with
  | EmptyString => if is_empty cur then [] else [cur]
  | String c s' =>
      if (code c =? 13)
      then match s' with
           | String d s'' =>
               if (code d =? 10) then cur :: splitlines_go EmptyString s''
               else cur :: splitlines_go EmptyString s'
           | EmptyString => cur :: splitlines_go EmptyString s'
           end
      else if is_linebreak c then cur :: splitlines_go EmptyString s'
      else splitlines_go (snoc cur c) s'
  end.

(** [s.splitlines()] *)
Definition splitlines (s : string) : list string := splitlines_go EmptyString s.

(** [sep.join(l)] *)
Definition join (sep : string) (l : list string) : string :=
  String.concat sep l.

(** [str(n)] for an [int]. *)
Definition str (n : Z) : string := NilZero.string_of_int (Z.to_int n).

Definition is_digit (c : ascii) : bool := between 48 57 (code c).

Definition digit_val (c : ascii) : Z := Z.of_nat (code c) - 48.

(** Decimal digits, single underscores allowed between two digits. *)
Fixpoint int_digits (acc : Z) (s : string) : option Z :=
  match s with
  | EmptyString => Some acc
  | String c s' =>
      if is_digit c then int_digits (acc * 10 + digit_val c) s'
      else if (code c =? 95)
      then match s' with
           | String d _ => if is_digit d then int_digits acc s' else None
           | EmptyString => None
           end
      else None
  end.

Definition int_unsigned (s : string) : option Z :=
  match s with
  | String c _ => if is_digit c then int_digits 0 s else None
  | EmptyString => None
  end.

(** [int(s)] in base ten; [None] stands for [ValueError]. *)
Definition int (s : string) : option Z :=
  match strip s with
  | String c r =>
      if (code c =? 43) then int_unsigned r
      else if (code c =? 45) then Z.opp <$> int_unsigned r
      else int_unsigned (String c r)
  | EmptyString => None
  end.

Definition lower_char (c : ascii) : ascii :=
  let n := code c in
  if between 65 90 n || between 192 214 n || between 216 222 n
  then ascii_of_nat (n + 32) else c.

(** [s.lower()] *)
Fixpoint lower (s : string) : string :=
  match s with
  | EmptyString => EmptyString
  | String c s' => String (lower_char c) (lower s')
  end.

Fixpoint startswith (p s : string) : bool :=
  match p, s with
  | EmptyString, _ => true
  | String a p', String b s' => (code a =? code b) && startswith p' s'
  | String _ _, EmptyString => false
  end.

(** [s[n:]] *)
Fixpoint drop_chars (n : nat) (s : string) : string :=
  match n, s with
  | O, _ => s
  | S n', String _ s' => drop_chars n' s'
  | S _, EmptyString => EmptyString
  end.

(** [s.replace(a, b)] for a one-character [a]. *)
Fixpoint replace_char (a : ascii) (b : string) (s : string) : string :=
  match s with
  | EmptyString => EmptyString
  | String c s' =>
      (if (code c =? code a) then b else String c EmptyString) +:+ replace_char a b s'
  end.

(** [s.rfind(".")], as an index when the dot occurs. *)
Fixpoint rfind_dot (s : string) : option nat :=
  match s with
  | EmptyString => None
  | String c s' =>
      match rfind_dot s' with
      | Some i => Some (S i)
      | None => if (code c =? 46) then Some 0 else None
      end
  end.

(** [s[:n]] *)
Fixpoint take_chars (n : nat) (s : string) : string :=
  match n, s with
  | O, _ => EmptyString
  | S n', String c s' => String c (take_chars n' s')
  | S _, EmptyString => EmptyString
  end.

(** [s.endswith(p)] *)
Definition endswith (s p : string) : bool :=
  (String.length p <=? String.length s) &&
  startswith p (drop_chars (String.length s - String.length p) s).

Fixpoint split_on_go (sep : ascii) (cur s : string) : list string :=
  match s with
  | EmptyString => [cur]
  | String c s' =>
      if (code c =? code sep) then cur :: split_on_go sep EmptyString s'
      else split_on_go sep (snoc cur c) s'
  end.

(** [s.split(sep)] for a one-character separator. *)
Definition split_on (sep : ascii) (s : string) : list string :=
  split_on_go sep EmptyString s.

End PyStr.

Import PyStr.

(** ** Paths and the file system *)

(** An absolute path is the list of its components below the root. *)
Abbreviation path := (list string).

(** A regular file holds text (bytes that decode as UTF-8 to the given
    string) or bytes that do not decode. *)
Inductive content :=
| Text (s : string)
| Binary (b : list Byte.byte).

Inductive node :=
| File (c : content)
| Dir.

#[global] Instance byte_eq_dec : EqDecision Byte.byte := Byte.byte_eq_dec.

#[global] Instance content_eq_dec : EqDecision content.
Proof. solve_decision. Defined.

#[global] Instance node_eq_dec : EqDecision node.
Proof. solve_decision. Defined.

(** The exceptions the modelled calls raise. [SystemExit] carries the
    status of [sys.exit]. [LoopBudgetExceeded] is not a Python exception:
    it marks a [while True] loop cut off by the model, and
    [CoreML.next_free_path] is shown never to raise it. *)
Inductive exn :=
| FileExistsError
| FileNotFoundError
| IsADirectoryError
| NotADirectoryError
| SameFileError
| UnicodeDecodeError
| SystemExit (status : Z)
| LoopBudgetExceeded.

Inductive result (A : Type) :=
| Ok (a : A)
| Raise (e : exn).
Arguments Ok {A} a.
Arguments Raise {A} e.

Module Pathlib.

(** [p.name] *)
Definition name (p : path) : string := List.last p EmptyString.

(** [p.parent]; the root is its own parent. *)
Definition parent (p : path) : path := removelast p.

(** [PurePath.suffix] (as up to Python 3.13): from the last dot of the
    name, when that dot is neither the first nor the last character. *)
Definition suffix_of (nm : string) : string :=
  match rfind_dot nm with
  | Some i =>
      if (0 <? i) && (i <? String.length nm - 1) then drop_chars i nm
      else EmptyString
  | None => EmptyString
  end.

Definition suffix (p : path) : string := suffix_of (name p).

(** [PurePath.stem]: the name without its suffix. *)
Definition stem (p : path) : string :=
  let nm := name p in
  match rfind_dot nm with
  | Some i =>
      if (0 <? i) && (i <? String.length nm - 1) then take_chars i nm
      else nm
  | None => nm
  end.

(** The path itself and all its ancestors, root first. *)
Definition ancestors_and_self (p : path) : list path :=
  (fun n => take n p) <$> seq 0 (S (length p)).

Definition is_file_node (o : option node) : bool :=
  match o with Some (File _) => true | _ => false end.

Definition is_dir_node (o : option node) : bool :=
  match o with Some Dir => true | _ => false end.

Definition strictly_below (d p : path) : Prop := d `prefix_of` p ∧ d ≠ p.

#[global] Instance strictly_below_dec d p : Decision (strictly_below d p).
Proof. unfold strictly_below. apply _. Defined.

(** Everything a recursive walk from [d] meets: the paths strictly
    below [d], when [d] is a directory. *)
Definition walk (fs : gmap path node) (d : path) : list path :=
  if is_dir_node (fs !! d)
  then (map_to_list (filter (fun kv => strictly_below d kv.1) fs)).*1
  else [].

(** [p / s] for a string [s]: pathlib cuts [s] at the separators,
    drops the empty and the [.] components, and starts from the root
    when [s] begins with a separator. A [..] component is kept as it
    is, as pathlib keeps it; the operating system would resolve it,
    which the file system of this model does not: see [no_dotdot]. *)
Definition joinpath (p : path) (s : string) : path :=
  let parts :=
    List.filter (fun c => negb (bool_decide (c = EmptyString) || bool_decide (c = ".")))
                (split_on "/" s) in
  if startswith "/" s then parts else p ++ parts.

End Pathlib.

Import Pathlib.

(** ** File-system effects

    A computation reads and updates the file system and either returns a
    value or raises. *)

Definition M (A : Type) : Type := gmap path node -> result (A * gmap path node).

Definition ret {A} (a : A) : M A := fun fs => Ok (a, fs).

Definition bind {A B} (m : M A) (k : A -> M B) : M B :=
  fun fs =>
    match m fs with
    | Ok (a, fs') => k a fs'
    | Raise e => Raise e
    end.

Definition raise {A} (e : exn) : M A := fun _ => Raise e.

Notation "'let*' x ':=' m 'in' k" := (bind m (fun x => k))
  (at level 10, x pattern, m at level 100, k at level 200).
Notation "m ';;' k" := (bind m (fun _ => k))
  (at level 100, k at level 200, right associativity).

(** [if cond: body] around an effect. *)
Definition when (cond : bool) (body : M unit) : M unit :=
  if cond then body else ret tt.

Module Os.

(** [p.exists()] *)
Definition exists_ (p : path) : M bool :=
  fun fs => Ok (bool_decide (is_Some (fs !! p)), fs).

(** [p.is_file()] *)
Definition is_file (p : path) : M bool :=
  fun fs => Ok (is_file_node (fs !! p), fs).

(** [p.is_dir()] *)
Definition is_dir (p : path) : M bool :=
  fun fs => Ok (is_dir_node (fs !! p), fs).

(** [list(d.glob("**/*"))], also [list(d.rglob("*"))] *)
Definition glob_all (d : path) : M (list path) :=
  fun fs => Ok (walk fs d, fs).

(** [list(d.glob("**/*.txt"))], also [list(d.rglob("*.txt"))] *)
Definition glob_txt (d : path) : M (list path) :=
  fun fs => Ok (List.filter (fun p => endswith (name p) ".txt") (walk fs d), fs).

(** [list(d.iterdir())] *)
Definition iterdir (d : path) : M (list path) :=
  fun fs =>
    match fs !! d with
    | Some Dir =>
        Ok (List.filter (fun p => length p =? S (length d)) (walk fs d), fs)
    | Some (File _) => Raise NotADirectoryError
    | None => Raise FileNotFoundError
    end.

(** [p.read_text(encoding="utf-8")] *)
Definition read_text (p : path) : M string :=
  fun fs =>
    match fs !! p with
    | Some (File (Text s)) => Ok (s, fs)
    | Some (File (Binary _)) => Raise UnicodeDecodeError
    | Some Dir => Raise IsADirectoryError
    | None => Raise FileNotFoundError
    end.

(** Opening [p] for writing and storing [c] there. *)
Definition write_file (p : path) (c : content) : M unit :=
  fun fs =>
    match fs !! p with
    | Some Dir => Raise IsADirectoryError
    | _ =>
        match fs !! parent p with
        | Some Dir => Ok (tt, <[p := File c]> fs)
        | Some (File _) => Raise NotADirectoryError
        | None => Raise FileNotFoundError
        end
    end.

(** [p.write_text(s, encoding="utf-8")] *)
Definition write_text (p : path) (s : string) : M unit :=
  write_file p (Text s).

(** [p.mkdir(parents=True, exist_ok=True)] *)
Definition mkdir_p (p : path) : M unit :=
  fun fs =>
    if is_file_node (fs !! p) then Raise FileExistsError
    else if existsb (fun q => is_file_node (fs !! q)) (ancestors_and_self p)
    then Raise NotADirectoryError
    else Ok (tt, foldr (fun q m => <[q := Dir]> m) fs (ancestors_and_self p)).

(** [shutil.copy2(src, dst)]: into [dst] when it is a directory; the
    same-file test comes before [src] is opened. *)
Definition copy2 (src dst : path) : M unit :=
  fun fs =>
    let dst' := if is_dir_node (fs !! dst) then dst ++ [name src] else dst in
    if bool_decide (src = dst') && bool_decide (is_Some (fs !! src))
    then Raise SameFileError
    else
      match fs !! src with
      | Some (File c) => write_file dst' c fs
      | Some Dir => Raise IsADirectoryError
      | None => Raise FileNotFoundError
      end.

(** [shutil.copytree(src, dst)]: [dst] must not exist; every node below
    [src] is reproduced below [dst]. *)
Definition copytree (src dst : path) : M unit :=
  fun fs =>
    match fs !! src with
    | Some Dir =>
        if bool_decide (is_Some (fs !! dst)) then Raise FileExistsError
        else
          match mkdir_p dst fs with
          | Ok (_, fs1) =>
              Ok (tt, foldr (fun p m =>
                               match fs !! p with
                               | Some n => <[dst ++ drop (length src) p := n]> m
                               | None => m
                               end) fs1 (walk fs src))
          | Raise e => Raise e
          end
    | Some (File _) => Raise NotADirectoryError
    | None => Raise FileNotFoundError
    end.

End Os.

(** ** The label remapper shared by both merge scripts *)

(** What the closure [append_line] updates: the file's [out_lines], the
    run's [class_counts] and the split's [bbox_written]. *)
Record remap_state := RemapState {
  out_lines : list string;
  class_counts : gmap Z nat;
  bbox_written : nat
}.

(** [counts[k] += 1] on a [defaultdict(int)] *)
Definition incr (k : Z) (counts : gmap Z nat) : gmap Z nat :=
  <[k := S (default 0 (counts !! k))]> counts.

(** [range(lo, hi, step)] for a positive step *)
Definition range (lo hi step : nat) : list nat :=
  (fun k => lo + step * k) <$> seq 0 ((hi - lo + step - 1) / step).

Definition newline : string := String (ascii_of_nat 10) EmptyString.

Section Remapper.

(** The two scripts differ only in [append_line]. *)
Variable append_line : list string -> remap_state -> remap_state.
Variable target_id : Z.

(** Body of [for line in lines] *)
Definition remap_line (st : remap_state) (line : string) : remap_state :=
  let line := strip line in
  if is_empty line then st
  else
    let parts := split line in
    if 5 <=? length parts then
      let vals := drop 1 parts in
      if length vals mod 4 =? 0 then
        foldl (fun st i => append_line (str target_id :: take 4 (drop i vals)) st)
              st (range 0 (length vals) 4)
      else append_line (<[0 := str target_id]> parts) st
    else
      match parts with
      | [] => st
      | _ :: _ => append_line (<[0 := str target_id]> parts) st
      end.

Definition remap_lines (st : remap_state) (lines : list string) : remap_state :=
  foldl remap_line st lines.

(** The text handed to [dest.write_text] *)
Definition output_text (lines : list string) : string :=
  join newline lines +:+ (match lines with [] => EmptyString | _ :: _ => newline end).

End Remapper.

(** A [for] loop threading its loop-carried variables. *)
Fixpoint foldM {A S} (body : S -> A -> M S) (s : S) (l : list A) : M S :=
  match l with
  | [] => ret s
  | a :: l' => let* s' := body s a in foldM body s' l'
  end.

(** One entry [stats[ds][split]] *)
Record split_stats := SplitStats {
  images_copied : nat;
  labels_copied : nat;
  boxes : nat
}.

(** The tuple [("train", "valid", "test")] both [merge]s iterate over *)
Definition SPLITS : list string := ["train"; "valid"; "test"].

Definition UNIFIED_NAMES : list string := ["credit_card"; "id_card"; "passport"].

(** [repr] of a list of plain strings *)
Definition repr_names (l : list string) : string :=
  "[" +:+ join ", " ((fun s => "'" +:+ s +:+ "'") <$> l) +:+ "]".

(** The text written to [data.yaml] *)
Definition data_yaml_text : string :=
  join newline
    [ "train: train/images"; "val: valid/images"; "test: test/images"; EmptyString;
      "nc: " +:+ str (Z.of_nat (length UNIFIED_NAMES));
      "names: " +:+ repr_names UNIFIED_NAMES ] +:+ newline.

(** What [merge] returns: [stats], [dict(class_counts)], [total_boxes] *)
Definition merge_result : Type :=
  gmap string (gmap string split_stats) * gmap Z nat * nat.

(** ** merge_dataset_1.py *)

Module Merge1.

(** Folder name and target unified id, in the order of the dict. *)
Definition DATASETS : list (string * Z) :=
  [ ("credit-cards.yolov11", 0%Z); ("card-live-video.yolov11", 0%Z);
    ("VKYC.v2i.yolov11", 1%Z); ("passport.yolov11", 2%Z) ].

Definition make_dirs (p : path) : M unit := Os.mkdir_p p.

(** The closure [append_line]: the tally key is parsed back from the
    first token, [target_id] when that fails. *)
Definition append_line (target_id : Z) (tokens : list string)
    (st : remap_state) : remap_state :=
  let out_line := join " " tokens in
  let cls_id :=
    match tokens !! 0 with
    | Some t => match int t with Some n => n | None => target_id end
    | None => target_id
    end in
  {| out_lines := out_lines st ++ [out_line];
     class_counts := incr cls_id (class_counts st);
     bbox_written := S (bbox_written st) |}.

(** Body of [for img in image_files] *)
Definition copy_image (out_images : path) (prefix : string) (dry_run : bool)
    (copied_images : nat) (img : path) : M nat :=
  let* f := Os.is_file img in
  if f then
    let new_name := prefix +:+ "_" +:+ name img in
    let dest := out_images ++ [new_name] in
    when (negb dry_run) (make_dirs (parent dest) ;; Os.copy2 img dest) ;;
    ret (S copied_images)
  else ret copied_images.

(** Body of [for lab in label_files]; the loop carries [class_counts],
    [copied_labels] and [bbox_written]. *)
Definition remap_label (out_labels : path) (prefix : string) (target_id : Z)
    (dry_run : bool) (acc : gmap Z nat * nat * nat) (lab : path)
    : M (gmap Z nat * nat * nat) :=
  let '(counts, copied_labels, written) := acc in
  let* f := Os.is_file lab in
  if f then
    let new_name := prefix +:+ "_" +:+ name lab in
    let dest := out_labels ++ [new_name] in
    when (negb dry_run) (make_dirs (parent dest)) ;;
    let* text := Os.read_text lab in
    let st := remap_lines (append_line target_id) target_id
                (RemapState [] counts written) (splitlines text) in
    when (negb dry_run) (Os.write_text dest (output_text (out_lines st))) ;;
    ret (class_counts st, S copied_labels, bbox_written st)
  else ret acc.

(** [class_counts], the dictionary the caller shares with every call,
    is passed in and handed back next to the three counters. *)
Definition process_split (dataset_dir : path) (split : string)
    (out_images out_labels : path) (prefix : string) (target_id : Z)
    (counts : gmap Z nat) (dry_run : bool)
    : M (nat * nat * nat * gmap Z nat) :=
  let images_dir := dataset_dir ++ [split; "images"] in
  let labels_dir := dataset_dir ++ [split; "labels"] in
  let* ie := Os.exists_ images_dir in
  let* image_files := (if ie then Os.glob_all images_dir else ret []) in
  let* le := Os.exists_ labels_dir in
  let* label_files := (if le then Os.glob_txt labels_dir else ret []) in
  let* copied_images := foldM (copy_image out_images prefix dry_run) 0 image_files in
  let* r := foldM (remap_label out_labels prefix target_id dry_run)
              (counts, 0, 0) label_files in
  let '(counts', copied_labels, written) := r in
  ret (copied_images, copied_labels, written, counts').

(** Body of [for split in ("train", "valid", "test")] inside a dataset *)
Definition merge_split (ds_name : string) (ds_path out : path) (prefix : string)
    (target_id : Z) (dry_run : bool) (acc : merge_result) (split : string)
    : M merge_result :=
  let '(stats, counts, total_boxes) := acc in
  let out_images := out ++ [split; "images"] in
  let out_labels := out ++ [split; "labels"] in
  let* r := process_split ds_path split out_images out_labels prefix
              target_id counts dry_run in
  let '(ci, cl, bx, counts') := r in
  ret (alter (insert split (SplitStats ci cl bx)) ds_name stats,
       counts', total_boxes + bx).

(** Body of [for ds_name, target_id in DATASETS.items()] *)
Definition merge_dataset (root out : path) (dry_run : bool)
    (acc : merge_result) (entry : string * Z) : M merge_result :=
  let '(stats, counts, total_boxes) := acc in
  let '(ds_name, target_id) := entry in
  let ds_path := root ++ [ds_name] in
  let* e := Os.exists_ ds_path in
  if negb e then ret acc
  else
    let prefix := replace_char "." "_" (replace_char "/" "_" ds_name) in
    foldM (merge_split ds_name ds_path out prefix target_id dry_run)
          (<[ds_name := ∅]> stats, counts, total_boxes) SPLITS.

Definition make_output_dirs (out : path) : M unit :=
  foldM (fun _ split =>
           make_dirs (out ++ [split; "images"]) ;;
           make_dirs (out ++ [split; "labels"])) tt SPLITS.

(** [merge] over a given dataset table, whose folder names are single
    path components as those of [DATASETS] are *)
Definition merge_with (datasets : list (string * Z)) (root out : path)
    (dry_run : bool) : M merge_result :=
  make_output_dirs out ;;
  let* r := foldM (merge_dataset root out dry_run) (∅, ∅, 0) datasets in
  when (negb dry_run) (Os.write_text (out ++ ["data.yaml"]) data_yaml_text) ;;
  ret r.

Definition merge (root out : path) (dry_run : bool) : M merge_result :=
  merge_with DATASETS root out dry_run.

(** The name [main] prints beside a class id:
    [UNIFIED_NAMES[cls_id] if 0 <= cls_id < len(UNIFIED_NAMES) else str(cls_id)] *)
Definition class_name (cls_id : Z) : string :=
  if ((0 <=? cls_id)%Z && (cls_id <? Z.of_nat (length UNIFIED_NAMES))%Z)
  then default EmptyString (UNIFIED_NAMES !! Z.to_nat cls_id)
  else str cls_id.

End Merge1.

(** ** merge_dataset_2.py *)

Module Merge2.

Definition FORCED_TARGET_ID : Z := 1.

Inductive split_key := Train | Valid | Test.

Definition key_name (k : split_key) : string :=
  match k with Train => "train" | Valid => "valid" | Test => "test" end.

Definition SPLIT_ALIASES (k : split_key) : list string :=
  match k with
  | Train => ["train"]
  | Valid => ["valid"; "val"]
  | Test => ["test"]
  end.

(** The tuple [("train", "valid", "test")] as keys of [SPLIT_ALIASES] *)
Definition SPLIT_KEYS : list split_key := [Train; Valid; Test].

Definition IMG_EXTS : list string :=
  [".jpg"; ".jpeg"; ".png"; ".bmp"; ".webp"; ".tif"; ".tiff"].

Definition make_dirs (p : path) : M unit := Os.mkdir_p p.

Definition sanitize_prefix (nm : string) : string :=
  replace_char "." "_" (replace_char " " "_" (replace_char "/" "_" nm)).

(** The [for alias in SPLIT_ALIASES[split_key]] loop with its early
    [return]. *)
Fixpoint find_in_aliases (dataset_dir : path) (aliases : list string)
    : M (option path * option path) :=
  match aliases with
  | [] => ret (None, None)
  | alias :: rest =>
      let images_dir := dataset_dir ++ [alias; "images"] in
      let labels_dir := dataset_dir ++ [alias; "labels"] in
      let* e := Os.exists_ images_dir in
      let* d := Os.is_dir images_dir in
      if e && d then
        let* le := Os.exists_ labels_dir in
        ret (Some images_dir, if le then Some labels_dir else None)
      else find_in_aliases dataset_dir rest
  end.

Definition find_split_dirs (dataset_dir : path) (k : split_key)
    : M (option path * option path) :=
  find_in_aliases dataset_dir (SPLIT_ALIASES k).

Definition has_image_ext (p : path) : bool :=
  bool_decide (lower (suffix p) ∈ IMG_EXTS).

(** [list(iter_images(images_dir))] *)
Definition iter_images (images_dir : path) : M (list path) :=
  fun fs =>
    Ok (List.filter (fun p => is_file_node (fs !! p) && has_image_ext p)
          (walk fs images_dir), fs).

(** [list(iter_label_files(labels_dir))] *)
Definition iter_label_files (labels_dir : option path) : M (list path) :=
  match labels_dir with
  | None => ret []
  | Some d =>
      fun fs =>
        Ok (List.filter (fun p => endswith (name p) ".txt" && is_file_node (fs !! p))
              (walk fs d), fs)
  end.

Section Resolve.

(** [list(root.glob(pattern))] of pathlib, left abstract: the paths
    a pattern matches below [root] in a given file system. *)
Variable glob : gmap path node -> path -> string -> list path.

(** Body of [for p in root.glob(pattern)] *)
Definition keep_dir (found : list path) (p : path) : M (list path) :=
  let* d := Os.is_dir p in
  ret (if d then found ++ [p] else found).

Definition keep_discovered (found : list path) (p : path) : M (list path) :=
  let* d := Os.is_dir p in
  ret (if d && endswith (lower (name p)) ".yolov11" then found ++ [p] else found).

(** Body of [for d in found] *)
Definition keep_usable (usable : list path) (d : path) : M (list path) :=
  let* ti := find_split_dirs d Train in
  let* vi := find_split_dirs d Valid in
  let* tei := find_split_dirs d Test in
  ret (match ti.1, vi.1, tei.1 with
       | Some _, Some _, Some _ => usable ++ [d]
       | _, _, _ => usable
       end).

(** [if dataset_globs:] is taken for a non-empty list only. *)
Definition resolve_datasets (root : path) (dataset_globs : option (list string))
    : M (list path) :=
  let* found :=
    (match dataset_globs with
     | Some (pat :: pats) =>
         foldM (fun found pattern =>
                  let* ps := (fun fs => Ok (glob fs root pattern, fs)) in
                  foldM keep_dir found ps) [] (pat :: pats)
     | _ =>
         let* ps := Os.iterdir root in
         foldM keep_discovered [] ps
     end) in
  foldM keep_usable [] found.

End Resolve.

(** The closure [append_line]: the tally key is always [target_id]. *)
Definition append_line (target_id : Z) (tokens : list string)
    (st : remap_state) : remap_state :=
  {| out_lines := out_lines st ++ [join " " tokens];
     class_counts := incr target_id (class_counts st);
     bbox_written := S (bbox_written st) |}.

(** Body of [for img in imgs] *)
Definition copy_image (out_images : path) (prefix : string) (dry_run : bool)
    (copied_images : nat) (img : path) : M nat :=
  let new_name := prefix +:+ "_" +:+ name img in
  let dest := out_images ++ [new_name] in
  when (negb dry_run) (make_dirs (parent dest) ;; Os.copy2 img dest) ;;
  ret (S copied_images).

(** Body of [for lab in lbls] *)
Definition remap_label (out_labels : path) (prefix : string) (target_id : Z)
    (dry_run : bool) (acc : gmap Z nat * nat * nat) (lab : path)
    : M (gmap Z nat * nat * nat) :=
  let '(counts, copied_labels, written) := acc in
  let new_name := prefix +:+ "_" +:+ name lab in
  let dest := out_labels ++ [new_name] in
  when (negb dry_run) (make_dirs (parent dest)) ;;
  let* text := Os.read_text lab in
  let st := remap_lines (append_line target_id) target_id
              (RemapState [] counts written) (splitlines text) in
  when (negb dry_run) (Os.write_text dest (output_text (out_lines st))) ;;
  ret (class_counts st, S copied_labels, bbox_written st).

Definition process_split (dataset_dir : path) (k : split_key)
    (out_images out_labels : path) (prefix : string) (target_id : Z)
    (counts : gmap Z nat) (dry_run : bool)
    : M (nat * nat * nat * gmap Z nat) :=
  let* dirs := find_split_dirs dataset_dir k in
  match dirs.1 with
  | None => ret (0, 0, 0, counts)
  | Some images_dir =>
      let* imgs := iter_images images_dir in
      let* copied_images := foldM (copy_image out_images prefix dry_run) 0 imgs in
      match dirs.2 with
      | None => ret (copied_images, 0, 0, counts)
      | Some labels_dir =>
          let* lbls := iter_label_files (Some labels_dir) in
          let* r := foldM (remap_label out_labels prefix target_id dry_run)
                      (counts, 0, 0) lbls in
          let '(counts', copied_labels, written) := r in
          ret (copied_images, copied_labels, written, counts')
      end
  end.

(** Body of [for split in ("train", "valid", "test")] inside a dataset *)
Definition merge_split (ds_path out : path) (prefix : string)
    (dry_run : bool) (acc : merge_result) (k : split_key) : M merge_result :=
  let '(stats, counts, total_boxes) := acc in
  let out_images := out ++ [key_name k; "images"] in
  let out_labels := out ++ [key_name k; "labels"] in
  let* r := process_split ds_path k out_images out_labels prefix
              FORCED_TARGET_ID counts dry_run in
  let '(ci, cl, bx, counts') := r in
  ret (alter (insert (key_name k) (SplitStats ci cl bx)) (name ds_path) stats,
       counts', total_boxes + bx).

(** Body of [for ds_path in datasets] *)
Definition merge_dataset (out : path) (dry_run : bool)
    (acc : merge_result) (ds_path : path) : M merge_result :=
  let '(stats, counts, total_boxes) := acc in
  let prefix := sanitize_prefix (name ds_path) in
  foldM (merge_split ds_path out prefix dry_run)
        (<[name ds_path := ∅]> stats, counts, total_boxes) SPLIT_KEYS.

Definition make_output_dirs (out : path) : M unit :=
  foldM (fun _ split =>
           make_dirs (out ++ [split; "images"]) ;;
           make_dirs (out ++ [split; "labels"])) tt SPLITS.

Definition merge (root out : path) (datasets : list path) (dry_run : bool)
    : M merge_result :=
  make_output_dirs out ;;
  let* r := foldM (merge_dataset out dry_run) (∅, ∅, 0) datasets in
  when (negb dry_run) (Os.write_text (out ++ ["data.yaml"]) data_yaml_text) ;;
  ret r.

Section Main.

Variable glob : gmap path node -> path -> string -> list path.

(** [main] once the arguments are parsed: [root] is the resolved
    root, [args_out] and [args_datasets] the values of [--out] and
    [--datasets]; [--out] is a folder name, one path component, as
    its default is. [None] is the early [return] after
    "No usable .yolov11 datasets found". *)
Definition main (root : path) (args_out : string)
    (args_datasets : option string) (dry_run : bool)
    : M (option merge_result) :=
  let out := root ++ [args_out] in
  let patterns :=
    match args_datasets with
    | Some (String c s) => Some (strip <$> split_on "," (String c s))
    | _ => None
    end in
  let* candidates := resolve_datasets glob root patterns in
  match candidates with
  | [] => ret None
  | _ :: _ =>
      let* r := merge root out candidates dry_run in
      ret (Some r)
  end.

End Main.

End Merge2.

(** ** export_to_coreml.py *)

Module CoreML.

(** [parent / f"{stem}_{i}{suffix}"] *)
Definition candidate (base : path) (i : nat) : path :=
  parent base ++ [stem base +:+ "_" +:+ str (Z.of_nat i) +:+ suffix base].

(** The [while True] loop from counter [i], cut after [budget] rounds. *)
Fixpoint probe (fs : gmap path node) (base : path) (budget i : nat)
    : option path :=
  match budget with
  | O => None
  | S budget' =>
      if bool_decide (is_Some (fs !! candidate base i))
      then probe fs base budget' (S i)
      else Some (candidate base i)
  end.

(** [next_free_path(base)]; one round more than there are nodes is
    always enough, see [probe_finds]. *)
Definition next_free_path (base : path) : M path :=
  fun fs =>
    if bool_decide (is_Some (fs !! base))
    then match probe fs base (S (size fs)) 1 with
         | Some c => Ok (c, fs)
         | None => Raise LoopBudgetExceeded
         end
    else Ok (base, fs).

(** The block under [if produced.resolve() != target.resolve()] *)
Definition copy_to_target (produced target : path) : M unit :=
  if bool_decide (produced = target) then ret tt
  else
    let* d := Os.is_dir produced in
    if d then
      let* occupied := Os.exists_ target in
      if occupied then raise (SystemExit 3)
      else Os.copytree produced target
    else Os.copy2 produced target.

(** [main] from the line [produced = find_coreml_path(export_out)] on:
    [produced] is the exported artefact, [cwd] the working directory,
    [outname] the value of [--outname], which may hold separators. *)
Definition main_after_export (produced cwd : path) (outname : string)
    : M path :=
  let* found := Os.exists_ produced in
  if negb found then raise (SystemExit 2)
  else
    let ext := suffix produced in
    let* target := next_free_path (joinpath cwd (outname +:+ ext)) in
    copy_to_target produced target ;;
    ret target.

(** What [model.export] hands back: a path, or a list of paths. *)
Inductive export_out :=
| One (x : path)
| Many (xs : list path).

(** [find_coreml_path(x)]; [None] stands for the [IndexError] of
    [x[0]] on an empty list. *)
Definition find_coreml_path (x : export_out) : option path :=
  match x with
  | Many xs =>
      match List.find (fun p => bool_decide (suffix p = ".mlmodel")
                                || bool_decide (suffix p = ".mlpackage")) xs with
      | Some p => Some p
      | None => xs !! 0
      end
  | One p => Some p
  end.

End CoreML.

(** ** Sample trees *)

Module Samples.

Definition root : path := ["data"].

Definition cards : path := ["data"; "credit-cards.yolov11"].


(** One dataset with a [train] split only: two files under [images],
    one of them not an image, and two label files, one of them blank. *)
Definition tree : gmap path node :=
  list_to_map
    [ ([], Dir); (["data"], Dir); (cards, Dir);
      (cards ++ ["train"], Dir);
      (cards ++ ["train"; "images"], Dir);
      (cards ++ ["train"; "images"; "a.jpg"], File (Binary [Byte.xff; Byte.xd8]));
      (cards ++ ["train"; "images"; "notes.md"], File (Text "todo"));
      (cards ++ ["train"; "labels"], Dir);
      (cards ++ ["train"; "labels"; "a.txt"],
         File (Text ("0 .1 .2 .3 .4 .5 .6 .7 .8" +:+ newline +:+
                     "7 a b c d e" +:+ newline +:+ "3 x")));
      (cards ++ ["train"; "labels"; "blank.txt"],
         File (Text (" " +:+ newline +:+ newline))) ].

(** [tree] after the output directories were made under [data/out]. *)
Definition tree_with_out : gmap path node :=
  match Merge1.make_output_dirs ["data"; "out"] tree with
  | Ok (_, fs) => fs
  | Raise _ => tree
  end.

(** [tree] with an empty [valid] and an empty [test] split added to
    its dataset, so that all three splits resolve. *)
Definition full_tree : gmap path node :=
  foldr (fun d m => <[d := Dir]> m) tree
    [ cards ++ ["valid"]; cards ++ ["valid"; "images"];
      cards ++ ["test"]; cards ++ ["test"; "images"] ].

(** pathlib's [glob] on patterns that are one literal name. *)
Definition literal_glob (fs : gmap path node) (root : path)
    (pattern : string) : list path :=
  if bool_decide (is_Some (fs !! (root ++ [pattern])))
  then [root ++ [pattern]] else [].

End Samples.
(** * Vocabulary of the properties *)

(** The lines a step added to [out_lines]. *)
Definition emitted (st st' : remap_state) : list string :=
  drop (length (out_lines st)) (out_lines st').

(** [append_line] puts exactly one line, the joined tokens, at the end. *)
Definition appends (al : list string -> remap_state -> remap_state) : Prop :=
  forall tokens st, out_lines (al tokens st) = out_lines st ++ [join " " tokens].

(** The line is emitted as one output line per four value tokens. *)
Definition emits_chunks (tid : Z) (parts : list string) (st st' : remap_state)
    : Prop :=
  exists new,
    out_lines st' = out_lines st ++ new /\
    length new = (length parts - 1) / 4 /\
    forall k, k < (length parts - 1) / 4 ->
      exists a b c d,
        parts !! (4 * k + 1) = Some a /\ parts !! (4 * k + 2) = Some b /\
        parts !! (4 * k + 3) = Some c /\ parts !! (4 * k + 4) = Some d /\
        new !! k = Some (join " " [str tid; a; b; c; d]).

(** Every character of [s] satisfies [P]. *)
Fixpoint all_chars (P : ascii -> bool) (s : string) : bool :=
  match s with
  | EmptyString => true
  | String c s' => P c && all_chars P s'
  end.

(** Value of a digit sequence read left to right from [acc]. *)
Fixpoint uint_value (acc : Z) (d : Decimal.uint) : Z :=
  match d with
  | Decimal.Nil => acc
  | Decimal.D0 d => uint_value (acc * 10 + 0) d
  | Decimal.D1 d => uint_value (acc * 10 + 1) d
  | Decimal.D2 d => uint_value (acc * 10 + 2) d
  | Decimal.D3 d => uint_value (acc * 10 + 3) d
  | Decimal.D4 d => uint_value (acc * 10 + 4) d
  | Decimal.D5 d => uint_value (acc * 10 + 5) d
  | Decimal.D6 d => uint_value (acc * 10 + 6) d
  | Decimal.D7 d => uint_value (acc * 10 + 7) d
  | Decimal.D8 d => uint_value (acc * 10 + 8) d
  | Decimal.D9 d => uint_value (acc * 10 + 9) d
  end.

(** A split resolves when the image directory of one of its aliases is a
    directory. *)
Definition split_resolves (fs : gmap path node) (d : path)
    (k : Merge2.split_key) : bool :=
  existsb (fun alias => is_dir_node (fs !! (d ++ [alias; "images"])))
          (Merge2.SPLIT_ALIASES k).

(** All three splits resolve. *)
Definition looks_like_yolo (fs : gmap path node) (d : path) : bool :=
  forallb (split_resolves fs d) Merge2.SPLIT_KEYS.

(** What dataset resolution starts from: in pattern mode the directories
    matched by some pattern, in discovery mode the directories directly
    under the root whose lower-cased name ends in [.yolov11]. *)
Definition candidates (glob : gmap path node -> path -> string -> list path)
    (fs : gmap path node) (root : path) (dataset_globs : option (list string))
    : list path :=
  match dataset_globs with
  | Some (pat :: pats) =>
      List.filter (fun p => is_dir_node (fs !! p))
        (concat ((fun pattern => glob fs root pattern) <$> (pat :: pats)))
  | _ =>
      List.filter (fun p => is_dir_node (fs !! p) &&
                            endswith (lower (name p)) ".yolov11")
        (List.filter (fun p => length p =? S (length root)) (walk fs root))
  end.

(** Every proper ancestor of a node is a directory. *)
Definition well_formed (fs : gmap path node) : Prop :=
  map_Forall (fun p _ =>
                Forall (fun q => q = p \/ fs !! q = Some Dir) (ancestors_and_self p))
             fs.

(** Sum of [g] over the values of a dictionary. *)
Definition total_of {K} `{Countable K} {V} (g : V -> nat) (m : gmap K V) : nat :=
  map_fold (fun _ v acc => g v + acc) 0 m.

(** Sum of [stats[dataset][split]["boxes"]] over all datasets and splits *)
Definition stats_boxes (stats : gmap string (gmap string split_stats)) : nat :=
  total_of (total_of boxes) stats.

(** Sum of the values of [class_counts] *)
Definition counts_total (counts : gmap Z nat) : nat := total_of id counts.

(** The three aggregates [merge] returns agree. *)
Definition consistent (r : merge_result) : Prop :=
  r.2 = stats_boxes r.1.1 /\ r.2 = counts_total r.1.2.


(** The six directories [out / split / "images"], [out / split / "labels"] *)
Definition out_dirs (out : path) : list path :=
  flat_map (fun s => [out ++ [s; "images"]; out ++ [s; "labels"]]) SPLITS.

(** Two file systems that differ at most at and below [out]. *)
Definition agree_outside (out : path) (fs1 fs0 : gmap path node) : Prop :=
  forall p, ~ out `prefix_of` p -> fs1 !! p = fs0 !! p.

(** The output directories and all their ancestors are directories. *)
Definition out_ready (out : path) (fs : gmap path node) : Prop :=
  forall d q, d ∈ out_dirs out -> q `prefix_of` d -> fs !! q = Some Dir.

Definition related (out : path) (fs1 fs0 : gmap path node) : Prop :=
  agree_outside out fs1 fs0 /\ out_ready out fs1.

(** [m1], run where the output tree is being filled, returns what [m0]
    returns on the untouched tree, and [m0] changes nothing. *)
Definition simulates (out : path) {A} (Q : A -> Prop) (m1 m0 : M A) : Prop :=
  forall fs1 fs0 a fs1',
    related out fs1 fs0 -> m1 fs1 = Ok (a, fs1') ->
    m0 fs0 = Ok (a, fs0) /\ related out fs1' fs0 /\ Q a.

(** The value a run returned, if it returned. *)
Definition returned {A} (r : result (A * gmap path node)) : option A :=
  match r with
  | Ok (a, _) => Some a
  | Raise _ => None
  end.

(** A computation that leaves the file system as it found it. *)
Definition reads_only {A} (m : M A) : Prop :=
  forall fs a fs', m fs = Ok (a, fs') -> fs' = fs.

(** The file system a run left behind, if it returned. *)
Definition left_behind {A} (r : result (A * gmap path node))
    : option (gmap path node) :=
  match r with
  | Ok (_, fs) => Some fs
  | Raise _ => None
  end.


(** No component of [s] is [..]. The parts of [p / s] are then the
    path the file system resolves [p / s] to. *)
Definition no_dotdot (s : string) : Prop := ".." ∉ split_on "/" s.

(** * Vocabulary of the further properties *)

(** A whitespace-free, non-empty string: what [str.split()] yields. *)
Definition is_token (t : string) : bool :=
  negb (is_empty t) && all_chars (fun c => negb (isspace c)) t.

(** Neither a line boundary of [splitlines] nor a carriage return. *)
Definition no_break (c : ascii) : bool :=
  negb (is_linebreak c || (code c =? 13)).

(** The groups of value tokens a label line is emitted as, one group per
    output line. *)
Definition line_boxes (line : string) : list (list string) :=
  let parts := split (strip line) in
  match parts with
  | [] => []
  | _ :: vals =>
      if (5 <=? length parts) && (length vals mod 4 =? 0)
      then (fun i => take 4 (drop i vals)) <$> range 0 (length vals) 4
      else [vals]
  end.

(** [fs'] keeps every node of [fs]: unchanged unless at or below [out],
    a directory still a directory; and what [fs'] has more than [fs]
    lies at or below [out], or is a directory on the way to [out]. *)
Definition grows_under (out : path) (fs fs' : gmap path node) : Prop :=
  forall p,
    (is_Some (fs !! p) -> ~ out `prefix_of` p -> fs' !! p = fs !! p) /\
    (fs !! p = Some Dir -> fs' !! p = Some Dir) /\
    (is_Some (fs !! p) -> is_Some (fs' !! p)) /\
    (fs !! p = None -> is_Some (fs' !! p) ->
     out `prefix_of` p \/ (p `prefix_of` out /\ fs' !! p = Some Dir)).

(** A computation whose every returning run only adds under [out]. *)
Definition writes_under (out : path) {A} (m : M A) : Prop :=
  forall fs a fs', m fs = Ok (a, fs') -> grows_under out fs fs'.

(** One of the three characters [sanitize_prefix] replaces: the path
    separator, the space and the dot. *)
Definition unsafe_char (c : ascii) : bool :=
  (code c =? 47) || (code c =? 32) || (code c =? 46).

(** [p.suffix] is one of the two Core ML suffixes. *)
Definition is_coreml (p : path) : bool :=
  bool_decide (suffix p = ".mlmodel") || bool_decide (suffix p = ".mlpackage").

(** The number of boxes a label line stands for: none when blank, one
    per four values when the values after the class id come in fours,
    one otherwise. *)
Definition boxes_of_line (line : string) : nat :=
  let n := length (split (strip line)) in
  if n =? 0 then 0
  else if (5 <=? n) && ((n - 1) mod 4 =? 0) then (n - 1) / 4
  else 1.

(** The boxes of a label file: those of its lines; nothing for what is
    not a text file. *)
Definition file_boxes (fs : gmap path node) (p : path) : nat :=
  match fs !! p with
  | Some (File (Text s)) => sum_list (boxes_of_line <$> splitlines s)
  | _ => 0
  end.

(** The label files of a directory: the regular files below it whose
    name ends in [.txt]. *)
Definition label_files (fs : gmap path node) (labels_dir : path) : list path :=
  List.filter (fun p => endswith (name p) ".txt" && is_file_node (fs !! p))
              (walk fs labels_dir).

(** * Properties *)

(** ** Label remapper: emitted lines *)

Lemma appends_merge1 tid : appends (Merge1.append_line tid).
Proof. intros tokens st. reflexivity. Qed.

Lemma appends_merge2 tid : appends (Merge2.append_line tid).
Proof. intros tokens st. reflexivity. Qed.

Lemma foldl_appends al (f : nat -> list string) (l : list nat) st :
  appends al ->
  out_lines (foldl (fun st i => al (f i) st) st l)
  = out_lines st ++ ((fun i => join " " (f i)) <$> l).
Proof.
  intros Hal. revert st. induction l as [|i l IH]; intros st; simpl.
  - by rewrite app_nil_r.
  - rewrite IH, Hal, <- app_assoc. reflexivity.
Qed.

Lemma range_by_four n :
  n mod 4 = 0 -> range 0 n 4 = (fun k => 4 * k) <$> seq 0 (n / 4).
Proof.
  intros Hm. unfold range.
  assert ((n - 0 + 4 - 1) / 4 = n / 4) as ->.
  { pose proof (Nat.div_mod_eq n 4) as Hn. rewrite Hm in Hn.
    symmetry. apply (Nat.div_unique _ 4 _ 3); lia. }
  reflexivity.
Qed.

Lemma take_four {A} (l : list A) i :
  i + 4 <= length l ->
  exists a b c d,
    take 4 (drop i l) = [a; b; c; d] /\
    l !! i = Some a /\ l !! (i + 1) = Some b /\
    l !! (i + 2) = Some c /\ l !! (i + 3) = Some d.
Proof.
  intros Hlen.
  pose proof (length_drop l i) as Hd.
  pose proof (lookup_drop l i 0) as H0. pose proof (lookup_drop l i 1) as H1.
  pose proof (lookup_drop l i 2) as H2. pose proof (lookup_drop l i 3) as H3.
  destruct (drop i l) as [|a [|b [|c [|d r]]]]; simpl in Hd; try lia.
  exists a, b, c, d. simpl in *.
  rewrite Nat.add_0_r in H0. repeat split; congruence.
Qed.

Lemma split_strip_nonempty line :
  split (strip line) <> [] -> is_empty (strip line) = false.
Proof. destruct (strip line); [intros H; by destruct H | done]. Qed.

Lemma set_first {A} (x : A) (l : list A) :
  l <> [] -> <[0 := x]> l = x :: drop 1 l.
Proof. destruct l; [done | intros _; simpl; by rewrite drop_0]. Qed.

Lemma remap_line_chunks al tid st line :
  appends al ->
  5 <= length (split (strip line)) ->
  (length (split (strip line)) - 1) mod 4 = 0 ->
  emits_chunks tid (split (strip line)) st (remap_line al tid st line).
Proof.
  intros Hal Hlen Hmod. unfold remap_line.
  rewrite split_strip_nonempty by (intros E; rewrite E in Hlen; simpl in Hlen; lia).
  set (parts := split (strip line)) in *.
  destruct (Nat.leb_spec 5 (length parts)) as [_|]; [|lia].
  assert (length (drop 1 parts) = length parts - 1) as Hv by apply length_drop.
  rewrite Hv, Hmod. simpl (0 =? 0).  cbv iota.
  rewrite range_by_four by done.
  eexists. split.
  { apply (foldl_appends al (fun i => str tid :: take 4 (drop i (drop 1 parts)))), Hal. }
  rewrite <- list_fmap_compose. split.
  { by rewrite length_fmap, length_seq. }
  intros k Hk.
  assert (4 * k + 4 <= length (drop 1 parts)) as Hin.
  { rewrite Hv. pose proof (Nat.div_mod_eq (length parts - 1) 4). lia. }
  destruct (take_four (drop 1 parts) (4 * k) Hin) as (a & b & c & d & Ht & Ha & Hb & Hc & Hd).
  exists a, b, c, d.
  rewrite !lookup_drop in *.
  replace (4 * k + 1) with (1 + 4 * k) by lia.
  replace (4 * k + 2) with (1 + (4 * k + 1)) by lia.
  replace (4 * k + 3) with (1 + (4 * k + 2)) by lia.
  replace (4 * k + 4) with (1 + (4 * k + 3)) by lia.
  repeat (split; [done|]).
  rewrite list_lookup_fmap, lookup_seq_lt by done.
  change (0 + k) with k. unfold compose, fmap, option_fmap, option_map.
  by rewrite Ht.
Qed.

(** C2. A line of at least five tokens whose value tokens come in fours is
    emitted, by either script, as exactly (tokens-1)/4 lines; line k is
    the target id followed by value tokens 4k+1 .. 4k+4 of the line, in
    order and as written; nine tokens give two lines. *)
Theorem chunked_line_emits_one_line_per_box
    (tid : Z) (st : remap_state) (line : string)
    (Hlen : 5 <= length (split (strip line)))
    (Hmod : (length (split (strip line)) - 1) mod 4 = 0) :
  emits_chunks tid (split (strip line)) st
    (remap_line (Merge1.append_line tid) tid st line) /\
  emits_chunks tid (split (strip line)) st
    (remap_line (Merge2.append_line tid) tid st line) /\
  (length (split (strip line)) = 9 ->
   length (emitted st (remap_line (Merge1.append_line tid) tid st line)) = 2 /\
   length (emitted st (remap_line (Merge2.append_line tid) tid st line)) = 2).
Proof.
  pose proof (remap_line_chunks _ tid st line (appends_merge1 tid) Hlen Hmod) as H1.
  pose proof (remap_line_chunks _ tid st line (appends_merge2 tid) Hlen Hmod) as H2.
  split; [done|]. split; [done|]. intros H9.
  destruct H1 as (n1 & E1 & L1 & _), H2 as (n2 & E2 & L2 & _).
  unfold emitted. rewrite E1, E2, !drop_app_length, L1, L2, H9. done.
Qed.

Lemma chunked_line_witness :
  5 <= length (split (strip "0 .1 .2 .3 .4 .5 .6 .7 .8")) /\
  (length (split (strip "0 .1 .2 .3 .4 .5 .6 .7 .8")) - 1) mod 4 = 0 /\
  emits_chunks 2 (split (strip "0 .1 .2 .3 .4 .5 .6 .7 .8"))
    (RemapState [] ∅ 0)
    (remap_line (Merge1.append_line 2) 2 (RemapState [] ∅ 0)
       "0 .1 .2 .3 .4 .5 .6 .7 .8") /\
  out_lines (remap_line (Merge2.append_line 2) 2 (RemapState [] ∅ 0)
               "0 .1 .2 .3 .4 .5 .6 .7 .8")
  = ["2 .1 .2 .3 .4"; "2 .5 .6 .7 .8"].
Proof.
  assert (5 <= length (split (strip "0 .1 .2 .3 .4 .5 .6 .7 .8"))) as Hlen
    by (vm_compute; lia).
  assert ((length (split (strip "0 .1 .2 .3 .4 .5 .6 .7 .8")) - 1) mod 4 = 0)
    as Hmod by reflexivity.
  split; [exact Hlen|]. split; [exact Hmod|]. split; [|reflexivity].
  exact (proj1 (chunked_line_emits_one_line_per_box 2 (RemapState [] ∅ 0)
                  "0 .1 .2 .3 .4 .5 .6 .7 .8" Hlen Hmod)).
Defined.

Lemma remap_line_fallback al tid st line :
  5 <= length (split (strip line)) ->
  (length (split (strip line)) - 1) mod 4 <> 0 ->
  remap_line al tid st line = al (<[0 := str tid]> (split (strip line))) st.
Proof.
  intros Hlen Hmod. unfold remap_line.
  rewrite split_strip_nonempty by (intros E; rewrite E in Hlen; simpl in Hlen; lia).
  set (parts := split (strip line)) in *.
  destruct (Nat.leb_spec 5 (length parts)) as [_|]; [|lia].
  rewrite length_drop.
  destruct (Nat.eqb_spec ((length parts - 1) mod 4) 0); [done | reflexivity].
Qed.

(** C3. A line of at least five tokens whose value tokens do not come in
    fours is emitted, by either script, as exactly one line: the tokens of
    the line joined by single spaces, the first replaced by the target
    id, every later token as it was. *)
Theorem ragged_line_emits_one_line
    (tid : Z) (st : remap_state) (line : string)
    (Hlen : 5 <= length (split (strip line)))
    (Hmod : (length (split (strip line)) - 1) mod 4 <> 0) :
  let parts := split (strip line) in
  let tokens := <[0 := str tid]> parts in
  emitted st (remap_line (Merge1.append_line tid) tid st line) = [join " " tokens] /\
  emitted st (remap_line (Merge2.append_line tid) tid st line) = [join " " tokens] /\
  tokens = str tid :: drop 1 parts /\
  length tokens = length parts /\
  forall i, 1 <= i -> tokens !! i = parts !! i.
Proof.
  intros parts tokens. unfold emitted.
  rewrite !remap_line_fallback by done.
  rewrite appends_merge1, appends_merge2, drop_app_length.
  split; [done|]. split; [done|]. split.
  { apply set_first. intros E. subst parts. rewrite E in Hlen. simpl in Hlen. lia. }
  split; [apply length_insert|].
  intros i Hi. apply list_lookup_insert_ne. lia.
Qed.

Lemma ragged_line_witness :
  5 <= length (split (strip "7 a b c d e")) /\
  (length (split (strip "7 a b c d e")) - 1) mod 4 <> 0 /\
  emitted (RemapState [] ∅ 0)
    (remap_line (Merge1.append_line 1) 1 (RemapState [] ∅ 0) "7 a b c d e")
  = ["1 a b c d e"].
Proof.
  assert (5 <= length (split (strip "7 a b c d e"))) as Hlen by (vm_compute; lia).
  assert ((length (split (strip "7 a b c d e")) - 1) mod 4 <> 0) as Hmod
    by (vm_compute; lia).
  split; [exact Hlen|]. split; [exact Hmod|].
  exact (proj1 (ragged_line_emits_one_line 1 (RemapState [] ∅ 0)
                  "7 a b c d e" Hlen Hmod)).
Defined.

(** ** [int(str(n)) = n] *)

Lemma digits_of_uint d : all_chars is_digit (NilEmpty.string_of_uint d) = true.
Proof. induction d; simpl; auto. Qed.

Lemma int_digits_of_uint d acc :
  int_digits acc (NilEmpty.string_of_uint d) = Some (uint_value acc d).
Proof. revert acc. induction d; intros acc; simpl; auto. Qed.

Lemma uint_value_acc d (p : positive) :
  uint_value (Z.pos p) d = Z.pos (Pos.of_uint_acc d p).
Proof.
  revert p. induction d; intros p; simpl; auto;
    rewrite <- IHd; f_equal; lia.
Qed.

Lemma uint_value_of_uint d : uint_value 0 d = Z.of_uint d.
Proof.
  unfold Z.of_uint. induction d; cbn [uint_value Pos.of_uint]; auto;
    change (0 * 10 + ?k)%Z with k; rewrite ?uint_value_acc; try reflexivity.

Qed.

Lemma lstrip_no_space s : all_chars (fun c => negb (isspace c)) s = true -> lstrip s = s.
Proof. destruct s as [|c s]; simpl; [done|]. by destruct (isspace c). Qed.

Lemma rstrip_no_space s : all_chars (fun c => negb (isspace c)) s = true -> rstrip s = s.
Proof.
  induction s as [|c s IH]; simpl; [done|].
  destruct (isspace c); simpl; [done|]. intros H. rewrite IH by done.
  by rewrite andb_false_r.
Qed.

Lemma strip_no_space s : all_chars (fun c => negb (isspace c)) s = true -> strip s = s.
Proof. intros H. unfold strip. by rewrite lstrip_no_space, rstrip_no_space. Qed.

Lemma all_chars_impl (P Q : ascii -> bool) s :
  (forall c, P c = true -> Q c = true) -> all_chars P s = true -> all_chars Q s = true.
Proof.
  intros HPQ. induction s as [|c s IH]; simpl; [done|].
  intros [Hc Hs]%andb_prop. rewrite (HPQ _ Hc), IH; done.
Qed.

Lemma digit_not_space c : is_digit c = true -> negb (isspace c) = true.
Proof.
  unfold is_digit, isspace, between. generalize (code c). intros n H.
  apply andb_prop in H as [H1 H2]. apply Nat.leb_le in H1, H2.
  repeat match goal with
         | |- context [?a <=? ?b] => destruct (Nat.leb_spec a b); try lia
         | |- context [?a =? ?b] => destruct (Nat.eqb_spec a b); try lia
         end; reflexivity.
Qed.

Lemma int_unsigned_of_uint d :
  d <> Decimal.Nil ->
  int_unsigned (NilEmpty.string_of_uint d) = Some (Z.of_uint d).
Proof.
  intros Hd. unfold int_unsigned.
  pose proof (int_digits_of_uint d 0) as Hv. rewrite uint_value_of_uint in Hv.
  destruct d; try done; simpl in *; exact Hv.
Qed.

Lemma int_str n : int (str n) = Some n.
Proof.
  unfold str, int. destruct n as [|p|p]; [reflexivity| |]; cbn [Z.to_int NilZero.string_of_int].
  - pose proof (DecimalPos.Unsigned.to_uint_nonnil p) as Hnn.
    assert (NilZero.string_of_uint (Pos.to_uint p) = NilEmpty.string_of_uint (Pos.to_uint p)) as E
      by (unfold NilZero.string_of_uint; by destruct (Pos.to_uint p)).
    rewrite E.
    rewrite strip_no_space
      by (eapply all_chars_impl; [apply digit_not_space | apply digits_of_uint]).
    pose proof (digits_of_uint (Pos.to_uint p)) as Hdig.
    pose proof (int_unsigned_of_uint _ Hnn) as Hu.
    destruct (NilEmpty.string_of_uint (Pos.to_uint p)) as [|c r] eqn:Es.
    { by destruct (Pos.to_uint p). }
    simpl in Hdig. apply andb_prop in Hdig as [Hc _].
    assert ((code c =? 43) = false) as ->.
    { unfold is_digit, between in Hc. apply andb_prop in Hc as [H1 H2].
      apply Nat.leb_le in H1. apply Nat.eqb_neq. lia. }
    assert ((code c =? 45) = false) as ->.
    { unfold is_digit, between in Hc. apply andb_prop in Hc as [H1 H2].
      apply Nat.leb_le in H1. apply Nat.eqb_neq. lia. }
    rewrite Hu. unfold Z.of_uint. by rewrite DecimalPos.Unsigned.of_to.
  - pose proof (DecimalPos.Unsigned.to_uint_nonnil p) as Hnn.
    assert (NilZero.string_of_uint (Pos.to_uint p) = NilEmpty.string_of_uint (Pos.to_uint p)) as E
      by (unfold NilZero.string_of_uint; by destruct (Pos.to_uint p)).
    rewrite E.
    assert (strip (String "-" (NilEmpty.string_of_uint (Pos.to_uint p)))
            = String "-" (NilEmpty.string_of_uint (Pos.to_uint p))) as ->.
    { apply strip_no_space. simpl.
      eapply all_chars_impl; [apply digit_not_space | apply digits_of_uint]. }
    change (code "-" =? 43) with false. change (code "-" =? 45) with true. cbv iota.
    rewrite (int_unsigned_of_uint _ Hnn). unfold Z.of_uint.
    by rewrite DecimalPos.Unsigned.of_to.
Qed.

(** ** Both scripts tally under the target id *)

Lemma remap_line_ext al1 al2 tid :
  (forall rest st, al1 (str tid :: rest) st = al2 (str tid :: rest) st) ->
  forall st line, remap_line al1 tid st line = remap_line al2 tid st line.
Proof.
  intros Hext st line. unfold remap_line.
  destruct (is_empty (strip line)); [done|].
  set (parts := split (strip line)).
  destruct (5 <=? length parts) eqn:E5.
  - destruct (length (drop 1 parts) mod 4 =? 0).
    + generalize (range 0 (length (drop 1 parts)) 4). intros l. revert st.
      induction l as [|i l IH]; intros st; simpl; [done|]. by rewrite Hext, IH.
    + apply Nat.leb_le in E5. rewrite set_first by (intros E; rewrite E in E5; simpl in E5; lia). apply Hext.
  - destruct parts as [|p ps]; [done|]. simpl. apply Hext.
Qed.

(** Every call of [append_line] made for a line has [str(target_id)] as
    its first token. *)
Lemma remap_line_ind al tid (R : remap_state -> remap_state -> Prop) :
  (forall st, R st st) ->
  (forall st st' rest, R st st' -> R st (al (str tid :: rest) st')) ->
  forall st line, R st (remap_line al tid st line).
Proof.
  intros Hrefl Hstep st line. unfold remap_line.
  destruct (is_empty (strip line)); [done|].
  set (parts := split (strip line)).
  destruct (5 <=? length parts) eqn:E5.
  - destruct (length (drop 1 parts) mod 4 =? 0).
    + generalize (range 0 (length (drop 1 parts)) 4). intros l.
      assert (R st st) as H0 by done. revert H0. generalize st at 2 4 as st'.
      induction l as [|i l IH]; intros st' H0; simpl; [done|].
      apply IH, Hstep, H0.
    + apply Nat.leb_le in E5. rewrite set_first by (intros E; rewrite E in E5; simpl in E5; lia).
      by apply Hstep.
  - destruct parts as [|p ps]; [done|]. simpl. by apply Hstep.
Qed.

Lemma remap_lines_ind al tid (R : remap_state -> remap_state -> Prop) :
  (forall st, R st st) ->
  (forall st st' rest, R st st' -> R st (al (str tid :: rest) st')) ->
  forall st lines, R st (remap_lines al tid st lines).
Proof.
  intros Hrefl Hstep st lines. unfold remap_lines.
  assert (R st st) as H0 by done. revert H0. generalize st at 2 4 as st'.
  induction lines as [|l lines IH]; intros st' H0; simpl; [done|].
  apply IH.
  apply (remap_line_ind al tid (fun a b => R st a -> R st b)); auto.
Qed.

Lemma merge1_append_is_merge2 tid rest st :
  Merge1.append_line tid (str tid :: rest) st
  = Merge2.append_line tid (str tid :: rest) st.
Proof. unfold Merge1.append_line, Merge2.append_line. simpl. by rewrite int_str. Qed.

(** C4, as the code has it. In both scripts every emitted line, on the
    chunked, the ragged and the short path alike, adds one to the tally
    under the target id and to no other key. The per-dataset-mapping
    script reads the key back from the first token of the line it is
    about to emit; that token is always [str(target_id)], so the two
    scripts compute the same state and the class id of the source line
    is never a tally key. *)
Theorem tally_is_keyed_by_target_id (tid : Z) (st : remap_state) (line : string) :
  remap_line (Merge1.append_line tid) tid st line
  = remap_line (Merge2.append_line tid) tid st line /\
  exists n,
    class_counts (remap_line (Merge1.append_line tid) tid st line)
    = Nat.iter n (incr tid) (class_counts st) /\
    length (out_lines (remap_line (Merge1.append_line tid) tid st line))
    = length (out_lines st) + n /\
    bbox_written (remap_line (Merge1.append_line tid) tid st line)
    = bbox_written st + n.
Proof.
  split; [apply remap_line_ext, merge1_append_is_merge2|].
  apply (remap_line_ind (Merge1.append_line tid) tid
           (fun a b => exists n,
                class_counts b = Nat.iter n (incr tid) (class_counts a) /\
                length (out_lines b) = length (out_lines a) + n /\
                bbox_written b = bbox_written a + n)).
  - intros a. exists 0. simpl. repeat split; try done; lia.
  - intros a b rest (n & Hc & Hl & Hb). exists (S n).
    rewrite merge1_append_is_merge2. simpl.
    rewrite Hc, length_app, Hl, Hb. simpl. repeat split; try done; lia.
Qed.

(** C4 as stated fails: on the ragged line [7 a b c d e] with target id 0
    the per-dataset-mapping script takes the fallback path, the source
    class token parses to 7, and yet the tally gets its increment under
    0, exactly as in the other script. *)
Lemma ragged_line_tally_counterexample :
  let line := "7 a b c d e" in
  let st0 := RemapState [] ∅ 0 in
  let st1 := remap_line (Merge1.append_line 0) 0 st0 line in
  (5 <=? length (split (strip line))) = true /\
  (length (split (strip line)) - 1) mod 4 = 1 /\
  (split (strip line) !! 0) ≫= int = Some 7%Z /\
  class_counts st1 !! 7%Z = None /\
  class_counts st1 !! 0%Z = Some 1 /\
  class_counts st1 <> incr 7 ∅ /\
  st1 = remap_line (Merge2.append_line 0) 0 st0 line.
Proof.
  cbv zeta. repeat split; try reflexivity.
  intros E. apply (f_equal (fun m => m !! 7%Z)) in E. vm_compute in E. discriminate.
Qed.

(** ** One label file *)

Lemma remap_lines_ext al1 al2 tid :
  (forall rest st, al1 (str tid :: rest) st = al2 (str tid :: rest) st) ->
  forall st lines, remap_lines al1 tid st lines = remap_lines al2 tid st lines.
Proof.
  intros Hext st lines. unfold remap_lines. revert st.
  induction lines as [|l lines IH]; intros st; simpl; [done|].
  by rewrite (remap_line_ext al1 al2 tid Hext), IH.
Qed.

Lemma remap_lines_blank al tid st lines :
  Forall (fun l => strip l = EmptyString) lines -> remap_lines al tid st lines = st.
Proof.
  unfold remap_lines. induction 1 as [|l lines Hl _ IH]; simpl; [done|].
  unfold remap_line at 2. by rewrite Hl.
Qed.

Lemma remap_lines_written tid st lines :
  bbox_written (remap_lines (Merge2.append_line tid) tid st lines)
    + length (out_lines st)
  = bbox_written st
    + length (out_lines (remap_lines (Merge2.append_line tid) tid st lines)).
Proof.
  apply (remap_lines_ind (Merge2.append_line tid) tid
           (fun a b => bbox_written b + length (out_lines a)
                       = bbox_written a + length (out_lines b))).
  - done.
  - intros a b rest H. simpl. rewrite length_app. simpl. lia.
Qed.

Lemma parent_child (p : path) (x : string) : parent (p ++ [x]) = p.
Proof. apply removelast_last. Qed.

Lemma self_in_ancestors (p : path) : p ∈ ancestors_and_self p.
Proof.
  unfold ancestors_and_self. apply list_elem_of_fmap. exists (length p).
  split; [by rewrite firstn_all | apply elem_of_seq; lia].
Qed.

Lemma mkdir_p_present p fs :
  Forall (fun q => fs !! q = Some Dir) (ancestors_and_self p) ->
  Os.mkdir_p p fs = Ok (tt, fs).
Proof.
  intros Hall. unfold Os.mkdir_p.
  assert (fs !! p = Some Dir) as Hp.
  { rewrite Forall_forall in Hall. apply Hall, self_in_ancestors. }
  rewrite Hp. change (is_file_node (Some Dir)) with false. cbv iota.
  assert (existsb (fun q => is_file_node (fs !! q)) (ancestors_and_self p) = false) as ->.
  { induction Hall as [|q l Hq _ IH]; simpl; [done|]. by rewrite Hq. }
  f_equal. f_equal.
  induction Hall as [|q l Hq _ IH]; simpl; [done|].
  rewrite IH. by apply insert_id.
Qed.

Lemma append_newline_nonempty s : s +:+ newline <> EmptyString.
Proof. by destruct s. Qed.

(** C7. A label file is rewritten, by either script, to the emitted lines
    joined by newlines, followed by one more newline exactly when a line
    was emitted; the preview computes the same counts and writes nothing.
    When every line of the file is blank (an empty file has none) no line
    is emitted, the written text is empty, and the tally and the box
    counter are as before. *)
Theorem label_file_is_rewritten
    (tid : Z) (counts : gmap Z nat) (copied written : nat)
    (out_labels : path) (prefix : string) (lab : path) (text : string)
    (fs : gmap path node)
    (Hlab : fs !! lab = Some (File (Text text)))
    (Hout : Forall (fun q => fs !! q = Some Dir) (ancestors_and_self out_labels))
    (Hdest : fs !! (out_labels ++ [prefix +:+ "_" +:+ name lab]) <> Some Dir) :
  let dest := out_labels ++ [prefix +:+ "_" +:+ name lab] in
  let st := remap_lines (Merge2.append_line tid) tid
              (RemapState [] counts written) (splitlines text) in
  let lines := out_lines st in
  let body := join newline lines +:+ (if bool_decide (lines = []) then EmptyString else newline) in
  let r := (class_counts st, S copied, bbox_written st) in
  Merge1.remap_label out_labels prefix tid false (counts, copied, written) lab fs
    = Ok (r, <[dest := File (Text body)]> fs) /\
  Merge2.remap_label out_labels prefix tid false (counts, copied, written) lab fs
    = Ok (r, <[dest := File (Text body)]> fs) /\
  Merge1.remap_label out_labels prefix tid true (counts, copied, written) lab fs
    = Ok (r, fs) /\
  Merge2.remap_label out_labels prefix tid true (counts, copied, written) lab fs
    = Ok (r, fs) /\
  bbox_written st = written + length lines /\
  (body = EmptyString <-> lines = []) /\
  (Forall (fun l => strip l = EmptyString) (splitlines text) ->
   lines = [] /\ body = EmptyString /\ class_counts st = counts /\ bbox_written st = written).
Proof.
  intros dest st lines body r.
  assert (body = output_text lines) as Hbody.
  { unfold body, output_text. by destruct lines. }
  assert (Os.write_text dest body fs = Ok (tt, <[dest := File (Text body)]> fs)) as Hw.
  { assert (fs !! parent dest = Some Dir) as Hpar.
    { unfold dest. rewrite parent_child.
      rewrite Forall_forall in Hout. apply Hout, self_in_ancestors. }
    fold dest in Hdest. clearbody dest.
    unfold Os.write_text, Os.write_file. rewrite Hpar.
    destruct (fs !! dest) as [[c|]|]; done. }
  assert (remap_lines (Merge1.append_line tid) tid
            (RemapState [] counts written) (splitlines text) = st) as H1.
  { apply remap_lines_ext, merge1_append_is_merge2. }
  repeat split.
  - unfold Merge1.remap_label, bind, Os.is_file, when, Merge1.make_dirs, Os.read_text, ret.
    rewrite Hlab. cbn [is_file_node negb]. rewrite parent_child.
    rewrite (mkdir_p_present _ _ Hout), Hlab, H1. fold dest lines.
    rewrite <- Hbody, Hw. done.
  - unfold Merge2.remap_label, bind, when, Merge2.make_dirs, Os.read_text, ret.
    cbn [negb]. rewrite parent_child.
    rewrite (mkdir_p_present _ _ Hout), Hlab. fold st dest lines.
    rewrite <- Hbody, Hw. done.
  - unfold Merge1.remap_label, bind, Os.is_file, when, Os.read_text, ret.
    rewrite Hlab. cbn [is_file_node negb]. rewrite Hlab, H1. done.
  - unfold Merge2.remap_label, bind, when, Os.read_text, ret.
    cbn [negb]. rewrite Hlab. done.
  - pose proof (remap_lines_written tid (RemapState [] counts written) (splitlines text)) as H.
    simpl in H. fold st in H. fold lines in H. lia.
  - unfold body. intros E. destruct lines as [|l ls]; [done|].
    rewrite bool_decide_false in E by done. by apply append_newline_nonempty in E.
  - intros ->. unfold body. reflexivity.
  - subst lines st. by rewrite remap_lines_blank.
  - subst body lines st. by rewrite remap_lines_blank.
  - subst st. by rewrite remap_lines_blank.
  - subst st. by rewrite remap_lines_blank.
Qed.

Lemma label_file_witness :
  let fs := Samples.tree_with_out in
  let lab := Samples.cards ++ ["train"; "labels"; "blank.txt"] in
  let out_labels := ["data"; "out"; "train"; "labels"] in
  fs !! lab = Some (File (Text (" " +:+ newline +:+ newline))) /\
  Forall (fun q => fs !! q = Some Dir) (ancestors_and_self out_labels) /\
  fs !! (out_labels ++ ["p" +:+ "_" +:+ name lab]) <> Some Dir /\
  Forall (fun l => strip l = EmptyString) (splitlines (" " +:+ newline +:+ newline)) /\
  Merge1.remap_label out_labels "p" 1 false (∅, 0, 0) lab fs
  = Ok ((∅, 1, 0), <[out_labels ++ ["p_blank.txt"] := File (Text EmptyString)]> fs).
Proof.
  intros fs lab out_labels.
  assert (fs !! lab = Some (File (Text (" " +:+ newline +:+ newline)))) as Hlab
    by (vm_compute; reflexivity).
  assert (Forall (fun q => fs !! q = Some Dir) (ancestors_and_self out_labels)) as Hout
    by compute_done.
  assert (fs !! (out_labels ++ ["p" +:+ "_" +:+ name lab]) <> Some Dir) as Hdest
    by compute_done.
  assert (Forall (fun l => strip l = EmptyString) (splitlines (" " +:+ newline +:+ newline)))
    as Hblank by compute_done.
  split; [exact Hlab|]. split; [exact Hout|]. split; [exact Hdest|].
  split; [exact Hblank|].
  pose proof (label_file_is_rewritten 1 ∅ 0 0 out_labels "p" lab
                (" " +:+ newline +:+ newline) fs Hlab Hout Hdest)
    as (H1 & _ & _ & _ & _ & _ & Hb).
  destruct (Hb Hblank) as (Hl & Hbody & Hc & Hw).
  rewrite Hbody, Hc, Hw in H1. exact H1.
Defined.

(** ** Running monadic code *)

Lemma bind_Ok_inv {A B} (m : M A) (k : A -> M B) fs r :
  bind m k fs = Ok r -> exists a fs1, m fs = Ok (a, fs1) /\ k a fs1 = Ok r.
Proof. unfold bind. destruct (m fs) as [[a fs1]|e]; [eauto | done]. Qed.

Lemma bind_Ok {A B} (m : M A) (k : A -> M B) fs a fs1 :
  m fs = Ok (a, fs1) -> bind m k fs = k a fs1.
Proof. unfold bind. by intros ->. Qed.

Lemma returned_Some {A} (r : result (A * gmap path node)) a :
  returned r = Some a -> exists fs, r = Ok (a, fs).
Proof. destruct r as [[b fs]|e]; [intros [= ->]; by eexists | done]. Qed.

(** ** Enumeration of image files *)

Lemma elem_of_walk fs d p :
  p ∈ walk fs d <->
  fs !! d = Some Dir /\ strictly_below d p /\ is_Some (fs !! p).
Proof.
  unfold walk. destruct (fs !! d) as [[c|]|] eqn:Ed; simpl.
  - split; [by intros ?%elem_of_nil | by intros [? _]].
  - rewrite list_elem_of_fmap. split.
    + intros ([q n] & -> & Hq). apply elem_of_map_to_list in Hq.
      apply map_lookup_filter_Some in Hq as [Hq Hb]. simpl in *. eauto.
    + intros (_ & Hb & [n Hn]). exists (p, n). split; [done|].
      apply elem_of_map_to_list, map_lookup_filter_Some. done.
  - split; [by intros ?%elem_of_nil | by intros [? _]].
Qed.

Lemma NoDup_walk fs d : NoDup (walk fs d).
Proof.
  unfold walk. destruct (is_dir_node (fs !! d)); [|constructor].
  apply NoDup_fst_map_to_list.
Qed.

Lemma NoDup_bool_filter {A} (f : A -> bool) (l : list A) :
  NoDup l -> NoDup (List.filter f l).
Proof.
  induction 1 as [|x l Hx Hl IH]; simpl; [constructor|].
  destruct (f x); [|done]. constructor; [|done].
  rewrite list_elem_of_In, filter_In, <- list_elem_of_In. tauto.
Qed.

Lemma merge2_copy_images_count out_images prefix dry_run imgs n fs r fs' :
  foldM (Merge2.copy_image out_images prefix dry_run) n imgs fs = Ok (r, fs') ->
  r = n + length imgs.
Proof.
  revert n fs. induction imgs as [|img imgs IH]; intros n fs H; simpl in *.
  - unfold ret in H. injection H as <- _. lia.
  - apply bind_Ok_inv in H as (a & fs1 & Hstep & Hrest).
    unfold Merge2.copy_image in Hstep.
    apply bind_Ok_inv in Hstep as (u & fs2 & _ & Hret).
    unfold ret in Hret. injection Hret as <- _.
    apply IH in Hrest. lia.
Qed.

Lemma merge1_copy_images_preview out_images prefix imgs n fs :
  foldM (Merge1.copy_image out_images prefix true) n imgs fs
  = Ok (n + length (List.filter (fun p => is_file_node (fs !! p)) imgs), fs).
Proof.
  revert n. induction imgs as [|img imgs IH]; intros n; simpl.
  - unfold ret. do 2 f_equal. lia.
  - unfold bind at 1. unfold Merge1.copy_image at 1, bind, Os.is_file, when, ret.
    destruct (is_file_node (fs !! img)); simpl; rewrite IH; do 2 f_equal; lia.
Qed.

Lemma find_in_aliases_reads ds aliases fs :
  exists dirs, Merge2.find_in_aliases ds aliases fs = Ok (dirs, fs).
Proof.
  induction aliases as [|alias rest IH]; simpl; [by eexists|].
  unfold bind, Os.exists_, Os.is_dir, ret.
  match goal with |- context [if ?c then _ else _] => destruct c end; [by eexists | done].
Qed.

(** C8, as the code has it. The forced-id script enumerates, below the
    image directory of a split, exactly the regular files whose suffix,
    lower-cased, is one of the seven recognized extensions, each once, and
    counts one copied image per enumerated file; a file with another
    suffix is never enumerated. The per-dataset-mapping script has no
    extension filter: its preview counts every regular file below the
    image directory. *)
Theorem image_enumeration
    (fs : gmap path node) (ds out_images out_labels : path) (prefix : string)
    (tid : Z) (counts : gmap Z nat) :
  (forall d imgs fs', Merge2.iter_images d fs = Ok (imgs, fs') ->
     fs' = fs /\ NoDup imgs /\
     forall p, p ∈ imgs <->
       fs !! d = Some Dir /\ strictly_below d p /\
       is_file_node (fs !! p) = true /\ lower (suffix p) ∈ Merge2.IMG_EXTS) /\
  (forall k dry_run ci cl bx counts' fs',
     Merge2.process_split ds k out_images out_labels prefix tid counts dry_run fs
       = Ok ((ci, cl, bx, counts'), fs') ->
     exists dirs,
       Merge2.find_split_dirs ds k fs = Ok (dirs, fs) /\
       ci = match dirs.1 with
            | Some d =>
                length (List.filter
                          (fun p => is_file_node (fs !! p) && Merge2.has_image_ext p)
                          (walk fs d))
            | None => 0
            end) /\
  (forall split ci cl bx counts' fs',
     Merge1.process_split ds split out_images out_labels prefix tid counts true fs
       = Ok ((ci, cl, bx, counts'), fs') ->
     ci = length (List.filter (fun p => is_file_node (fs !! p))
                    (walk fs (ds ++ [split; "images"])))).
Proof.
  split; [|split].
  - intros d imgs fs' H. unfold Merge2.iter_images in H. injection H as <- <-.
    split; [done|]. split; [apply NoDup_bool_filter, NoDup_walk|].
    intros p. rewrite list_elem_of_In, filter_In, <- list_elem_of_In, elem_of_walk.
    unfold Merge2.has_image_ext. rewrite andb_true_iff, bool_decide_eq_true.
    split.
    + intros ((Hd & Hb & _) & Hf & He). done.
    + intros (Hd & Hb & Hf & He). split; [|done]. split; [done|]. split; [done|].
      destruct (fs !! p) as [[c|]|]; by eauto.
  - intros k dry_run ci cl bx counts' fs' H.
    unfold Merge2.process_split in H.
    apply bind_Ok_inv in H as (dirs & fs1 & Hfind & H).
    destruct (find_in_aliases_reads ds (Merge2.SPLIT_ALIASES k) fs) as [dirs' Hd].
    unfold Merge2.find_split_dirs in *. rewrite Hd in Hfind. injection Hfind as -> <-.
    exists dirs. split; [done|].
    destruct dirs.1 as [images_dir|].
    + apply bind_Ok_inv in H as (imgs & fs2 & Himgs & H).
      unfold Merge2.iter_images in Himgs. injection Himgs as <- <-.
      apply bind_Ok_inv in H as (n & fs3 & Hcopy & H).
      apply merge2_copy_images_count in Hcopy. simpl in Hcopy.
      destruct dirs.2 as [labels_dir|].
      * apply bind_Ok_inv in H as (lbls & fs4 & _ & H).
        apply bind_Ok_inv in H as ([[c1 c2] c3] & fs5 & _ & H).
        unfold ret in H. by injection H as <- _ _ _ _.
      * unfold ret in H. by injection H as <- _ _ _ _.
    + unfold ret in H. by injection H as <- _ _ _ _.
  - intros split ci cl bx counts' fs' H.
    unfold Merge1.process_split in H.
    apply bind_Ok_inv in H as (ie & fs1 & Hie & H).
    unfold Os.exists_ in Hie. injection Hie as <- <-.
    apply bind_Ok_inv in H as (image_files & fs2 & Hims & H).
    apply bind_Ok_inv in H as (le & fs3 & Hle & H).
    unfold Os.exists_ in Hle. injection Hle as <- <-.
    apply bind_Ok_inv in H as (label_files & fs4 & Hlbs & H).
    apply bind_Ok_inv in H as (n & fs5 & Hcopy & H).
    apply bind_Ok_inv in H as ([[c1 c2] c3] & fs6 & _ & H).
    unfold ret in H. injection H as <- _ _ _ _.
    assert (fs2 = fs /\ image_files = walk fs (ds ++ [split; "images"])) as [-> ->].
    { match type of Hims with
      | (if ?c then _ else _) _ = _ => destruct c eqn:Hex
      end.
      - unfold Os.glob_all in Hims. by injection Hims as <- <-.
      - unfold ret in Hims. injection Hims as <- <-. split; [done|].
        apply bool_decide_eq_false in Hex.
        unfold walk.
        match goal with |- context [is_dir_node ?x] => destruct x eqn:E end; [|done].
        destruct Hex. by eexists. }
    assert (fs4 = fs) as ->.
    { match type of Hlbs with
      | (if ?c then _ else _) _ = _ => destruct c
      end; [unfold Os.glob_txt in Hlbs | unfold ret in Hlbs];
        by injection Hlbs as _ <-. }
    rewrite merge1_copy_images_preview in Hcopy. by injection Hcopy as <- _.
Qed.

Lemma image_enumeration_witness :
  exists dirs ci cl bx counts' fs',
    Merge2.process_split Samples.cards Merge2.Train
      ["data"; "out"; "train"; "images"] ["data"; "out"; "train"; "labels"]
      "p" 1 ∅ true Samples.tree = Ok ((ci, cl, bx, counts'), fs') /\
    Merge2.find_split_dirs Samples.cards Merge2.Train Samples.tree
      = Ok (dirs, Samples.tree) /\
    ci = match dirs.1 with
         | Some d =>
             length (List.filter
                       (fun p => is_file_node (Samples.tree !! p) && Merge2.has_image_ext p)
                       (walk Samples.tree d))
         | None => 0
         end /\
    ci = 1.
Proof.
  destruct (Merge2.process_split Samples.cards Merge2.Train
              ["data"; "out"; "train"; "images"] ["data"; "out"; "train"; "labels"]
              "p" 1 ∅ true Samples.tree) as [[[[[ci cl] bx] counts'] fs']|e] eqn:Hrun.
  - destruct (proj1 (proj2 (image_enumeration Samples.tree Samples.cards
                              ["data"; "out"; "train"; "images"]
                              ["data"; "out"; "train"; "labels"] "p" 1 ∅))
                _ _ _ _ _ _ _ Hrun) as (dirs & Hfind & Hci).
    exists dirs, ci, cl, bx, counts', fs'.
    split; [reflexivity|]. split; [exact Hfind|]. split; [exact Hci|].
    assert ((fun r => r.1.1.1) <$>
              returned (Merge2.process_split Samples.cards Merge2.Train
                          ["data"; "out"; "train"; "images"]
                          ["data"; "out"; "train"; "labels"]
                          "p" 1 ∅ true Samples.tree) = Some 1) as Hone
      by (vm_compute; reflexivity).
    rewrite Hrun in Hone. simpl in Hone. congruence.
  - assert (returned (Merge2.process_split Samples.cards Merge2.Train
                        ["data"; "out"; "train"; "images"]
                        ["data"; "out"; "train"; "labels"]
                        "p" 1 ∅ true Samples.tree) <> None) as Hok
      by (vm_compute; discriminate).
    rewrite Hrun in Hok. by destruct Hok.
Defined.

(** C8 as stated fails in the per-dataset-mapping script: [notes.md]
    lies under the image directory, has no recognized extension, and is
    counted as a copied image all the same. *)
Lemma unfiltered_images_counterexample :
  let images := Samples.cards ++ ["train"; "images"] in
  let notes := images ++ ["notes.md"] in
  bool_decide (notes ∈ walk Samples.tree images) = true /\
  Merge2.has_image_ext notes = false /\
  length (List.filter Merge2.has_image_ext (walk Samples.tree images)) = 1 /\
  (fun r => r.1.1.1) <$>
    returned (Merge1.process_split Samples.cards "train"
                ["data"; "out"; "train"; "images"] ["data"; "out"; "train"; "labels"]
                "p" 0 ∅ true Samples.tree) = Some 2 /\
  (fun r => r.1.1.1) <$>
    returned (Merge2.process_split Samples.cards Merge2.Train
                ["data"; "out"; "train"; "images"] ["data"; "out"; "train"; "labels"]
                "p" 1 ∅ true Samples.tree) = Some 1.
Proof. cbv zeta. repeat split; vm_compute; reflexivity. Qed.

(** ** Dataset resolution *)

Lemma find_in_aliases_spec ds aliases fs :
  exists dirs,
    Merge2.find_in_aliases ds aliases fs = Ok (dirs, fs) /\
    (match dirs.1 with Some _ => true | None => false end
     = existsb (fun alias => is_dir_node (fs !! (ds ++ [alias; "images"]))) aliases).
Proof.
  induction aliases as [|alias rest IH]; simpl; [by eexists|].
  unfold bind, Os.exists_, Os.is_dir, ret.
  destruct (fs !! (ds ++ [alias; "images"])) as [[c|]|] eqn:E; simpl.
  - exact IH.
  - by eexists.
  - exact IH.
Qed.

Lemma keep_usable_spec usable d fs :
  Merge2.keep_usable usable d fs
  = Ok (usable ++ (if looks_like_yolo fs d then [d] else []), fs).
Proof.
  unfold Merge2.keep_usable, Merge2.find_split_dirs, looks_like_yolo, split_resolves.
  destruct (find_in_aliases_spec d (Merge2.SPLIT_ALIASES Merge2.Train) fs) as (t & Ht & Et).
  destruct (find_in_aliases_spec d (Merge2.SPLIT_ALIASES Merge2.Valid) fs) as (v & Hv & Ev).
  destruct (find_in_aliases_spec d (Merge2.SPLIT_ALIASES Merge2.Test) fs) as (te & Hte & Ete).
  rewrite (bind_Ok _ _ _ _ _ Ht), (bind_Ok _ _ _ _ _ Hv), (bind_Ok _ _ _ _ _ Hte).
  unfold ret. cbn [forallb Merge2.SPLIT_KEYS]. rewrite <- Et, <- Ev, <- Ete.
  destruct t.1, v.1, te.1; simpl; by rewrite ?app_nil_r.
Qed.

Lemma foldM_keep_usable usable found fs :
  foldM Merge2.keep_usable usable found fs
  = Ok (usable ++ List.filter (looks_like_yolo fs) found, fs).
Proof.
  revert usable. induction found as [|d found IH]; intros usable; simpl.
  - unfold ret. by rewrite app_nil_r.
  - rewrite (bind_Ok _ _ _ _ _ (keep_usable_spec usable d fs)), IH.
    destruct (looks_like_yolo fs d); simpl; by rewrite <- ?app_assoc, ?app_nil_r.
Qed.

Lemma foldM_filter (fs : gmap path node) (body : list path -> path -> M (list path))
    (keep : path -> bool) :
  (forall found p, body found p fs = Ok (if keep p then found ++ [p] else found, fs)) ->
  forall found ps,
    foldM body found ps fs = Ok (found ++ List.filter keep ps, fs).
Proof.
  intros Hbody found ps. revert found.
  induction ps as [|p ps IH]; intros found; simpl.
  - unfold ret. by rewrite app_nil_r.
  - rewrite (bind_Ok _ _ _ _ _ (Hbody found p)), IH.
    destruct (keep p); simpl; by rewrite <- ?app_assoc.
Qed.

Lemma filter_bool_app {A} (f : A -> bool) (l1 l2 : list A) :
  List.filter f (l1 ++ l2) = List.filter f l1 ++ List.filter f l2.
Proof. apply List.filter_app. Qed.

Lemma resolve_datasets_spec glob root dataset_globs fs r :
  Merge2.resolve_datasets glob root dataset_globs fs = Ok r ->
  r = (List.filter (looks_like_yolo fs) (candidates glob fs root dataset_globs), fs).
Proof.
  unfold Merge2.resolve_datasets. intros H.
  apply bind_Ok_inv in H as (found & fs1 & Hfound & H).
  assert (fs1 = fs /\ found = candidates glob fs root dataset_globs) as [-> ->].
  { unfold candidates.
    assert (forall found ps,
              foldM Merge2.keep_dir found ps fs
              = Ok (found ++ List.filter (fun p => is_dir_node (fs !! p)) ps, fs)) as Hdirs.
    { apply foldM_filter. intros f p. reflexivity. }
    assert (forall pats found,
              foldM (fun found pattern =>
                       let* ps := (fun fs => Ok (glob fs root pattern, fs)) in
                       foldM Merge2.keep_dir found ps) found pats fs
              = Ok (found ++ List.filter (fun p => is_dir_node (fs !! p))
                               (concat ((fun pattern => glob fs root pattern) <$> pats)),
                    fs)) as Hpats.
    { induction pats as [|pat pats IH]; intros f; simpl.
      - unfold ret. by rewrite app_nil_r.
      - unfold bind at 1. unfold bind at 1. rewrite Hdirs, IH.
        by rewrite filter_bool_app, app_assoc. }
    destruct dataset_globs as [[|pat pats]|].
    - unfold bind, Os.iterdir in Hfound.
      destruct (fs !! root) as [[c|]|]; try done.
      rewrite (foldM_filter fs Merge2.keep_discovered
                 (fun p => is_dir_node (fs !! p) && endswith (lower (name p)) ".yolov11"))
        in Hfound by (intros f p; reflexivity).
      by injection Hfound as <- <-.
    - rewrite Hpats in Hfound. by injection Hfound as <- <-.
    - unfold bind, Os.iterdir in Hfound.
      destruct (fs !! root) as [[c|]|]; try done.
      rewrite (foldM_filter fs Merge2.keep_discovered
                 (fun p => is_dir_node (fs !! p) && endswith (lower (name p)) ".yolov11"))
        in Hfound by (intros f p; reflexivity).
      by injection Hfound as <- <-. }
  rewrite foldM_keep_usable in H. by injection H as <-.
Qed.

(** C5, as the code has it. In pattern mode and in discovery mode alike a
    candidate directory is accepted only when all three splits train,
    valid and test resolve through their aliases: the structural check
    runs on whatever was found. The modes differ in the candidates: the
    directories some pattern matches, with no condition on the name,
    against the directories directly under the root whose lower-cased
    name ends in [.yolov11]. Resolution leaves the file system alone. *)
Theorem resolution_validates_in_both_modes
    (glob : gmap path node -> path -> string -> list path)
    (root : path) (dataset_globs : option (list string))
    (fs fs' : gmap path node) (usable : list path)
    (Hrun : Merge2.resolve_datasets glob root dataset_globs fs = Ok (usable, fs')) :
  fs' = fs /\
  forall d, d ∈ usable <->
    d ∈ candidates glob fs root dataset_globs /\
    forall k, existsb (fun alias => is_dir_node (fs !! (d ++ [alias; "images"])))
                (Merge2.SPLIT_ALIASES k) = true.
Proof.
  apply resolve_datasets_spec in Hrun. injection Hrun as -> ->.
  split; [done|]. intros d.
  rewrite list_elem_of_In, filter_In, <- list_elem_of_In.
  unfold looks_like_yolo, split_resolves. simpl. rewrite !andb_true_iff.
  split.
  - intros (Hc & Ht & Hv & Hte & _). split; [done|]. by intros [].
  - intros (Hc & Hk). split; [done|].
    pose proof (Hk Merge2.Train). pose proof (Hk Merge2.Valid).
    pose proof (Hk Merge2.Test). done.
Qed.

Lemma resolution_witness :
  exists fs',
    Merge2.resolve_datasets Samples.literal_glob Samples.root
      (Some ["credit-cards.yolov11"]) Samples.tree = Ok ([], fs') /\
    fs' = Samples.tree /\
    forall d, d ∈ @nil path <->
      d ∈ candidates Samples.literal_glob Samples.tree Samples.root
            (Some ["credit-cards.yolov11"]) /\
      forall k, existsb (fun alias => is_dir_node (Samples.tree !! (d ++ [alias; "images"])))
                  (Merge2.SPLIT_ALIASES k) = true.
Proof.
  destruct (returned_Some
              (Merge2.resolve_datasets Samples.literal_glob Samples.root
                 (Some ["credit-cards.yolov11"]) Samples.tree) [])
    as [fs' Hrun]; [vm_compute; reflexivity|].
  exists fs'. split; [exact Hrun|].
  exact (resolution_validates_in_both_modes _ _ _ _ _ _ Hrun).
Defined.

(** C5 as stated fails: the pattern [credit-cards.yolov11] matches a
    directory that has a train split only, and resolution in pattern mode
    leaves it out. *)
Lemma pattern_mode_counterexample :
  Samples.literal_glob Samples.tree Samples.root "credit-cards.yolov11"
  = [Samples.cards] /\
  Samples.tree !! Samples.cards = Some Dir /\
  split_resolves Samples.tree Samples.cards Merge2.Valid = false /\
  returned (Merge2.resolve_datasets Samples.literal_glob Samples.root
              (Some ["credit-cards.yolov11"]) Samples.tree) = Some [].
Proof. repeat split; vm_compute; reflexivity. Qed.

(** ** The file system after [mkdir_p] *)

Lemma elem_of_ancestors (q p : path) :
  q ∈ ancestors_and_self p <-> q `prefix_of` p.
Proof.
  unfold ancestors_and_self. rewrite list_elem_of_fmap. split.
  - intros (n & -> & _). apply prefix_take.
  - intros [k ->]. exists (length q). split.
    + by rewrite take_app_length.
    + apply elem_of_seq. rewrite length_app. lia.
Qed.

Lemma foldr_insert_dirs (l : list path) (fs : gmap path node) q :
  foldr (fun q m => <[q := Dir]> m) fs l !! q
  = if bool_decide (q ∈ l) then Some Dir else fs !! q.
Proof.
  induction l as [|a l IH]; cbn [foldr].
  - rewrite bool_decide_false; [done | apply not_elem_of_nil].
  - destruct (decide (a = q)) as [->|Hne].
    + rewrite lookup_insert_eq, bool_decide_true; [done | apply list_elem_of_here].
    + rewrite lookup_insert_ne, IH by done.
      destruct (decide (q ∈ l)) as [Hin|Hnin].
      * rewrite !bool_decide_true; [done | by apply list_elem_of_further | done].
      * rewrite !bool_decide_false; [done | | done].
        rewrite elem_of_cons. by intros [?|?].
Qed.

Lemma mkdir_p_Ok p fs fs1 :
  Os.mkdir_p p fs = Ok (tt, fs1) ->
  (forall q, fs1 !! q = if bool_decide (q `prefix_of` p) then Some Dir else fs !! q) /\
  (forall q, is_Some (fs !! q) -> fs1 !! q = fs !! q).
Proof.
  unfold Os.mkdir_p. destruct (is_file_node (fs !! p)); [done|].
  destruct (existsb _ _) eqn:Ex; [done|]. intros [= <-].
  assert (forall q, foldr (fun q m => <[q := Dir]> m) fs (ancestors_and_self p) !! q
                    = if bool_decide (q `prefix_of` p) then Some Dir else fs !! q) as Hl.
  { intros q. rewrite foldr_insert_dirs.
    destruct (decide (q `prefix_of` p)) as [Hq|Hq].
    - rewrite !bool_decide_true; [done | done | by apply elem_of_ancestors].
    - rewrite !bool_decide_false; [done | done | by rewrite elem_of_ancestors]. }
  split; [exact Hl|]. intros q [n Hn]. rewrite Hl. case_bool_decide as Hq; [|done].
  rewrite Hn. destruct n as [c|]; [|done].
  apply elem_of_ancestors in Hq.
  assert (existsb (fun q => is_file_node (fs !! q)) (ancestors_and_self p) = true) as Ht.
  { apply existsb_exists. exists q. rewrite <- list_elem_of_In. by rewrite Hn. }
  congruence.
Qed.

(** ** Export: a free name is always found *)

Lemma append_nil_l (b : string) : EmptyString +:+ b = b.
Proof. reflexivity. Qed.

Lemma append_cons c (a b : string) : String c a +:+ b = String c (a +:+ b).
Proof. reflexivity. Qed.

Lemma append_inj_l (s a b : string) : s +:+ a = s +:+ b -> a = b.
Proof.
  induction s as [|c s IH]; [done|]. rewrite !append_cons. intros [= H]. auto.
Qed.

Lemma length_append (a b : string) :
  String.length (a +:+ b) = String.length a + String.length b.
Proof.
  induction a as [|c a IH]; [done|]. rewrite append_cons. simpl. by rewrite IH.
Qed.

Lemma append_inj_r (s a b : string) : a +:+ s = b +:+ s -> a = b.
Proof.
  revert b. induction a as [|c a IH]; intros [|d b] H.
  - done.
  - apply (f_equal String.length) in H. rewrite !length_append in H.
    simpl in H. lia.
  - apply (f_equal String.length) in H. rewrite !length_append in H.
    simpl in H. lia.
  - rewrite !append_cons in H. injection H as -> H. f_equal. by apply IH.
Qed.

Lemma str_inj a b : str a = str b -> a = b.
Proof.
  intros H. apply (f_equal int) in H. rewrite !int_str in H. congruence.
Qed.

Lemma candidate_inj base i j :
  CoreML.candidate base i = CoreML.candidate base j -> i = j.
Proof.
  unfold CoreML.candidate. intros H. apply app_inj_tail in H as [_ H].
  apply append_inj_l, append_inj_l, append_inj_r, str_inj in H. lia.
Qed.

Lemma some_candidate_is_free (fs : gmap path node) base :
  exists j, 1 <= j < 1 + S (size fs) /\ fs !! CoreML.candidate base j = None.
Proof.
  set (cands := CoreML.candidate base <$> seq 1 (S (size fs))).
  destruct (decide (Forall (fun c => is_Some (fs !! c)) cands)) as [Hall|Hnot].
  - exfalso.
    assert (NoDup cands) as Hnd.
    { apply NoDup_fmap_2; [|apply NoDup_seq]. intros i j. apply candidate_inj. }
    assert (list_to_set cands ⊆ dom fs) as Hsub.
    { intros c Hc. apply elem_of_list_to_set in Hc. apply elem_of_dom.
      rewrite Forall_forall in Hall. by apply Hall. }
    apply subseteq_size in Hsub.
    rewrite size_list_to_set, size_dom in Hsub by done.
    unfold cands in Hsub. rewrite length_fmap, length_seq in Hsub. lia.
  - apply not_Forall_Exists in Hnot; [|apply _].
    apply Exists_exists in Hnot as (c & Hc & Hfree).
    apply list_elem_of_fmap in Hc as (j & -> & Hj). apply elem_of_seq in Hj.
    exists j. split; [lia|]. simpl in Hfree.
    destruct (fs !! CoreML.candidate base j); [by destruct Hfree; eexists | done].
Qed.

Lemma probe_finds (fs : gmap path node) base budget i :
  (exists j, i <= j < i + budget /\ fs !! CoreML.candidate base j = None) ->
  exists k,
    CoreML.probe fs base budget i = Some (CoreML.candidate base k) /\
    i <= k /\ fs !! CoreML.candidate base k = None /\
    forall j, i <= j < k -> is_Some (fs !! CoreML.candidate base j).
Proof.
  revert i. induction budget as [|budget IH]; intros i (j & Hj & Hfree); [lia|].
  simpl. case_bool_decide as Hi.
  - destruct (IH (S i)) as (k & Hk & Hle & Hkf & Hbelow).
    { exists j. split; [|done]. destruct (decide (j = i)) as [->|]; [|lia].
      rewrite Hfree in Hi. by destruct Hi. }
    exists k. split; [done|]. split; [lia|]. split; [done|].
    intros j' Hj'. destruct (decide (j' = i)) as [->|]; [done|]. apply Hbelow. lia.
  - exists i. split; [done|]. split; [lia|]. split.
    + by destruct (fs !! CoreML.candidate base i); [destruct Hi; eexists|].
    + intros j' Hj'. lia.
Qed.

Lemma next_free_path_spec (fs : gmap path node) base :
  exists p,
    CoreML.next_free_path base fs = Ok (p, fs) /\
    fs !! p = None /\
    (fs !! base = None -> p = base) /\
    (is_Some (fs !! base) ->
     exists i, 1 <= i /\ p = CoreML.candidate base i /\
               forall j, 1 <= j < i -> is_Some (fs !! CoreML.candidate base j)).
Proof.
  unfold CoreML.next_free_path. case_bool_decide as Hb.
  - destruct (probe_finds fs base (S (size fs)) 1 (some_candidate_is_free fs base))
      as (k & -> & Hk & Hfree & Hbelow).
    eexists. split; [done|]. split; [done|]. split.
    + intros E. rewrite E in Hb. by destruct Hb.
    + intros _. by exists k.
  - exists base. split; [done|].
    assert (fs !! base = None) as E
      by (destruct (fs !! base); [destruct Hb; by eexists | done]).
    split; [done|]. split; [done|]. intros [n Hn]. congruence.
Qed.

(** ** Export: nothing that exists is written over *)

Lemma absent_below (fs : gmap path node) t p :
  well_formed fs -> fs !! t = None -> t `prefix_of` p -> fs !! p = None.
Proof.
  intros Hwf Ht Hpre. destruct (fs !! p) as [n|] eqn:Hp; [|done].
  specialize (Hwf p n Hp). rewrite Forall_forall in Hwf.
  destruct (Hwf t) as [->|Hd]; [by apply elem_of_ancestors | congruence | congruence].
Qed.

Lemma write_file_Ok p c fs fs' :
  Os.write_file p c fs = Ok (tt, fs') -> fs' = <[p := File c]> fs.
Proof.
  unfold Os.write_file.
  destruct (fs !! p) as [[?|]|]; try done;
    destruct (fs !! parent p) as [[?|]|]; try done; congruence.
Qed.

Lemma copy2_to_free src dst fs fs' :
  fs !! dst = None -> Os.copy2 src dst fs = Ok (tt, fs') ->
  forall q, is_Some (fs !! q) -> fs' !! q = fs !! q.
Proof.
  intros Hdst H q [n Hq]. unfold Os.copy2 in H. rewrite Hdst in H. simpl in H.
  destruct (bool_decide (src = dst) && bool_decide (is_Some (fs !! src))); [done|].
  destruct (fs !! src) as [[c|]|]; try done.
  apply write_file_Ok in H as ->.
  rewrite lookup_insert_ne; [done | congruence].
Qed.

Lemma foldr_graft_other (fs m : gmap path node) (key : path -> path) l q :
  (forall p, key p <> q) ->
  foldr (fun p m => match fs !! p with
                    | Some n => <[key p := n]> m
                    | None => m
                    end) m l !! q = m !! q.
Proof.
  intros Hkey. induction l as [|p l IH]; simpl; [done|].
  destruct (fs !! p); [|done]. by rewrite lookup_insert_ne.
Qed.

Lemma copytree_to_free src dst fs fs' :
  well_formed fs -> fs !! dst = None -> Os.copytree src dst fs = Ok (tt, fs') ->
  forall q, is_Some (fs !! q) -> fs' !! q = fs !! q.
Proof.
  intros Hwf Hdst H q Hq. unfold Os.copytree in H.
  destruct (fs !! src) as [[c|]|]; try done.
  case_bool_decide; [done|].
  destruct (Os.mkdir_p dst fs) as [[[] fs1]|e] eqn:Hmk; [|done].
  injection H as <-. rewrite foldr_graft_other.
  - by apply (mkdir_p_Ok _ _ _ Hmk).
  - intros p E. rewrite (absent_below fs dst q Hwf Hdst) in Hq.
    + by destruct Hq.
    + rewrite <- E. by apply prefix_app_r.
Qed.

Lemma bind_Raise_inv {A B} (m : M A) (k : A -> M B) fs e :
  bind m k fs = Raise e ->
  m fs = Raise e \/ exists a fs1, m fs = Ok (a, fs1) /\ k a fs1 = Raise e.
Proof. unfold bind. destruct (m fs) as [[a fs1]|e']; [eauto | intros [= ->]; auto]. Qed.

Lemma copy_to_free_target_raises produced t fs e n :
  fs !! t = None -> CoreML.copy_to_target produced t fs = Raise e ->
  e <> SystemExit n.
Proof.
  intros Hfree H. unfold CoreML.copy_to_target in H.
  case_bool_decide as Heq; [done|].
  apply bind_Raise_inv in H as [H|(d & fs1 & Hd & H)]; [done|].
  unfold Os.is_dir in Hd. injection Hd as <- <-.
  destruct (fs !! produced) as [[c|]|] eqn:Hp; simpl in H.
  - unfold Os.copy2 in H. rewrite Hfree, Hp in H. simpl in H.
    rewrite (bool_decide_false (produced = t)) in H by done. simpl in H.
    unfold Os.write_file in H. rewrite Hfree in H.
    destruct (fs !! parent t) as [[c'|]|]; [by injection H as <- | done | by injection H as <-].
  - apply bind_Raise_inv in H as [H|(occ & fs2 & Ho & H)]; [done|].
    unfold Os.exists_ in Ho. injection Ho as <- <-. rewrite Hfree in H.
    rewrite (bool_decide_false (is_Some None)) in H by (by intros [? ?]).
    unfold Os.copytree in H. rewrite Hp, Hfree in H.
    rewrite (bool_decide_false (is_Some None)) in H by (by intros [? ?]).
    unfold Os.mkdir_p in H. rewrite Hfree in H. simpl in H.
    match type of H with context [if ?b then _ else _] => destruct b end;
      [by injection H as <- | done].
  - unfold Os.copy2 in H. rewrite Hfree, Hp in H. simpl in H.
    rewrite (bool_decide_false (produced = t)) in H by done. simpl in H.
    by injection H as <-.
Qed.

(** Inside [main] the exit with status 3 is not reached: the target comes
    from [next_free_path] and is free when the copy block tests it. The
    only exit status is 2, for a missing artefact. *)
Lemma main_exit_status produced cwd outname fs n :
  CoreML.main_after_export produced cwd outname fs = Raise (SystemExit n) ->
  n = 2%Z /\ fs !! produced = None.
Proof.
  intros H. unfold CoreML.main_after_export in H.
  apply bind_Raise_inv in H as [H|(found & fs1 & Hf & H)]; [done|].
  unfold Os.exists_ in Hf. injection Hf as <- <-.
  case_bool_decide as Hprod; cbn [negb] in H.
  - apply bind_Raise_inv in H as [H|(t & fs2 & Hnext & H)].
    + destruct (next_free_path_spec fs
                  (joinpath cwd (outname +:+ suffix produced))) as (t & Ht & _).
      congruence.
    + destruct (next_free_path_spec fs
                  (joinpath cwd (outname +:+ suffix produced)))
        as (t' & Ht & Hfree & _).
      rewrite Ht in Hnext. injection Hnext as <- <-.
      apply bind_Raise_inv in H as [H|(u & fs3 & _ & H)]; [|done].
      by destruct (copy_to_free_target_raises produced t' fs _ n Hfree H).
  - unfold raise in H. injection H as <-. split; [done|].
    destruct (fs !! produced) eqn:E; [|done]. destruct Hprod. by eexists.
Qed.

Lemma main_does_not_exit_with_3 produced cwd outname fs e :
  CoreML.main_after_export produced cwd outname fs = Raise e -> e <> SystemExit 3.
Proof.
  intros H ->. by destruct (main_exit_status _ _ _ _ _ H).
Qed.

(** C9, as the code has it. [next_free_path] always returns, without
    touching the file system, a path that does not exist: the base
    itself when that is free, and otherwise the first free one among
    [stem_1suffix], [stem_2suffix], ..., all earlier ones being taken.
    After the export a missing artefact ends [main] with exit status 2,
    and that is the only exit status of this part of [main]: an occupied
    destination is never fatal, since the target the copy block tests
    was just returned by [next_free_path], and the [sys.exit(3)] branch
    is not reached.  When [main] completes, the target is the intended
    name [cwd / f"{outname}{ext}"] when that was free and otherwise its
    first free suffixed variant; it was free, and in a well-formed tree
    every node that existed before is unchanged. *)
Theorem export_never_overwrites
    (fs : gmap path node) (base produced cwd : path) (outname : string) :
  (exists p,
     CoreML.next_free_path base fs = Ok (p, fs) /\
     fs !! p = None /\
     (fs !! base = None -> p = base) /\
     (is_Some (fs !! base) ->
      exists i, 1 <= i /\ p = CoreML.candidate base i /\
                forall j, 1 <= j < i -> is_Some (fs !! CoreML.candidate base j))) /\
  (fs !! produced = None ->
   CoreML.main_after_export produced cwd outname fs = Raise (SystemExit 2)) /\
  (forall n,
     CoreML.main_after_export produced cwd outname fs = Raise (SystemExit n) ->
     n = 2%Z /\ fs !! produced = None) /\
  (forall t fs',
     no_dotdot (outname +:+ suffix produced) ->
     CoreML.main_after_export produced cwd outname fs = Ok (t, fs') ->
     let intended := joinpath cwd (outname +:+ suffix produced) in
     (fs !! intended = None -> t = intended) /\
     (is_Some (fs !! intended) ->
      exists i, 1 <= i /\ t = CoreML.candidate intended i /\
                forall j, 1 <= j < i -> is_Some (fs !! CoreML.candidate intended j)) /\
     fs !! t = None /\
     (well_formed fs -> forall q, is_Some (fs !! q) -> fs' !! q = fs !! q)).
Proof.
  split; [apply next_free_path_spec|]. split; [|split].
  - intros Hp. unfold CoreML.main_after_export, bind, Os.exists_. rewrite Hp.
    rewrite bool_decide_false; [done | by intros [? ?]].
  - intros n H. by apply (main_exit_status produced cwd outname fs).
  - intros t fs' _ H. cbv zeta. unfold CoreML.main_after_export in H.
    apply bind_Ok_inv in H as (found & fs0 & Hfound & H).
    unfold Os.exists_ in Hfound. injection Hfound as <- <-.
    case_bool_decide as Hprod; [|done]. simpl in H.
    apply bind_Ok_inv in H as (t' & fs1 & Hnext & H).
    destruct (next_free_path_spec fs (joinpath cwd (outname +:+ suffix produced)))
      as (p & Hp & Hfree & Hfirst & Hlater).
    rewrite Hp in Hnext. injection Hnext as <- <-.
    apply bind_Ok_inv in H as ([] & fs2 & Hcopy & H).
    unfold ret in H. injection H as <- <-.
    split; [done|]. split; [done|]. split; [done|]. intros Hwf q Hq.
    unfold CoreML.copy_to_target in Hcopy.
    case_bool_decide as Heq; [by injection Hcopy as <-|].
    apply bind_Ok_inv in Hcopy as (d & fs3 & Hd & Hcopy).
    unfold Os.is_dir in Hd. injection Hd as <- <-.
    destruct (is_dir_node (fs !! produced)).
    + apply bind_Ok_inv in Hcopy as (occ & fs4 & Hocc & Hcopy).
      unfold Os.exists_ in Hocc. injection Hocc as <- <-.
      case_bool_decide; [done|].
      by apply (copytree_to_free produced p fs fs2).
    + by apply (copy2_to_free produced p fs fs2).
Qed.

(** With [--outname models/coreml] an artefact file is copied to
    [models/coreml_1.mlmodel] when [models/coreml.mlmodel] is taken; the
    file that was there is as it was; a missing artefact exits with
    2. *)
Lemma export_witness :
  let fs : gmap path node :=
    list_to_map [ ([], Dir); (["w"], Dir); (["w"; "best.mlmodel"], File (Binary [Byte.xff]));
                  (["w"; "models"], Dir);
                  (["w"; "models"; "coreml.mlmodel"], File (Binary [Byte.xd8])) ] in
  exists fs',
    CoreML.main_after_export ["w"; "best.mlmodel"] ["w"] "models/coreml" fs
    = Ok (["w"; "models"; "coreml_1.mlmodel"], fs') /\
    fs !! ["w"; "models"; "coreml_1.mlmodel"] = None /\
    fs' !! ["w"; "models"; "coreml.mlmodel"] = Some (File (Binary [Byte.xd8])) /\
    CoreML.main_after_export ["w"; "gone.mlmodel"] ["w"] "models/coreml" fs
    = Raise (SystemExit 2).
Proof.
  intros fs.
  destruct (returned_Some
              (CoreML.main_after_export ["w"; "best.mlmodel"] ["w"] "models/coreml" fs)
              ["w"; "models"; "coreml_1.mlmodel"]) as [fs' Hrun];
    [vm_compute; reflexivity|].
  exists fs'. split; [exact Hrun|].
  assert (no_dotdot ("models/coreml" +:+ suffix ["w"; "best.mlmodel"])) as Hplain
    by (unfold no_dotdot; compute_done).
  destruct (proj2 (proj2 (proj2 (export_never_overwrites fs [] ["w"; "best.mlmodel"]
                                   ["w"] "models/coreml")))
              _ fs' Hplain Hrun) as (_ & _ & Hfree & Hkeep).
  split; [exact Hfree|]. split.
  - rewrite Hkeep; [vm_compute; reflexivity | compute_done | compute_done].
  - apply (proj1 (proj2 (export_never_overwrites fs [] ["w"; "gone.mlmodel"] ["w"]
                           "models/coreml"))).
    vm_compute. reflexivity.
Defined.

(** C9 as stated fails: an occupied destination does not end [main]
    with exit status 3. A directory artefact whose intended name
    [coreml.mlpackage] is taken by a regular file is copied to
    [coreml_1.mlpackage]; [main] completes and the file is as it was. *)
Lemma occupied_destination_counterexample :
  let fs : gmap path node :=
    list_to_map [ ([], Dir); (["w"], Dir); (["runs"], Dir);
                  (["runs"; "best.mlpackage"], Dir);
                  (["runs"; "best.mlpackage"; "model.bin"], File (Binary [Byte.xff]));
                  (["w"; "coreml.mlpackage"], File (Text "notes")) ] in
  fs !! ["runs"; "best.mlpackage"] = Some Dir /\
  fs !! ["w"; "coreml.mlpackage"] = Some (File (Text "notes")) /\
  returned (CoreML.main_after_export ["runs"; "best.mlpackage"] ["w"] "coreml" fs)
  = Some ["w"; "coreml_1.mlpackage"] /\
  (fun fs' => (fs' !! ["w"; "coreml.mlpackage"],
               fs' !! ["w"; "coreml_1.mlpackage"; "model.bin"])) <$>
    left_behind (CoreML.main_after_export ["runs"; "best.mlpackage"] ["w"] "coreml" fs)
  = Some (Some (File (Text "notes")), Some (File (Binary [Byte.xff]))).
Proof. intros fs. repeat split; vm_compute; reflexivity. Qed.

(** ** Totals over dictionaries *)

Lemma total_of_empty {K} `{Countable K} {V} (g : V -> nat) :
  total_of g (∅ : gmap K V) = 0.
Proof. unfold total_of. apply map_fold_empty. Qed.

Lemma total_of_insert_fresh {K} `{Countable K} {V} (g : V -> nat)
    (m : gmap K V) k v :
  m !! k = None -> total_of g (<[k := v]> m) = g v + total_of g m.
Proof.
  intros Hk. unfold total_of.
  apply (map_fold_insert_L (fun _ v acc => g v + acc)); [|done].
  intros. lia.
Qed.

Lemma total_of_insert {K} `{Countable K} {V} (g : V -> nat)
    (m : gmap K V) k v :
  total_of g (<[k := v]> m) + default 0 (g <$> m !! k) = g v + total_of g m.
Proof.
  destruct (m !! k) as [old|] eqn:Hk; simpl.
  - rewrite <- (insert_delete_eq m k v).
    rewrite <- (insert_delete_id m k old Hk) at 2.
    rewrite !total_of_insert_fresh by apply lookup_delete_eq. lia.
  - rewrite total_of_insert_fresh by done. lia.
Qed.

Lemma counts_total_incr k counts :
  counts_total (incr k counts) = S (counts_total counts).
Proof.
  unfold counts_total, incr.
  pose proof (total_of_insert id counts k (S (default 0 (counts !! k)))) as H.
  destruct (counts !! k); simpl in *; lia.
Qed.

Lemma remap_lines_tally tid st lines :
  counts_total (class_counts (remap_lines (Merge2.append_line tid) tid st lines))
    + bbox_written st
  = counts_total (class_counts st)
    + bbox_written (remap_lines (Merge2.append_line tid) tid st lines).
Proof.
  apply (remap_lines_ind (Merge2.append_line tid) tid
           (fun a b => counts_total (class_counts b) + bbox_written a
                       = counts_total (class_counts a) + bbox_written b)).
  - done.
  - intros a b rest H. simpl. rewrite counts_total_incr. lia.
Qed.

(** ** Loops *)

Lemma foldM_inv {A S} (body : S -> A -> M S) (I : S -> Prop) (l : list A) :
  (forall s a fs s' fs', a ∈ l -> I s -> body s a fs = Ok (s', fs') -> I s') ->
  forall s fs s' fs', I s -> foldM body s l fs = Ok (s', fs') -> I s'.
Proof.
  induction l as [|a l IH]; intros Hbody s fs s' fs' Hs H; simpl in H.
  - unfold ret in H. by injection H as <- _.
  - apply bind_Ok_inv in H as (s1 & fs1 & Hstep & H).
    apply (IH (fun s a fs s' fs' Ha => Hbody s a fs s' fs' (list_elem_of_further _ _ _ Ha))
              s1 fs1 s' fs'); [|done].
    eapply Hbody; [apply list_elem_of_here | done | done].
Qed.

Lemma merge1_remap_label_Ok out_labels prefix tid dry_run counts cl bw lab fs r fs' :
  Merge1.remap_label out_labels prefix tid dry_run (counts, cl, bw) lab fs = Ok (r, fs') ->
  r = (counts, cl, bw) \/
  exists text,
    let st := remap_lines (Merge2.append_line tid) tid
                (RemapState [] counts bw) (splitlines text) in
    r = (class_counts st, S cl, bbox_written st).
Proof.
  unfold Merge1.remap_label. intros H.
  apply bind_Ok_inv in H as (f & fs1 & _ & H).
  destruct f; [|unfold ret in H; injection H as <- _; by left].
  apply bind_Ok_inv in H as (u1 & fs2 & _ & H).
  apply bind_Ok_inv in H as (text & fs3 & _ & H).
  apply bind_Ok_inv in H as (u2 & fs4 & _ & H).
  unfold ret in H. injection H as <- _. right. exists text. simpl.
  by rewrite (remap_lines_ext _ _ tid (merge1_append_is_merge2 tid)).
Qed.

Lemma merge2_remap_label_Ok out_labels prefix tid dry_run counts cl bw lab fs r fs' :
  Merge2.remap_label out_labels prefix tid dry_run (counts, cl, bw) lab fs = Ok (r, fs') ->
  exists text,
    let st := remap_lines (Merge2.append_line tid) tid
                (RemapState [] counts bw) (splitlines text) in
    r = (class_counts st, S cl, bbox_written st).
Proof.
  unfold Merge2.remap_label. intros H.
  apply bind_Ok_inv in H as (u1 & fs2 & _ & H).
  apply bind_Ok_inv in H as (text & fs3 & _ & H).
  apply bind_Ok_inv in H as (u2 & fs4 & _ & H).
  unfold ret in H. injection H as <- _. by exists text.
Qed.

Lemma merge1_process_split_tally ds split oi ol prefix tid counts dry_run fs
    ci cl bx counts' fs' :
  Merge1.process_split ds split oi ol prefix tid counts dry_run fs
    = Ok ((ci, cl, bx, counts'), fs') ->
  counts_total counts' = counts_total counts + bx.
Proof.
  unfold Merge1.process_split. intros H.
  apply bind_Ok_inv in H as (ie & fs1 & _ & H).
  apply bind_Ok_inv in H as (image_files & fs2 & _ & H).
  apply bind_Ok_inv in H as (le & fs3 & _ & H).
  apply bind_Ok_inv in H as (label_files & fs4 & _ & H).
  apply bind_Ok_inv in H as (n & fs5 & _ & H).
  apply bind_Ok_inv in H as ([[c1 c2] c3] & fs6 & Hloop & H).
  unfold ret in H. injection H as _ _ <- <- _.
  apply (foldM_inv _ (fun s => counts_total s.1.1 = counts_total counts + s.2))
    in Hloop; [done | | simpl; lia].
  intros [[cc l] w] lab fs7 s' fs8 _ Hs Hstep. simpl in Hs.
  apply merge1_remap_label_Ok in Hstep as [->|[text ->]]; [done|]. simpl.
  pose proof (remap_lines_tally tid (RemapState [] cc w) (splitlines text)) as Ht.
  simpl in Ht. lia.
Qed.

Lemma merge2_process_split_tally ds k oi ol prefix tid counts dry_run fs
    ci cl bx counts' fs' :
  Merge2.process_split ds k oi ol prefix tid counts dry_run fs
    = Ok ((ci, cl, bx, counts'), fs') ->
  counts_total counts' = counts_total counts + bx.
Proof.
  unfold Merge2.process_split. intros H.
  apply bind_Ok_inv in H as (dirs & fs1 & _ & H).
  destruct dirs.1 as [images_dir|];
    [|unfold ret in H; injection H as _ _ <- <- _; lia].
  apply bind_Ok_inv in H as (imgs & fs2 & _ & H).
  apply bind_Ok_inv in H as (n & fs3 & _ & H).
  destruct dirs.2 as [labels_dir|];
    [|unfold ret in H; injection H as _ _ <- <- _; lia].
  apply bind_Ok_inv in H as (lbls & fs4 & _ & H).
  apply bind_Ok_inv in H as ([[c1 c2] c3] & fs5 & Hloop & H).
  unfold ret in H. injection H as _ _ <- <- _.
  apply (foldM_inv _ (fun s => counts_total s.1.1 = counts_total counts + s.2))
    in Hloop; [done | | simpl; lia].
  intros [[cc l] w] lab fs7 s' fs8 _ Hs Hstep. simpl in Hs.
  apply merge2_remap_label_Ok in Hstep as [text ->]. simpl.
  pose proof (remap_lines_tally tid (RemapState [] cc w) (splitlines text)) as Ht.
  simpl in Ht. lia.
Qed.

(** ** The aggregates returned by [merge] *)

Lemma stats_boxes_record (stats : gmap string (gmap string split_stats))
    ds inner split v :
  stats !! ds = Some inner -> inner !! split = None ->
  stats_boxes (alter (insert split v) ds stats) = stats_boxes stats + boxes v.
Proof.
  intros Hds Hsplit.
  assert (alter (insert split v) ds stats = <[ds := <[split := v]> inner]> stats) as ->.
  { apply map_eq. intros k. destruct (decide (k = ds)) as [->|Hne].
    - by rewrite lookup_alter_eq, lookup_insert_eq, Hds.
    - by rewrite lookup_alter_ne, lookup_insert_ne. }
  unfold stats_boxes.
  pose proof (total_of_insert (total_of boxes) stats ds (<[split := v]> inner)) as H.
  rewrite Hds in H. simpl in H.
  rewrite (total_of_insert_fresh boxes inner split v Hsplit) in H. lia.
Qed.

Lemma stats_boxes_open (stats : gmap string (gmap string split_stats)) ds :
  stats !! ds = None -> stats_boxes (<[ds := ∅]> stats) = stats_boxes stats.
Proof.
  intros H. unfold stats_boxes. rewrite total_of_insert_fresh by done.
  by rewrite total_of_empty.
Qed.

Lemma merge1_splits_consistent ds_name ds_path out prefix tid dry_run splits :
  NoDup splits ->
  forall stats counts tot fs r fs' inner,
    consistent (stats, counts, tot) ->
    stats !! ds_name = Some inner ->
    (forall s, s ∈ splits -> inner !! s = None) ->
    foldM (Merge1.merge_split ds_name ds_path out prefix tid dry_run)
      (stats, counts, tot) splits fs = Ok (r, fs') ->
    consistent r /\ dom r.1.1 = dom stats.
Proof.
  induction 1 as [|s splits Hs Hnd IH]; intros stats counts tot fs r fs' inner Hc Hin Hfree H;
    simpl in H.
  - unfold ret in H. by injection H as <- _.
  - apply bind_Ok_inv in H as ([[stats1 counts1] tot1] & fs1 & Hstep & H).
    unfold Merge1.merge_split in Hstep.
    apply bind_Ok_inv in Hstep as ([[[ci cl] bx] counts'] & fs2 & Hps & Hret).
    unfold ret in Hret. injection Hret as <- <- <- <-.
    apply merge1_process_split_tally in Hps.
    destruct Hc as [Hc1 Hc2]. simpl in Hc1, Hc2.
    eapply IH in H as [Hr Hdom].
    + split; [exact Hr|]. rewrite Hdom. apply dom_alter_L.
    + split; simpl.
      * rewrite (stats_boxes_record stats ds_name inner s) by
          (done || apply Hfree, list_elem_of_here). simpl. lia.
      * lia.
    + by rewrite lookup_alter_eq, Hin.
    + intros s' Hs'. rewrite lookup_insert_ne; [|by intros ->].
      by apply Hfree, list_elem_of_further.
Qed.

Lemma merge1_dataset_consistent root out dry_run stats counts tot ds_name tid fs r fs' :
  consistent (stats, counts, tot) ->
  stats !! ds_name = None ->
  Merge1.merge_dataset root out dry_run (stats, counts, tot) (ds_name, tid) fs
    = Ok (r, fs') ->
  consistent r /\ dom r.1.1 ⊆ {[ds_name]} ∪ dom stats.
Proof.
  intros Hc Hfresh H. unfold Merge1.merge_dataset in H.
  apply bind_Ok_inv in H as (e & fs1 & _ & H).
  destruct e; cbn [negb] in H.
  - eapply merge1_splits_consistent in H as [Hr Hdom].
    + split; [done|]. rewrite Hdom, dom_insert_L. done.
    + unfold SPLITS. compute_done.
    + destruct Hc as [Hc1 Hc2]. split; simpl in *; [|done].
      by rewrite stats_boxes_open.
    + apply lookup_insert_eq.
    + intros s _. apply lookup_empty.
  - unfold ret in H. injection H as <- _. split; [done|]. simpl. set_solver.
Qed.

Lemma merge1_datasets_consistent root out dry_run datasets :
  NoDup datasets.*1 ->
  forall acc fs r fs',
    consistent acc ->
    (forall n, n ∈ datasets.*1 -> acc.1.1 !! n = None) ->
    foldM (Merge1.merge_dataset root out dry_run) acc datasets fs = Ok (r, fs') ->
    consistent r.
Proof.
  induction datasets as [|[ds_name tid] datasets IH]; intros Hnd acc fs r fs' Hc Hfresh H;
    simpl in H.
  - unfold ret in H. by injection H as <- _.
  - apply NoDup_cons in Hnd as [Hn Hnd]. destruct acc as [[stats counts] tot].
    apply bind_Ok_inv in H as (acc1 & fs1 & Hstep & H).
    apply merge1_dataset_consistent in Hstep as [Hc1 Hdom];
      [|done|apply Hfresh, list_elem_of_here].
    eapply IH in H; [done | done | done |].
    intros n Hin. apply not_elem_of_dom. intros Hd. apply Hdom in Hd.
    apply elem_of_union in Hd as [Hd|Hd].
    + apply elem_of_singleton in Hd as ->. done.
    + apply elem_of_dom in Hd. simpl in Hfresh.
      rewrite (Hfresh n) in Hd by (by apply list_elem_of_further). by destruct Hd.
Qed.

Lemma merge2_splits_consistent ds_path out prefix dry_run keys :
  NoDup (Merge2.key_name <$> keys) ->
  forall stats counts tot fs r fs' inner,
    consistent (stats, counts, tot) ->
    stats !! name ds_path = Some inner ->
    (forall k, k ∈ keys -> inner !! Merge2.key_name k = None) ->
    foldM (Merge2.merge_split ds_path out prefix dry_run)
      (stats, counts, tot) keys fs = Ok (r, fs') ->
    consistent r /\ dom r.1.1 = dom stats.
Proof.
  induction keys as [|k keys IH]; intros Hnd stats counts tot fs r fs' inner Hc Hin Hfree H;
    simpl in H.
  - unfold ret in H. by injection H as <- _.
  - rewrite fmap_cons in Hnd. apply NoDup_cons in Hnd as [Hk Hnd].
    apply bind_Ok_inv in H as ([[stats1 counts1] tot1] & fs1 & Hstep & H).
    unfold Merge2.merge_split in Hstep.
    apply bind_Ok_inv in Hstep as ([[[ci cl] bx] counts'] & fs2 & Hps & Hret).
    unfold ret in Hret. injection Hret as <- <- <- <-.
    apply merge2_process_split_tally in Hps.
    destruct Hc as [Hc1 Hc2]. simpl in Hc1, Hc2.
    eapply IH in H as [Hr Hdom]; [| done | | |].
    + split; [exact Hr|]. rewrite Hdom. apply dom_alter_L.
    + split; simpl.
      * rewrite (stats_boxes_record stats (name ds_path) inner (Merge2.key_name k)) by
          (done || apply Hfree, list_elem_of_here). simpl. lia.
      * lia.
    + by rewrite lookup_alter_eq, Hin.
    + intros k' Hk'. rewrite lookup_insert_ne.
      * by apply Hfree, list_elem_of_further.
      * intros E. apply Hk. rewrite E. by apply list_elem_of_fmap_2.
Qed.

Lemma merge2_dataset_consistent out dry_run stats counts tot ds_path fs r fs' :
  consistent (stats, counts, tot) ->
  stats !! name ds_path = None ->
  Merge2.merge_dataset out dry_run (stats, counts, tot) ds_path fs = Ok (r, fs') ->
  consistent r /\ dom r.1.1 ⊆ {[name ds_path]} ∪ dom stats.
Proof.
  intros Hc Hfresh H. unfold Merge2.merge_dataset in H.
  eapply merge2_splits_consistent in H as [Hr Hdom].
  - split; [done|]. rewrite Hdom, dom_insert_L. done.
  - simpl. compute_done.
  - destruct Hc as [Hc1 Hc2]. split; simpl in *; [|done].
    by rewrite stats_boxes_open.
  - apply lookup_insert_eq.
  - intros s _. apply lookup_empty.
Qed.

Lemma merge2_datasets_consistent out dry_run datasets :
  NoDup (name <$> datasets) ->
  forall acc fs r fs',
    consistent acc ->
    (forall d, d ∈ datasets -> acc.1.1 !! name d = None) ->
    foldM (Merge2.merge_dataset out dry_run) acc datasets fs = Ok (r, fs') ->
    consistent r.
Proof.
  induction datasets as [|d datasets IH]; intros Hnd acc fs r fs' Hc Hfresh H;
    simpl in H.
  - unfold ret in H. by injection H as <- _.
  - rewrite fmap_cons in Hnd. apply NoDup_cons in Hnd as [Hn Hnd].
    destruct acc as [[stats counts] tot].
    apply bind_Ok_inv in H as (acc1 & fs1 & Hstep & H).
    apply merge2_dataset_consistent in Hstep as [Hc1 Hdom];
      [|done|apply Hfresh, list_elem_of_here].
    eapply IH in H; [done | done | done |].
    intros d' Hin. apply not_elem_of_dom. intros Hd. apply Hdom in Hd.
    apply elem_of_union in Hd as [Hd|Hd].
    + apply elem_of_singleton in Hd. apply Hn. rewrite <- Hd.
      by apply list_elem_of_fmap_2.
    + apply elem_of_dom in Hd. simpl in Hfresh.
      rewrite (Hfresh d') in Hd by (by apply list_elem_of_further). by destruct Hd.
Qed.

Lemma consistent_start : consistent (∅, ∅, 0).
Proof.
  split; simpl; unfold stats_boxes, counts_total; by rewrite total_of_empty.
Qed.

(** C10, as the code has it. Whenever [merge] returns, [total_boxes]
    equals the sum of the values of [class_counts]; it also equals the
    sum of the [boxes] entries of [stats] in the per-dataset-mapping
    script, and in the forced-id script provided no two of the datasets
    passed in have the same directory name. *)
Theorem merge_aggregates_agree
    (root out : path) (datasets : list path) (dry_run : bool)
    (fs fs' : gmap path node) (r : merge_result) :
  (Merge1.merge root out dry_run fs = Ok (r, fs') ->
   r.2 = stats_boxes r.1.1 /\ r.2 = counts_total r.1.2) /\
  (Merge2.merge root out datasets dry_run fs = Ok (r, fs') ->
   r.2 = counts_total r.1.2 /\
   (NoDup (name <$> datasets) -> r.2 = stats_boxes r.1.1)).
Proof.
  split.
  - intros H. unfold Merge1.merge, Merge1.merge_with in H.
    apply bind_Ok_inv in H as (u & fs1 & _ & H).
    apply bind_Ok_inv in H as (r1 & fs2 & Hloop & H).
    apply bind_Ok_inv in H as (u2 & fs3 & _ & H).
    unfold ret in H. injection H as <- _.
    eapply merge1_datasets_consistent in Hloop; [exact Hloop | | apply consistent_start |].
    + simpl. compute_done.
    + intros n _. apply lookup_empty.
  - intros H. unfold Merge2.merge in H.
    apply bind_Ok_inv in H as (u & fs1 & _ & H).
    apply bind_Ok_inv in H as (r1 & fs2 & Hloop & H).
    apply bind_Ok_inv in H as (u2 & fs3 & _ & H).
    unfold ret in H. injection H as <- _. split.
    + apply (foldM_inv _ (fun acc => acc.2 = counts_total acc.1.2)) in Hloop;
        [done | | by rewrite (proj2 consistent_start)].
      intros [[st cc] tot] d fs4 acc' fs5 _ Hacc Hstep. simpl in Hacc.
      unfold Merge2.merge_dataset in Hstep.
      apply (foldM_inv _ (fun acc => acc.2 = counts_total acc.1.2)) in Hstep;
        [done | | done].
      intros [[st1 cc1] tot1] k fs6 acc1 fs7 _ Hacc1 Hsplit. simpl in Hacc1.
      unfold Merge2.merge_split in Hsplit.
      apply bind_Ok_inv in Hsplit as ([[[ci cl] bx] counts'] & fs8 & Hps & Hret).
      unfold ret in Hret. injection Hret as <- _. simpl.
      apply merge2_process_split_tally in Hps. lia.
    + intros Hnd.
      eapply merge2_datasets_consistent in Hloop; [apply Hloop | done | apply consistent_start |].
      intros d _. apply lookup_empty.
Qed.

Lemma merge_aggregates_witness :
  exists r fs',
    Merge1.merge Samples.root ["data"; "out"] false Samples.tree = Ok (r, fs') /\
    r.2 = stats_boxes r.1.1 /\ r.2 = counts_total r.1.2 /\ r.2 = 4.
Proof.
  destruct (Merge1.merge Samples.root ["data"; "out"] false Samples.tree)
    as [[r fs']|e] eqn:Hrun.
  - exists r, fs'. split; [reflexivity|].
    destruct (proj1 (merge_aggregates_agree Samples.root ["data"; "out"] [] false
                       Samples.tree fs' r) Hrun) as [H1 H2].
    split; [exact H1|]. split; [exact H2|].
    assert (snd <$> returned (Merge1.merge Samples.root ["data"; "out"] false Samples.tree)
            = Some 4) as H4 by (vm_compute; reflexivity).
    rewrite Hrun in H4. simpl in H4. congruence.
  - assert (returned (Merge1.merge Samples.root ["data"; "out"] false Samples.tree)
            <> None) as Hok by (vm_compute; discriminate).
    rewrite Hrun in Hok. by destruct Hok.
Defined.

(** C10 as stated fails in the forced-id script: a dataset passed twice
    is walked twice, [total_boxes] and the tally count both walks, and the
    second walk replaces the first in [stats]. *)
Lemma repeated_dataset_counterexample :
  (fun r => (r.2, stats_boxes r.1.1, counts_total r.1.2)) <$>
    returned (Merge2.merge Samples.root ["data"; "out"] [Samples.cards; Samples.cards]
                true Samples.tree)
  = Some (8, 4, 8).
Proof. vm_compute. reflexivity. Qed.

(** ** Preview against the mutating run *)

Section Simulation.

Variable out : path.



Lemma simulates_weaken {A} (Q R : A -> Prop) (m1 m0 : M A) :
  (forall a, Q a -> R a) -> simulates out Q m1 m0 -> simulates out R m1 m0.
Proof.
  intros HQR Hm fs1 fs0 a fs1' Hrel H.
  destruct (Hm _ _ _ _ Hrel H) as (? & ? & ?). auto.
Qed.



















End Simulation.

Section Writes.

Variable out : path.











(** *** merge_dataset_1.py *)





(** *** merge_dataset_2.py *)






End Writes.

(** ** The output directories *)

Lemma mkdir_p_makes p fs fs' q :
  Os.mkdir_p p fs = Ok (tt, fs') -> q `prefix_of` p -> fs' !! q = Some Dir.
Proof.
  intros H Hq. apply mkdir_p_Ok in H as [H _]. rewrite H.
  by rewrite bool_decide_true.
Qed.

Lemma mkdir_p_keeps p fs fs' q :
  Os.mkdir_p p fs = Ok (tt, fs') -> fs !! q = Some Dir -> fs' !! q = Some Dir.
Proof.
  intros H Hq. apply mkdir_p_Ok in H as [_ H]. rewrite H; [done | by eexists].
Qed.

Lemma make_output_dirs_ready out fs fs' :
  Merge1.make_output_dirs out fs = Ok (tt, fs') -> out_ready out fs'.
Proof.
  unfold Merge1.make_output_dirs, Merge1.make_dirs, SPLITS. cbn [foldM]. intros H.
  repeat match type of H with
         | bind _ _ _ = Ok _ =>
             let u := fresh "u" in let f := fresh "fs" in let Hm := fresh "Hm" in
             apply bind_Ok_inv in H as (u & f & Hm & H); destruct u
         end.
  repeat match goal with
         | Hm : bind _ _ _ = Ok _ |- _ =>
             let u := fresh "u" in let f := fresh "fs" in let Hn := fresh "Hn" in
             apply bind_Ok_inv in Hm as (u & f & Hn & Hm); destruct u
         end.
  unfold ret in H. injection H as <-.
  intros d q Hd Hq. unfold out_dirs, SPLITS in Hd. simpl in Hd.
  rewrite !elem_of_cons, elem_of_nil in Hd.
  destruct Hd as [->|[->|[->|[->|[->|[->|[]]]]]]];
    eauto 12 using mkdir_p_makes, mkdir_p_keeps.
Qed.

(** ** Preview leaves the tree alone, the output directories apart *)

Lemma reads_only_ret {A} (a : A) : reads_only (ret a).
Proof. by intros fs b fs' [= _ <-]. Qed.

Lemma reads_only_bind {A B} (m : M A) (k : A -> M B) :
  reads_only m -> (forall a, reads_only (k a)) -> reads_only (bind m k).
Proof.
  intros Hm Hk fs b fs' H. apply bind_Ok_inv in H as (a & fs1 & H1 & H2).
  apply Hm in H1 as ->. by apply Hk in H2.
Qed.

Lemma reads_only_foldM {A S} (body : S -> A -> M S) (l : list A) :
  (forall s a, reads_only (body s a)) -> forall s, reads_only (foldM body s l).
Proof.
  intros Hb. induction l as [|a l IH]; intros s; simpl.
  - apply reads_only_ret.
  - apply reads_only_bind; [apply Hb | apply IH].
Qed.

Lemma reads_only_pure {A} (f : gmap path node -> A) :
  reads_only (fun fs => Ok (f fs, fs)).
Proof. by intros fs a fs' [= _ <-]. Qed.

Lemma reads_only_read_text p : reads_only (Os.read_text p).
Proof.
  intros fs a fs' H. unfold Os.read_text in H.
  destruct (fs !! p) as [[[s|b]|]|]; try done. by injection H as _ <-.
Qed.

Lemma merge1_process_split_preview ds split oi ol prefix tid counts :
  reads_only (Merge1.process_split ds split oi ol prefix tid counts true).
Proof.
  unfold Merge1.process_split.
  apply reads_only_bind; [apply reads_only_pure|]. intros ie.
  apply reads_only_bind;
    [destruct ie; [apply reads_only_pure | apply reads_only_ret]|]. intros imgs.
  apply reads_only_bind; [apply reads_only_pure|]. intros le.
  apply reads_only_bind;
    [destruct le; [apply reads_only_pure | apply reads_only_ret]|]. intros lbls.
  apply reads_only_bind.
  { apply reads_only_foldM. intros n img. unfold Merge1.copy_image.
    apply reads_only_bind; [apply reads_only_pure|].
    intros []; [|apply reads_only_ret].
    apply reads_only_bind; [apply reads_only_ret | intros; apply reads_only_ret]. }
  intros n. apply reads_only_bind.
  { apply reads_only_foldM. intros [[cc cl] bw] lab. unfold Merge1.remap_label.
    apply reads_only_bind; [apply reads_only_pure|].
    intros []; [|apply reads_only_ret].
    apply reads_only_bind; [apply reads_only_ret|]. intros _.
    apply reads_only_bind; [apply reads_only_read_text|]. intros text.
    apply reads_only_bind; [apply reads_only_ret | intros; apply reads_only_ret]. }
  intros [[c1 c2] c3]. apply reads_only_ret.
Qed.

Lemma reads_only_find_in_aliases ds aliases :
  reads_only (Merge2.find_in_aliases ds aliases).
Proof.
  intros fs a fs' H. destruct (find_in_aliases_reads ds aliases fs) as [dirs Hd].
  rewrite Hd in H. by injection H as _ <-.
Qed.

Lemma merge2_process_split_preview ds k oi ol prefix tid counts :
  reads_only (Merge2.process_split ds k oi ol prefix tid counts true).
Proof.
  unfold Merge2.process_split, Merge2.find_split_dirs.
  apply reads_only_bind; [apply reads_only_find_in_aliases|].
  intros [[images_dir|] labels]; simpl; [|apply reads_only_ret].
  apply reads_only_bind; [apply reads_only_pure|]. intros imgs.
  apply reads_only_bind.
  { apply reads_only_foldM. intros n img. unfold Merge2.copy_image.
    apply reads_only_bind; [apply reads_only_ret | intros; apply reads_only_ret]. }
  intros n. destruct labels as [labels_dir|]; [|apply reads_only_ret].
  apply reads_only_bind; [apply reads_only_pure|]. intros lbls.
  apply reads_only_bind.
  { apply reads_only_foldM. intros [[cc cl] bw] lab. unfold Merge2.remap_label.
    apply reads_only_bind; [apply reads_only_ret|]. intros _.
    apply reads_only_bind; [apply reads_only_read_text|]. intros text.
    apply reads_only_bind; [apply reads_only_ret | intros; apply reads_only_ret]. }
  intros [[c1 c2] c3]. apply reads_only_ret.
Qed.

(** In preview both [process_split]s leave the file system as it is, and
    what [merge] leaves behind is the tree with the six output
    directories made. *)
Lemma preview_only_makes_output_dirs root out datasets fs r fs' :
  (Merge1.merge root out true fs = Ok (r, fs') ->
   Merge1.make_output_dirs out fs = Ok (tt, fs')) /\
  (Merge2.merge root out datasets true fs = Ok (r, fs') ->
   Merge2.make_output_dirs out fs = Ok (tt, fs')).
Proof.
  split; intros H.
  - unfold Merge1.merge, Merge1.merge_with in H.
    apply bind_Ok_inv in H as ([] & fs1 & Hmk & H).
    apply bind_Ok_inv in H as (r1 & fs2 & Hloop & H).
    apply bind_Ok_inv in H as ([] & fs3 & Hyaml & H).
    unfold ret in H. injection H as _ <-. injection Hyaml as <-.
    apply reads_only_foldM in Hloop as ->; [done|].
    intros [[st cc] tot] [ds_name tid]. unfold Merge1.merge_dataset.
    apply reads_only_bind; [apply reads_only_pure|].
    intros []; cbn [negb]; [|apply reads_only_ret].
    apply reads_only_foldM. intros [[st1 cc1] tot1] s. unfold Merge1.merge_split.
    apply reads_only_bind; [apply merge1_process_split_preview|].
    intros [[[ci cl] bx] counts']. apply reads_only_ret.
  - unfold Merge2.merge in H.
    apply bind_Ok_inv in H as ([] & fs1 & Hmk & H).
    apply bind_Ok_inv in H as (r1 & fs2 & Hloop & H).
    apply bind_Ok_inv in H as ([] & fs3 & Hyaml & H).
    unfold ret in H. injection H as _ <-. injection Hyaml as <-.
    apply reads_only_foldM in Hloop as ->; [done|].
    intros [[st cc] tot] ds. unfold Merge2.merge_dataset.
    apply reads_only_foldM. intros [[st1 cc1] tot1] k. unfold Merge2.merge_split.
    apply reads_only_bind; [apply merge2_process_split_preview|].
    intros [[[ci cl] bx] counts']. apply reads_only_ret.
Qed.

(** C6 fails on the code: [merge] makes the output directories before it
    looks at [dry_run]. On a tree without [data/out] the preview of
    either script returns and leaves [data/out/train/images] behind as a
    directory. *)
Theorem preview_makes_the_output_directories :
  Samples.tree !! ["data"; "out"] = None /\
  Samples.tree !! ["data"; "out"; "train"; "images"] = None /\
  (fun fs => fs !! ["data"; "out"; "train"; "images"]) <$>
    left_behind (Merge1.merge Samples.root ["data"; "out"] true Samples.tree)
  = Some (Some Dir) /\
  (fun fs => fs !! ["data"; "out"; "train"; "images"]) <$>
    left_behind (Merge2.merge Samples.root ["data"; "out"] [Samples.cards] true
                   Samples.tree)
  = Some (Some Dir).
Proof. repeat split; vm_compute; reflexivity. Qed.

(** ** Preview and mutating run return the same *)







(** * Further properties *)

(** ** Tokens, joins and splits *)

Lemma append_nil_r (s : string) : s +:+ EmptyString = s.
Proof. induction s as [|c s IH]; [done|]. by rewrite append_cons, IH. Qed.

Lemma append_assoc (a b c : string) : (a +:+ b) +:+ c = a +:+ (b +:+ c).
Proof. induction a as [|x a IH]; [done|]. by rewrite !append_cons, IH. Qed.

Lemma all_chars_app P (a b : string) :
  all_chars P (a +:+ b) = all_chars P a && all_chars P b.
Proof.
  induction a as [|x a IH]; [done|]. rewrite append_cons. simpl.
  by rewrite IH, andb_assoc.
Qed.

Lemma is_empty_app (a b : string) :
  is_empty (a +:+ b) = is_empty a && is_empty b.
Proof. destruct a; [done|]. by rewrite append_cons. Qed.

Lemma is_token_spec t :
  is_token t = true <->
  is_empty t = false /\ all_chars (fun c => negb (isspace c)) t = true.
Proof.
  unfold is_token. rewrite andb_true_iff, negb_true_iff. done.
Qed.

Lemma split_go_tokens cur s :
  all_chars (fun c => negb (isspace c)) cur = true ->
  Forall (fun t => is_token t = true) (split_go cur s).
Proof.
  revert cur. induction s as [|c s IH]; intros cur Hcur; simpl.
  - destruct (is_empty cur) eqn:E; [constructor|].
    constructor; [|constructor]. by apply is_token_spec.
  - destruct (isspace c) eqn:Ec.
    + destruct (is_empty cur) eqn:E; [by apply IH|].
      constructor; [by apply is_token_spec | by apply IH].
    + apply IH. unfold snoc. rewrite all_chars_app, Hcur. simpl. by rewrite Ec.
Qed.

Lemma split_tokens s : Forall (fun t => is_token t = true) (split s).
Proof. by apply split_go_tokens. Qed.

Lemma split_go_app cur t s :
  all_chars (fun c => negb (isspace c)) t = true ->
  split_go cur (t +:+ s) = split_go (cur +:+ t) s.
Proof.
  revert cur. induction t as [|c t IH]; intros cur Ht.
  - by rewrite append_nil_l, append_nil_r.
  - simpl in Ht. apply andb_prop in Ht as [Hc Ht]. apply negb_true_iff in Hc.
    rewrite append_cons. simpl. rewrite Hc, IH by done. unfold snoc.
    by rewrite append_assoc.
Qed.

Lemma join_cons sep (t : string) (ts : list string) :
  ts <> [] -> join sep (t :: ts) = t +:+ sep +:+ join sep ts.
Proof. by destruct ts. Qed.

Lemma split_join ts :
  Forall (fun t => is_token t = true) ts -> split (join " " ts) = ts.
Proof.
  unfold split. induction 1 as [|t ts Ht Hts IH]; [done|].
  apply is_token_spec in Ht as [Hne Hns].
  destruct ts as [|t' ts'].
  - change (join " " [t]) with t. rewrite <- (append_nil_r t) at 1.
    rewrite split_go_app, append_nil_l by done. simpl. by rewrite Hne.
  - rewrite join_cons, split_go_app, append_nil_l by done.
    change (" " +:+ ?s) with (String " " s).
    set (J := join " " (t' :: ts')) in *. simpl. by rewrite Hne, IH.
Qed.

Lemma join_shape ts :
  ts <> [] -> Forall (fun t => is_token t = true) ts ->
  is_empty (join " " ts) = false /\
  lstrip (join " " ts) = join " " ts /\
  rstrip (join " " ts) = join " " ts.
Proof.
  intros Hne Hts. induction Hts as [|t ts Ht Hts IH]; [done|]. clear Hne.
  apply is_token_spec in Ht as [Hte Hns].
  assert (lstrip t = t /\ rstrip t = t) as [Hl Hr]
    by (split; [by apply lstrip_no_space | by apply rstrip_no_space]).
  destruct ts as [|t' ts'].
  - change (join " " [t]) with t. done.
  - destruct IH as (He & _ & Hrs); [done|].
    rewrite join_cons by done. set (J := join " " (t' :: ts')) in *.
    split; [by rewrite is_empty_app, Hte|]. split.
    + destruct t as [|c t]; [done|]. rewrite append_cons. simpl in *.
      apply andb_prop in Hns as [Hc _]. apply negb_true_iff in Hc. by rewrite Hc.
    + clear Hl Hr. induction t as [|c t IHt].
      * rewrite append_nil_l. change (" " +:+ J) with (String " " J). simpl.
        by rewrite Hrs, He.
      * rewrite append_cons. simpl. destruct t as [|c2 t2].
        -- rewrite append_nil_l. change (" " +:+ J) with (String " " J). simpl.
           rewrite Hrs, He. done.
        -- simpl in Hns. apply andb_prop in Hns as [_ Hns].
           rewrite IHt by done. by rewrite append_cons.
Qed.

Lemma strip_join ts :
  ts <> [] -> Forall (fun t => is_token t = true) ts ->
  strip (join " " ts) = join " " ts.
Proof.
  intros Hne Hts. destruct (join_shape ts Hne Hts) as (_ & Hl & Hr).
  unfold strip. by rewrite Hl, Hr.
Qed.

Lemma token_no_break c : negb (isspace c) = true -> no_break c = true.
Proof.
  unfold no_break, isspace, is_linebreak, between. generalize (code c). intros n.
  rewrite !negb_true_iff, !orb_false_iff, !andb_false_iff.
  rewrite !Nat.leb_gt, !Nat.eqb_neq. lia.
Qed.

Lemma join_no_break ts :
  Forall (fun t => is_token t = true) ts ->
  all_chars no_break (join " " ts) = true.
Proof.
  induction 1 as [|t ts Ht Hts IH]; [done|].
  apply is_token_spec in Ht as [_ Hns].
  assert (all_chars no_break t = true) as Hb
    by (eapply all_chars_impl; [apply token_no_break | done]).
  destruct ts as [|t' ts']; [done|].
  rewrite join_cons, !all_chars_app, Hb, IH by done. done.
Qed.

Lemma splitlines_go_app cur l s :
  all_chars no_break l = true ->
  splitlines_go cur (l +:+ s) = splitlines_go (cur +:+ l) s.
Proof.
  revert cur. induction l as [|c l IH]; intros cur Hl.
  - by rewrite append_nil_l, append_nil_r.
  - simpl in Hl. apply andb_prop in Hl as [Hc Hl].
    unfold no_break in Hc. apply negb_true_iff, orb_false_elim in Hc as [Hlb Hcr].
    rewrite append_cons. simpl. rewrite Hcr, Hlb, IH by done. unfold snoc.
    by rewrite append_assoc.
Qed.

Lemma splitlines_go_newline cur s :
  splitlines_go cur (newline +:+ s) = cur :: splitlines_go EmptyString s.
Proof. reflexivity. Qed.

Lemma splitlines_output_text (lines : list string) :
  Forall (fun l => all_chars no_break l = true) lines ->
  splitlines (output_text lines) = lines.
Proof.
  unfold splitlines, output_text. intros H. destruct H as [|l lines Hl Hls]; [done|].
  revert l Hl. induction Hls as [|l' lines Hl' Hls IH]; intros l Hl.
  - change (join newline [l]) with l.
    rewrite splitlines_go_app, append_nil_l by done.
    rewrite <- (append_nil_r newline), splitlines_go_newline. done.
  - rewrite join_cons by done. rewrite !append_assoc.
    rewrite splitlines_go_app, append_nil_l by done.
    rewrite splitlines_go_newline. f_equal. by apply IH.
Qed.

Lemma str_is_token n : is_token (str n) = true.
Proof.
  apply is_token_spec. unfold str.
  destruct n as [|p|p]; [done| |]; cbn [Z.to_int NilZero.string_of_int].
  - pose proof (DecimalPos.Unsigned.to_uint_nonnil p) as Hnn.
    assert (NilZero.string_of_uint (Pos.to_uint p)
            = NilEmpty.string_of_uint (Pos.to_uint p)) as ->
      by (unfold NilZero.string_of_uint; by destruct (Pos.to_uint p)).
    split.
    + by destruct (Pos.to_uint p).
    + eapply all_chars_impl; [apply digit_not_space | apply digits_of_uint].
  - split; [done|]. simpl.
    assert (NilZero.string_of_uint (Pos.to_uint p)
            = NilEmpty.string_of_uint (Pos.to_uint p)) as ->.
    { pose proof (DecimalPos.Unsigned.to_uint_nonnil p).
      unfold NilZero.string_of_uint; by destruct (Pos.to_uint p). }
    eapply all_chars_impl; [apply digit_not_space | apply digits_of_uint].
Qed.

Lemma name_child (p : path) (x : string) : name (p ++ [x]) = x.
Proof. unfold name. apply last_last. Qed.

(** ** Label remapper: value tokens and re-reading the output *)

Lemma remap_line_boxes al tid st line :
  remap_line al tid st line
  = foldl (fun st g => al (str tid :: g) st) st (line_boxes line).
Proof.
  unfold remap_line, line_boxes.
  destruct (is_empty (strip line)) eqn:Ee.
  { destruct (strip line); [done | discriminate]. }
  set (parts := split (strip line)).
  destruct parts as [|p vals] eqn:Ep.
  { by destruct (5 <=? 0). }
  cbn [drop]. rewrite drop_0.
  destruct (5 <=? length (p :: vals)); [|done].
  cbn [andb]. destruct (length vals mod 4 =? 0); [|done].
  generalize (range 0 (length vals) 4). intros l. revert st.
  induction l as [|i l IH]; intros st; [done|]. cbn. apply IH.
Qed.

Lemma remap_lines_boxes al tid st lines :
  remap_lines al tid st lines
  = foldl (fun st g => al (str tid :: g) st) st (concat (line_boxes <$> lines)).
Proof.
  unfold remap_lines. revert st.
  induction lines as [|l lines IH]; intros st; [done|].
  cbn [foldl fmap list_fmap concat]. rewrite foldl_app, <- remap_line_boxes. apply IH.
Qed.

Lemma foldl_boxes_out al tid st (gs : list (list string)) :
  appends al ->
  out_lines (foldl (fun st g => al (str tid :: g) st) st gs)
  = out_lines st ++ ((fun g => join " " (str tid :: g)) <$> gs).
Proof.
  intros Hal. revert st. induction gs as [|g gs IH]; intros st; simpl.
  - by rewrite app_nil_r.
  - rewrite IH, Hal, <- app_assoc. reflexivity.
Qed.

Lemma concat_chunks {A} (m : nat) (l : list A) :
  length l = 4 * m ->
  concat ((fun k => take 4 (drop (4 * k) l)) <$> seq 0 m) = l.
Proof.
  revert l. induction m as [|m IH]; intros l Hl.
  - by destruct l.
  - cbn [seq fmap list_fmap concat]. rewrite <- seq_shift.
    change (List.map S (seq 0 m)) with (S <$> seq 0 m).
    rewrite <- list_fmap_compose.
    transitivity (take 4 l ++ drop 4 l); [|apply take_drop].
    f_equal. etransitivity; [|apply (IH (drop 4 l)); rewrite length_drop; lia].
    f_equal. apply list_fmap_ext. intros _ k _. simpl.
    rewrite drop_drop. do 2 f_equal. lia.
Qed.

Lemma line_boxes_concat line :
  concat (line_boxes line) = drop 1 (split (strip line)).
Proof.
  unfold line_boxes. destruct (split (strip line)) as [|p vals]; [done|].
  cbn [drop]. rewrite drop_0.
  destruct (5 <=? length (p :: vals)); cbn [andb]; [|by rewrite <- (app_nil_r vals) at 2].
  destruct (Nat.eqb_spec (length vals mod 4) 0) as [Hm|];
    [|by rewrite <- (app_nil_r vals) at 2].
  rewrite range_by_four, <- list_fmap_compose by done.
  apply concat_chunks. pose proof (Nat.div_mod_eq (length vals) 4). lia.
Qed.

Lemma line_boxes_shape line :
  Forall (fun g => Forall (fun t => is_token t = true) g /\
                   (length g < 8 \/ length g mod 4 <> 0))
         (line_boxes line).
Proof.
  unfold line_boxes. pose proof (split_tokens (strip line)) as Htok.
  destruct (split (strip line)) as [|p vals]; [constructor|].
  apply Forall_cons in Htok as [_ Htok].
  destruct (Nat.leb_spec 5 (length (p :: vals))) as [H5|H5]; cbn [andb].
  - destruct (Nat.eqb_spec (length vals mod 4) 0) as [Hm|Hm].
    + apply Forall_fmap, Forall_forall. intros i _. simpl. split.
      * by apply Forall_take, Forall_drop.
      * left. rewrite length_take. lia.
    + constructor; [|constructor]. split; [done | by right].
  - constructor; [|constructor]. split; [done|]. left. simpl in H5. lia.
Qed.

Lemma line_boxes_join x g :
  is_token x = true -> Forall (fun t => is_token t = true) g ->
  length g < 8 \/ length g mod 4 <> 0 ->
  line_boxes (join " " (x :: g)) = [g].
Proof.
  intros Hx Hg Hshape. unfold line_boxes.
  rewrite strip_join, split_join by (done || by constructor).
  destruct (Nat.leb_spec 5 (length (x :: g))) as [H5|H5]; cbn [andb]; [|done].
  destruct (Nat.eqb_spec (length g mod 4) 0) as [Hm|Hm]; [|done].
  assert (length g = 4) as Hl.
  { simpl in H5. pose proof (Nat.div_mod_eq (length g) 4). lia. }
  rewrite Hl. change (range 0 4 4) with [0]. cbn [fmap list_fmap].
  by rewrite drop_0, take_ge by lia.
Qed.

(** X1. Remapping a label line keeps its value tokens: for an
    [append_line] that records the joined tokens (both scripts' do), the
    lines emitted for one source line are, for some grouping of the
    line's tokens after the first, the target id followed by the tokens
    of one group, joined by single spaces.  The groups taken together
    are exactly the value tokens of the source line in their order, so
    no value is dropped, duplicated, reordered or altered, whichever of
    the chunked, ragged and short paths the line takes; and each emitted
    line reads back, by [split], as the target id and its group. *)
Theorem remap_line_keeps_the_values al (tid : Z) (st : remap_state) (line : string) :
  appends al ->
  exists groups : list (list string),
    concat groups = drop 1 (split (strip line)) /\
    emitted st (remap_line al tid st line)
    = (fun g => join " " (str tid :: g)) <$> groups /\
    Forall (fun g => split (join " " (str tid :: g)) = str tid :: g) groups.
Proof.
  intros Hal. exists (line_boxes line). split; [apply line_boxes_concat|]. split.
  - unfold emitted. rewrite remap_line_boxes, foldl_boxes_out by done.
    by rewrite drop_app_length.
  - eapply Forall_impl; [apply line_boxes_shape|]. intros g [Hg _].
    apply split_join. constructor; [apply str_is_token | done].
Qed.

Lemma remap_line_keeps_the_values_witness :
  exists groups : list (list string),
    concat groups = ["a"; "b"; "c"; "d"; "e"; "f"; "g"; "h"] /\
    emitted (RemapState ["x"] ∅ 0)
            (remap_line (Merge1.append_line 2) 2 (RemapState ["x"] ∅ 0)
                        "  7 a b c d e f g h ")
    = (fun g => join " " (str 2 :: g)) <$> groups /\
    Forall (fun g => split (join " " (str 2 :: g)) = str 2 :: g) groups.
Proof.
  exact (remap_line_keeps_the_values (Merge1.append_line 2) 2
           (RemapState ["x"] ∅ 0) "  7 a b c d e f g h " (appends_merge1 2)).
Defined.

(** X2. Reading a written label file back: let a label file be
    remapped, starting from no output lines, by an [append_line] that
    records the joined tokens, and let the text handed to [write_text]
    be split into lines again.  Remapping those lines, with any target
    id and any [append_line], makes the same calls of [append_line], in
    the same order, as remapping the source lines: a merged label file
    holds one box per line, and merging a merged dataset counts and
    writes the boxes of the original. *)
Theorem remapping_the_written_labels
    al1 al2 (tid tid2 : Z) (st st' : remap_state) (lines : list string) :
  appends al1 -> out_lines st = [] ->
  remap_lines al2 tid2 st'
    (splitlines (output_text (out_lines (remap_lines al1 tid st lines))))
  = remap_lines al2 tid2 st' lines.
Proof.
  intros Hal Hst.
  rewrite (remap_lines_boxes al1), foldl_boxes_out, Hst, app_nil_l by done.
  rewrite (remap_lines_boxes al2 tid2 st' lines).
  assert (Forall (fun g => Forall (fun t => is_token t = true) g /\
                          (length g < 8 \/ length g mod 4 <> 0))
                 (concat (line_boxes <$> lines))) as Hshape.
  { apply Forall_concat, Forall_fmap, Forall_forall. intros l _.
    apply line_boxes_shape. }
  revert Hshape. generalize (concat (line_boxes <$> lines)). intros gs Hgs.
  rewrite splitlines_output_text.
  2:{ apply Forall_fmap. eapply Forall_impl; [exact Hgs|]. intros g [Hg _].
      apply join_no_break. constructor; [apply str_is_token | done]. }
  rewrite remap_lines_boxes. f_equal.
  induction Hgs as [|g gs [Hg Hlen] _ IH]; [done|].
  cbn [fmap list_fmap concat]. rewrite line_boxes_join by (done || apply str_is_token).
  simpl. f_equal. exact IH.
Qed.

Lemma remapping_the_written_labels_witness :
  remap_lines (Merge2.append_line 1) 1 (RemapState [] ∅ 0)
    (splitlines (output_text (out_lines
       (remap_lines (Merge1.append_line 0) 0 (RemapState [] ∅ 0)
          ["5 a b c d e f g h"; EmptyString; "3 x y"]))))
  = remap_lines (Merge2.append_line 1) 1 (RemapState [] ∅ 0)
      ["5 a b c d e f g h"; EmptyString; "3 x y"].
Proof.
  exact (remapping_the_written_labels (Merge1.append_line 0) (Merge2.append_line 1)
           0 1 (RemapState [] ∅ 0) (RemapState [] ∅ 0)
           ["5 a b c d e f g h"; EmptyString; "3 x y"] (appends_merge1 0) eq_refl).
Defined.

(** ** Sample runs *)

Lemma sample_merge2_run :
  exists r fs',
    Merge2.merge Samples.root ["data"; "out"] [Samples.cards] false Samples.tree
    = Ok (r, fs') /\ r.2 = 4.
Proof.
  assert (snd <$> returned (Merge2.merge Samples.root ["data"; "out"] [Samples.cards]
                              false Samples.tree) = Some 4) as H4
    by (vm_compute; reflexivity).
  destruct (Merge2.merge Samples.root ["data"; "out"] [Samples.cards] false Samples.tree)
    as [[r fs']|e]; [|discriminate H4].
  exists r, fs'. split; [reflexivity|]. simpl in H4. congruence.
Qed.

Lemma sample_merge2_preview :
  exists r fs',
    Merge2.merge Samples.root ["data"; "out"] [Samples.cards] true Samples.tree
    = Ok (r, fs') /\ r.2 = 4.
Proof.
  assert (snd <$> returned (Merge2.merge Samples.root ["data"; "out"] [Samples.cards]
                              true Samples.tree) = Some 4) as H4
    by (vm_compute; reflexivity).
  destruct (Merge2.merge Samples.root ["data"; "out"] [Samples.cards] true Samples.tree)
    as [[r fs']|e]; [|discriminate H4].
  exists r, fs'. split; [reflexivity|]. simpl in H4. congruence.
Qed.

Lemma sample_merge1_run :
  exists r fs',
    Merge1.merge Samples.root ["data"; "out"] false Samples.tree = Ok (r, fs') /\
    r.2 = 4.
Proof.
  assert (snd <$> returned (Merge1.merge Samples.root ["data"; "out"] false
                              Samples.tree) = Some 4) as H4
    by (vm_compute; reflexivity).
  destruct (Merge1.merge Samples.root ["data"; "out"] false Samples.tree)
    as [[r fs']|e]; [|discriminate H4].
  exists r, fs'. split; [reflexivity|]. simpl in H4. congruence.
Qed.

(** ** What a merge leaves of the tree it found *)

Section Frame.

Variable out : path.

Lemma grows_under_refl fs : grows_under out fs fs.
Proof.
  intros p. split; [|split; [|split]]; try done. intros H [? ?]; congruence.
Qed.

Lemma grows_under_trans fs1 fs2 fs3 :
  grows_under out fs1 fs2 -> grows_under out fs2 fs3 -> grows_under out fs1 fs3.
Proof.
  intros H12 H23 p.
  destruct (H12 p) as (A1 & A2 & A3 & A4), (H23 p) as (B1 & B2 & B3 & B4).
  split; [|split; [|split]].
  - intros Hs Hout. rewrite <- A1 by done. apply B1; [|done].
    rewrite A1 by done. done.
  - auto.
  - auto.
  - intros Hn Hs. destruct (fs2 !! p) as [n|] eqn:E2.
    + destruct A4 as [?|[? ?]]; [done | by eexists | by left|].
      right. split; [done|]. apply B2. congruence.
    + by apply B4.
Qed.

Lemma writes_under_ret {A} (a : A) : writes_under out (ret a).
Proof. intros fs b fs' [= _ <-]. apply grows_under_refl. Qed.

Lemma writes_under_bind {A B} (m : M A) (k : A -> M B) :
  writes_under out m -> (forall a, writes_under out (k a)) ->
  writes_under out (bind m k).
Proof.
  intros Hm Hk fs b fs' H. apply bind_Ok_inv in H as (a & fs1 & H1 & H2).
  eapply grows_under_trans; [by eapply Hm | by eapply Hk].
Qed.

Lemma writes_under_foldM {A S} (body : S -> A -> M S) (l : list A) :
  (forall s a, writes_under out (body s a)) ->
  forall s, writes_under out (foldM body s l).
Proof.
  intros Hb. induction l as [|a l IH]; intros s; simpl.
  - apply writes_under_ret.
  - apply writes_under_bind; [apply Hb | apply IH].
Qed.

Lemma writes_under_reads {A} (m : M A) : reads_only m -> writes_under out m.
Proof. intros Hm fs a fs' H. apply Hm in H as ->. apply grows_under_refl. Qed.

Lemma writes_under_when b (m : M unit) :
  writes_under out m -> writes_under out (when b m).
Proof. intros Hm. destruct b; [done | apply writes_under_ret]. Qed.

Lemma writes_under_mkdir_p q :
  out `prefix_of` q -> writes_under out (Os.mkdir_p q).
Proof.
  intros Hq fs [] fs' H. apply mkdir_p_Ok in H as [Hl Hk]. intros p.
  split; [|split; [|split]].
  - intros Hs _. by apply Hk.
  - intros Hd. rewrite Hk; [done | by eexists].
  - intros Hs. by rewrite Hk.
  - intros Hn Hs. rewrite Hl in Hs |- *. case_bool_decide as Hp.
    + destruct (prefix_weak_total _ _ _ Hq Hp); [by left | by right].
    + rewrite Hn in Hs. by destruct Hs.
Qed.

Lemma writes_under_write_file q c :
  out `prefix_of` q -> writes_under out (Os.write_file q c).
Proof.
  intros Hq fs [] fs' H.
  assert (fs !! q <> Some Dir /\ fs' = <[q := File c]> fs) as [Hnd ->].
  { unfold Os.write_file in H.
    destruct (fs !! q) as [[?|]|]; try done;
      destruct (fs !! parent q) as [[?|]|]; try done;
      (split; [done | congruence]). }
  intros p. destruct (decide (p = q)) as [->|Hne].
  - rewrite lookup_insert_eq. split; [|split; [|split]].
    + intros _ Hn. by destruct Hn.
    + done.
    + by intros _; eexists.
    + by left.
  - rewrite lookup_insert_ne by done. split; [|split; [|split]]; try done.
    intros Hn [? ?]. congruence.
Qed.

Lemma writes_under_copy2 src dst :
  out `prefix_of` dst -> writes_under out (Os.copy2 src dst).
Proof.
  intros Hq fs [] fs' H. unfold Os.copy2 in H.
  destruct (_ && _); [done|].
  destruct (fs !! src) as [[c|]|]; try done.
  eapply writes_under_write_file; [|exact H].
  destruct (is_dir_node (fs !! dst)); [by apply prefix_app_r | done].
Qed.

Lemma merge1_copy_image_under oi prefix dry_run n img :
  out `prefix_of` oi ->
  writes_under out (Merge1.copy_image oi prefix dry_run n img).
Proof.
  intros Hoi. unfold Merge1.copy_image.
  apply writes_under_bind; [apply writes_under_reads, reads_only_pure|].
  intros []; [|apply writes_under_ret].
  apply writes_under_bind; [|intros; apply writes_under_ret].
  apply writes_under_when, writes_under_bind.
  - rewrite parent_child. by apply writes_under_mkdir_p.
  - intros _. apply writes_under_copy2. by apply prefix_app_r.
Qed.

Lemma merge2_copy_image_under oi prefix dry_run n img :
  out `prefix_of` oi ->
  writes_under out (Merge2.copy_image oi prefix dry_run n img).
Proof.
  intros Hoi. unfold Merge2.copy_image.
  apply writes_under_bind; [|intros; apply writes_under_ret].
  apply writes_under_when, writes_under_bind.
  - rewrite parent_child. by apply writes_under_mkdir_p.
  - intros _. apply writes_under_copy2. by apply prefix_app_r.
Qed.

Lemma merge2_remap_label_under ol prefix tid dry_run acc lab :
  out `prefix_of` ol ->
  writes_under out (Merge2.remap_label ol prefix tid dry_run acc lab).
Proof.
  intros Hol. destruct acc as [[cc cl] bw]. unfold Merge2.remap_label.
  apply writes_under_bind.
  { apply writes_under_when. rewrite parent_child. by apply writes_under_mkdir_p. }
  intros _. apply writes_under_bind;
    [apply writes_under_reads, reads_only_read_text|]. intros text.
  apply writes_under_bind; [|intros; apply writes_under_ret].
  apply writes_under_when, writes_under_write_file. by apply prefix_app_r.
Qed.

Lemma merge1_remap_label_under ol prefix tid dry_run acc lab :
  out `prefix_of` ol ->
  writes_under out (Merge1.remap_label ol prefix tid dry_run acc lab).
Proof.
  intros Hol. destruct acc as [[cc cl] bw]. unfold Merge1.remap_label.
  apply writes_under_bind; [apply writes_under_reads, reads_only_pure|].
  intros []; [|apply writes_under_ret].
  apply writes_under_bind.
  { apply writes_under_when. rewrite parent_child. by apply writes_under_mkdir_p. }
  intros _. apply writes_under_bind;
    [apply writes_under_reads, reads_only_read_text|]. intros text.
  apply writes_under_bind; [|intros; apply writes_under_ret].
  apply writes_under_when, writes_under_write_file. by apply prefix_app_r.
Qed.

Lemma merge1_process_split_under ds split oi ol prefix tid counts dry_run :
  out `prefix_of` oi -> out `prefix_of` ol ->
  writes_under out (Merge1.process_split ds split oi ol prefix tid counts dry_run).
Proof.
  intros Hoi Hol. unfold Merge1.process_split.
  apply writes_under_bind; [apply writes_under_reads, reads_only_pure|]. intros ie.
  apply writes_under_bind.
  { apply writes_under_reads.
    destruct ie; [apply reads_only_pure | apply reads_only_ret]. }
  intros imgs.
  apply writes_under_bind; [apply writes_under_reads, reads_only_pure|]. intros le.
  apply writes_under_bind.
  { apply writes_under_reads.
    destruct le; [apply reads_only_pure | apply reads_only_ret]. }
  intros lbls. apply writes_under_bind.
  { apply writes_under_foldM. intros. by apply merge1_copy_image_under. }
  intros n. apply writes_under_bind.
  { apply writes_under_foldM. intros. by apply merge1_remap_label_under. }
  intros [[c1 c2] c3]. apply writes_under_ret.
Qed.

Lemma merge2_process_split_under ds k oi ol prefix tid counts dry_run :
  out `prefix_of` oi -> out `prefix_of` ol ->
  writes_under out (Merge2.process_split ds k oi ol prefix tid counts dry_run).
Proof.
  intros Hoi Hol. unfold Merge2.process_split, Merge2.find_split_dirs.
  apply writes_under_bind;
    [apply writes_under_reads, reads_only_find_in_aliases|].
  intros [[images_dir|] labels]; simpl; [|apply writes_under_ret].
  apply writes_under_bind; [apply writes_under_reads, reads_only_pure|].
  intros imgs. apply writes_under_bind.
  { apply writes_under_foldM. intros. by apply merge2_copy_image_under. }
  intros n. destruct labels as [labels_dir|]; [|apply writes_under_ret].
  apply writes_under_bind; [apply writes_under_reads, reads_only_pure|].
  intros lbls. apply writes_under_bind.
  { apply writes_under_foldM. intros. by apply merge2_remap_label_under. }
  intros [[c1 c2] c3]. apply writes_under_ret.
Qed.

Lemma make_output_dirs_under : writes_under out (Merge1.make_output_dirs out).
Proof.
  unfold Merge1.make_output_dirs. apply writes_under_foldM. intros _ s.
  apply writes_under_bind; [|intros _];
    apply writes_under_mkdir_p; by apply prefix_app_r.
Qed.

Lemma merge1_merge_dataset_under root dry_run acc entry :
  writes_under out (Merge1.merge_dataset root out dry_run acc entry).
Proof.
  destruct acc as [[st cc] tot], entry as [ds_name tid].
  unfold Merge1.merge_dataset.
  apply writes_under_bind; [apply writes_under_reads, reads_only_pure|].
  intros []; cbn [negb]; [|apply writes_under_ret].
  apply writes_under_foldM. intros [[st1 cc1] tot1] s.
  unfold Merge1.merge_split. apply writes_under_bind.
  - apply merge1_process_split_under; by apply prefix_app_r.
  - intros [[[ci cl] bx] counts']. apply writes_under_ret.
Qed.

Lemma merge2_merge_dataset_under dry_run acc ds :
  writes_under out (Merge2.merge_dataset out dry_run acc ds).
Proof.
  destruct acc as [[st cc] tot]. unfold Merge2.merge_dataset.
  apply writes_under_foldM. intros [[st1 cc1] tot1] k.
  unfold Merge2.merge_split. apply writes_under_bind.
  - apply merge2_process_split_under; by apply prefix_app_r.
  - intros [[[ci cl] bx] counts']. apply writes_under_ret.
Qed.

Lemma merge1_with_under datasets root dry_run :
  writes_under out (Merge1.merge_with datasets root out dry_run).
Proof.
  unfold Merge1.merge_with.
  apply writes_under_bind; [apply make_output_dirs_under|]. intros _.
  apply writes_under_bind.
  { apply writes_under_foldM. intros. apply merge1_merge_dataset_under. }
  intros r. apply writes_under_bind; [|intros; apply writes_under_ret].
  apply writes_under_when, writes_under_write_file. by apply prefix_app_r.
Qed.

Lemma merge2_under root datasets dry_run :
  writes_under out (Merge2.merge root out datasets dry_run).
Proof.
  unfold Merge2.merge.
  apply writes_under_bind; [apply make_output_dirs_under|]. intros _.
  apply writes_under_bind.
  { apply writes_under_foldM. intros. apply merge2_merge_dataset_under. }
  intros r. apply writes_under_bind; [|intros; apply writes_under_ret].
  apply writes_under_when, writes_under_write_file. by apply prefix_app_r.
Qed.

End Frame.

(** X3. A merge keeps what it found.  Whenever [merge] returns, in
    either script and in either mode, every node the tree had is still
    there; a node that is not at or below the output directory is as it
    was; a directory is still a directory; and every node that was not
    there before is at or below the output directory, or a directory on
    the way to it.  No source image or label is removed, truncated or
    replaced unless the output directory was placed around it. *)
Theorem merge_keeps_what_it_found
    (root out : path) (datasets : list path) (dry_run : bool)
    (fs fs' : gmap path node) (r : merge_result) :
  Merge1.merge root out dry_run fs = Ok (r, fs') \/
  Merge2.merge root out datasets dry_run fs = Ok (r, fs') ->
  forall p,
    (is_Some (fs !! p) -> ~ out `prefix_of` p -> fs' !! p = fs !! p) /\
    (fs !! p = Some Dir -> fs' !! p = Some Dir) /\
    (is_Some (fs !! p) -> is_Some (fs' !! p)) /\
    (fs !! p = None -> is_Some (fs' !! p) ->
     out `prefix_of` p \/ (p `prefix_of` out /\ fs' !! p = Some Dir)).
Proof.
  intros [H|H].
  - exact (merge1_with_under out Merge1.DATASETS root dry_run fs r fs' H).
  - exact (merge2_under out root datasets dry_run fs r fs' H).
Qed.

Lemma merge_keeps_what_it_found_witness :
  exists r fs',
    Merge2.merge Samples.root ["data"; "out"] [Samples.cards] false Samples.tree
    = Ok (r, fs') /\
    fs' !! (Samples.cards ++ ["train"; "labels"; "a.txt"])
    = Samples.tree !! (Samples.cards ++ ["train"; "labels"; "a.txt"]) /\
    fs' !! Samples.cards = Some Dir.
Proof.
  destruct sample_merge2_run as (r & fs' & Hrun & _).
  exists r, fs'. split; [exact Hrun|].
  pose proof (merge_keeps_what_it_found Samples.root ["data"; "out"] [Samples.cards]
                false Samples.tree fs' r (or_intror Hrun)) as Hkeep.
  split.
  - apply (Hkeep (Samples.cards ++ ["train"; "labels"; "a.txt"])).
    + vm_compute. by eexists.
    + intros [k Hk]. discriminate Hk.
  - apply (Hkeep Samples.cards). vm_compute. reflexivity.
Defined.

(** ** The keys of the tally *)

Lemma remap_lines_counts tid st lines :
  let st' := remap_lines (Merge2.append_line tid) tid st lines in
  bbox_written st <= bbox_written st' /\
  class_counts st'
  = Nat.iter (bbox_written st' - bbox_written st) (incr tid) (class_counts st).
Proof.
  apply (remap_lines_ind (Merge2.append_line tid) tid
           (fun a b => bbox_written a <= bbox_written b /\
                       class_counts b
                       = Nat.iter (bbox_written b - bbox_written a) (incr tid)
                                  (class_counts a))).
  - intros a. by rewrite Nat.sub_diag.
  - intros a b rest [Hle Hc]. simpl. split; [lia|].
    replace (S (bbox_written b) - bbox_written a)
      with (S (bbox_written b - bbox_written a)) by lia.
    simpl. by rewrite Hc.
Qed.

Lemma merge2_process_split_counts ds k oi ol prefix tid counts dry_run fs
    ci cl bx counts' fs' :
  Merge2.process_split ds k oi ol prefix tid counts dry_run fs
    = Ok ((ci, cl, bx, counts'), fs') ->
  counts' = Nat.iter bx (incr tid) counts.
Proof.
  unfold Merge2.process_split. intros H.
  apply bind_Ok_inv in H as (dirs & fs1 & _ & H).
  destruct dirs.1 as [images_dir|];
    [|unfold ret in H; by injection H as _ _ <- <- _].
  apply bind_Ok_inv in H as (imgs & fs2 & _ & H).
  apply bind_Ok_inv in H as (n & fs3 & _ & H).
  destruct dirs.2 as [labels_dir|];
    [|unfold ret in H; by injection H as _ _ <- <- _].
  apply bind_Ok_inv in H as (lbls & fs4 & _ & H).
  apply bind_Ok_inv in H as ([[c1 c2] c3] & fs5 & Hloop & H).
  unfold ret in H. injection H as _ _ <- <- _.
  apply (foldM_inv _ (fun s => s.1.1 = Nat.iter s.2 (incr tid) counts))
    in Hloop; [done | | done].
  intros [[cc l] w] lab fs7 s' fs8 _ Hs Hstep. simpl in Hs.
  apply merge2_remap_label_Ok in Hstep as [text ->]. simpl.
  destruct (remap_lines_counts tid (RemapState [] cc w) (splitlines text)) as [Hle Hc].
  cbn zeta in Hle, Hc. cbn [fst snd].
  set (st' := remap_lines _ _ _ _) in *. cbn [bbox_written class_counts] in Hle, Hc.
  rewrite Hc, Hs, <- Nat.iter_add. f_equal. lia.
Qed.

Lemma merge1_process_split_counts ds split oi ol prefix tid counts dry_run fs
    ci cl bx counts' fs' :
  Merge1.process_split ds split oi ol prefix tid counts dry_run fs
    = Ok ((ci, cl, bx, counts'), fs') ->
  counts' = Nat.iter bx (incr tid) counts.
Proof.
  unfold Merge1.process_split. intros H.
  apply bind_Ok_inv in H as (ie & fs1 & _ & H).
  apply bind_Ok_inv in H as (image_files & fs2 & _ & H).
  apply bind_Ok_inv in H as (le & fs3 & _ & H).
  apply bind_Ok_inv in H as (label_files & fs4 & _ & H).
  apply bind_Ok_inv in H as (n & fs5 & _ & H).
  apply bind_Ok_inv in H as ([[c1 c2] c3] & fs6 & Hloop & H).
  unfold ret in H. injection H as _ _ <- <- _.
  apply (foldM_inv _ (fun s => s.1.1 = Nat.iter s.2 (incr tid) counts))
    in Hloop; [done | | done].
  intros [[cc l] w] lab fs7 s' fs8 _ Hs Hstep. simpl in Hs.
  apply merge1_remap_label_Ok in Hstep as [->|[text ->]]; [done|]. simpl.
  destruct (remap_lines_counts tid (RemapState [] cc w) (splitlines text)) as [Hle Hc].
  cbn zeta in Hle, Hc. cbn [fst snd].
  set (st' := remap_lines _ _ _ _) in *. cbn [bbox_written class_counts] in Hle, Hc.
  rewrite Hc, Hs, <- Nat.iter_add. f_equal. lia.
Qed.

Lemma iter_incr_lookup tid n counts k :
  Nat.iter n (incr tid) counts !! k
  = if decide (k = tid)
    then (if n =? 0 then counts !! k else Some (n + default 0 (counts !! k)))
    else counts !! k.
Proof.
  induction n as [|n IH]; simpl; [by destruct (decide _)|].
  unfold incr at 1. destruct (decide (k = tid)) as [->|Hne].
  - rewrite lookup_insert_eq, IH.
    destruct (n =? 0) eqn:E; [apply Nat.eqb_eq in E as ->; done|]. done.
  - by rewrite lookup_insert_ne.
Qed.

Lemma merge1_tally_keys datasets root out dry_run fs r fs' :
  Merge1.merge_with datasets root out dry_run fs = Ok (r, fs') ->
  forall k n, r.1.2 !! k = Some n -> 0 < n /\ k ∈ datasets.*2.
Proof.
  intros H. unfold Merge1.merge_with in H.
  apply bind_Ok_inv in H as (u & fs1 & _ & H).
  apply bind_Ok_inv in H as (r1 & fs2 & Hloop & H).
  apply bind_Ok_inv in H as (u2 & fs3 & _ & H).
  unfold ret in H. injection H as <- _.
  set (I := fun acc : merge_result =>
              forall k n, acc.1.2 !! k = Some n -> 0 < n /\ k ∈ datasets.*2).
  refine (foldM_inv _ I _ _ _ _ _ _ _ Hloop);
    [|intros k n; cbn [fst snd]; by rewrite lookup_empty].
  intros [[st cc] tot] [ds_name tid] fs4 acc' fs5 Hin Hacc Hstep.
  unfold Merge1.merge_dataset in Hstep.
  apply bind_Ok_inv in Hstep as (e & fs6 & _ & Hstep).
  destruct e; cbn [negb] in Hstep; [|unfold ret in Hstep; by injection Hstep as <- _].
  assert (tid ∈ datasets.*2) as Htid.
  { apply list_elem_of_fmap. by exists (ds_name, tid). }
  refine (foldM_inv _ I _ _ _ _ _ _ _ Hstep); [|exact Hacc].
  intros [[st1 cc1] tot1] s fs7 acc1 fs8 _ Hacc1 Hsplit.
  unfold Merge1.merge_split in Hsplit.
  apply bind_Ok_inv in Hsplit as ([[[ci cl] bx] counts'] & fs9 & Hps & Hret).
  unfold ret in Hret. injection Hret as <- _.
  apply merge1_process_split_counts in Hps as ->.
  intros k n. cbn [fst snd]. rewrite iter_incr_lookup.
  destruct (decide (k = tid)) as [->|Hne].
  - destruct (Nat.eqb_spec bx 0) as [->|Hbx]; [apply Hacc1|].
    intros [= <-]. split; [lia | done].
  - apply Hacc1.
Qed.

Lemma merge2_tally_start dry_run out datasets fs r fs' :
  foldM (Merge2.merge_dataset out dry_run) (∅, ∅, 0) datasets fs = Ok (r, fs') ->
  r.1.2 = Nat.iter r.2 (incr Merge2.FORCED_TARGET_ID) ∅.
Proof.
  intros Hloop.
  apply (foldM_inv _ (fun acc => acc.1.2
                                 = Nat.iter acc.2 (incr Merge2.FORCED_TARGET_ID) ∅))
    in Hloop; [done | | done].
  intros [[st cc] tot] d fs4 acc' fs5 _ Hacc Hstep. simpl in Hacc.
  unfold Merge2.merge_dataset in Hstep.
  apply (foldM_inv _ (fun acc => acc.1.2
                                 = Nat.iter acc.2 (incr Merge2.FORCED_TARGET_ID) ∅))
    in Hstep; [done | | done].
  intros [[st1 cc1] tot1] k fs6 acc1 fs7 _ Hacc1 Hsplit. simpl in Hacc1.
  unfold Merge2.merge_split in Hsplit.
  apply bind_Ok_inv in Hsplit as ([[[ci cl] bx] counts'] & fs8 & Hps & Hret).
  unfold ret in Hret. injection Hret as <- _. simpl.
  apply merge2_process_split_counts in Hps as ->.
  rewrite Hacc1, <- Nat.iter_add. f_equal. lia.
Qed.

(** X4. The keys of the returned [class_counts] are target ids, never
    class ids read from a label file.  In the per-dataset-mapping script
    every key is a value of [DATASETS], its count is positive, and the
    name [main] prints for it is the entry of [UNIFIED_NAMES] at that
    index: the [str(cls_id)] alternative is never taken.  In the
    forced-id script [class_counts] is empty when no box was written and
    otherwise has the single key 1, whose count is [total_boxes]. *)
Theorem class_counts_have_target_id_keys
    (root out : path) (datasets : list path) (dry_run : bool)
    (fs fs' : gmap path node) (r : merge_result) :
  (Merge1.merge root out dry_run fs = Ok (r, fs') ->
   forall k n, r.1.2 !! k = Some n ->
     0 < n /\ k ∈ Merge1.DATASETS.*2 /\
     UNIFIED_NAMES !! Z.to_nat k = Some (Merge1.class_name k)) /\
  (Merge2.merge root out datasets dry_run fs = Ok (r, fs') ->
   r.1.2 = if r.2 =? 0 then ∅ else {[ Merge2.FORCED_TARGET_ID := r.2 ]}).
Proof.
  split.
  - intros H k n Hk.
    destruct (merge1_tally_keys _ _ _ _ _ _ _ H k n Hk) as [Hn Hin].
    split; [done|]. split; [done|].
    cbn in Hin. rewrite !elem_of_cons, elem_of_nil in Hin.
    destruct Hin as [->|[->|[->|[->|[]]]]]; reflexivity.
  - intros H. unfold Merge2.merge in H.
    apply bind_Ok_inv in H as (u & fs1 & _ & H).
    apply bind_Ok_inv in H as (r1 & fs2 & Hloop & H).
    apply bind_Ok_inv in H as (u2 & fs3 & _ & H).
    unfold ret in H. injection H as <- _.
    apply merge2_tally_start in Hloop. rewrite Hloop.
    apply map_eq. intros k. rewrite iter_incr_lookup.
    destruct (Nat.eqb_spec r1.2 0) as [E|E].
    + by destruct (decide _).
    + destruct (decide (k = Merge2.FORCED_TARGET_ID)) as [->|Hne].
      * by rewrite lookup_singleton_eq, lookup_empty, Nat.add_0_r.
      * by rewrite lookup_singleton_ne, lookup_empty.
Qed.

Lemma class_counts_have_target_id_keys_witness :
  exists r fs',
    Merge2.merge Samples.root ["data"; "out"] [Samples.cards] true Samples.tree
    = Ok (r, fs') /\
    r.1.2 = (if r.2 =? 0 then ∅ else {[ Merge2.FORCED_TARGET_ID := r.2 ]}) /\
    r.2 = 4.
Proof.
  destruct sample_merge2_preview as (r & fs' & Hrun & H4).
  exists r, fs'. split; [exact Hrun|]. split; [|exact H4].
  exact (proj2 (class_counts_have_target_id_keys Samples.root ["data"; "out"]
                  [Samples.cards] true Samples.tree fs' r) Hrun).
Defined.

(** ** The shape of [stats] *)

Lemma union_cons_shift (x : string) (A B : gset string) :
  {[x]} ∪ A ∪ B = A ∪ ({[x]} ∪ B).
Proof. by rewrite (comm_L (∪) {[x]} A), <- (assoc_L (∪)). Qed.

Lemma merge2_splits_stats ds_path out prefix dry_run keys :
  forall st cc tot per fs r fs',
    st !! name ds_path = Some per ->
    foldM (Merge2.merge_split ds_path out prefix dry_run) (st, cc, tot) keys fs
    = Ok (r, fs') ->
    exists per',
      r.1.1 = <[name ds_path := per']> st /\
      dom per' = dom per ∪ list_to_set (Merge2.key_name <$> keys).
Proof.
  induction keys as [|k keys IH]; intros st cc tot per fs r fs' Hper H; cbn [foldM] in H.
  - unfold ret in H. injection H as <- _. exists per. split.
    + by rewrite insert_id.
    + cbn. by rewrite (right_id_L ∅ (∪)).
  - apply bind_Ok_inv in H as ([[st1 cc1] tot1] & fs1 & Hstep & H).
    unfold Merge2.merge_split in Hstep.
    apply bind_Ok_inv in Hstep as ([[[ci cl] bx] counts'] & fs2 & _ & Hret).
    unfold ret in Hret. injection Hret as <- <- <- _.
    eapply IH in H as (per' & Hr & Hdom).
    2:{ rewrite lookup_alter_eq, Hper. reflexivity. }
    exists per'. split.
    + rewrite Hr. apply map_eq. intros d.
      destruct (decide (d = name ds_path)) as [->|Hne].
      * by rewrite !lookup_insert_eq.
      * by rewrite !lookup_insert_ne, lookup_alter_ne.
    + rewrite Hdom, dom_insert_L. apply union_cons_shift.
Qed.

Lemma merge1_splits_stats ds_name ds_path out prefix tid dry_run splits :
  forall st cc tot per fs r fs',
    st !! ds_name = Some per ->
    foldM (Merge1.merge_split ds_name ds_path out prefix tid dry_run) (st, cc, tot)
          splits fs = Ok (r, fs') ->
    exists per',
      r.1.1 = <[ds_name := per']> st /\
      dom per' = dom per ∪ list_to_set splits.
Proof.
  induction splits as [|k splits IH]; intros st cc tot per fs r fs' Hper H; cbn [foldM] in H.
  - unfold ret in H. injection H as <- _. exists per. split.
    + by rewrite insert_id.
    + cbn. by rewrite (right_id_L ∅ (∪)).
  - apply bind_Ok_inv in H as ([[st1 cc1] tot1] & fs1 & Hstep & H).
    unfold Merge1.merge_split in Hstep.
    apply bind_Ok_inv in Hstep as ([[[ci cl] bx] counts'] & fs2 & _ & Hret).
    unfold ret in Hret. injection Hret as <- <- <- _.
    eapply IH in H as (per' & Hr & Hdom).
    2:{ rewrite lookup_alter_eq, Hper. reflexivity. }
    exists per'. split.
    + rewrite Hr. apply map_eq. intros d.
      destruct (decide (d = ds_name)) as [->|Hne].
      * by rewrite !lookup_insert_eq.
      * by rewrite !lookup_insert_ne, lookup_alter_ne.
    + rewrite Hdom, dom_insert_L. apply union_cons_shift.
Qed.

Lemma merge2_datasets_stats out dry_run datasets :
  forall st cc tot fs r fs',
    foldM (Merge2.merge_dataset out dry_run) (st, cc, tot) datasets fs = Ok (r, fs') ->
    dom r.1.1 = dom st ∪ list_to_set (name <$> datasets) /\
    ((forall d per, st !! d = Some per -> dom per = list_to_set SPLITS) ->
     forall d per, r.1.1 !! d = Some per -> dom per = list_to_set SPLITS).
Proof.
  induction datasets as [|ds datasets IH]; intros st cc tot fs r fs' H; cbn [foldM] in H.
  - unfold ret in H. injection H as <- _. split; [|done].
    cbn. by rewrite (right_id_L ∅ (∪)).
  - apply bind_Ok_inv in H as ([[st1 cc1] tot1] & fs1 & Hstep & H).
    unfold Merge2.merge_dataset in Hstep.
    eapply merge2_splits_stats in Hstep as (per' & Hst1 & Hdom);
      [|apply lookup_insert_eq].
    simpl in Hst1. rewrite insert_insert_eq in Hst1. subst st1.
    apply IH in H as [Hd Hshape]. split.
    + rewrite Hd, dom_insert_L. apply union_cons_shift.
    + intros Hst. apply Hshape. intros d per.
      destruct (decide (d = name ds)) as [->|Hne].
      * rewrite lookup_insert_eq. intros [= <-]. rewrite Hdom, dom_empty_L.
        by rewrite (left_id_L ∅ (∪)).
      * rewrite lookup_insert_ne by done. apply Hst.
Qed.

Lemma merge1_datasets_stats root out dry_run datasets :
  forall st cc tot fs r fs',
    foldM (Merge1.merge_dataset root out dry_run) (st, cc, tot) datasets fs
    = Ok (r, fs') ->
    (forall ds, is_Some (st !! ds) -> is_Some (r.1.1 !! ds)) /\
    (forall ds, ds ∈ datasets.*1 -> is_Some (fs !! (root ++ [ds])) ->
                is_Some (r.1.1 !! ds)) /\
    (forall ds, is_Some (r.1.1 !! ds) ->
                is_Some (st !! ds) \/
                (ds ∈ datasets.*1 /\ is_Some (fs' !! (root ++ [ds])))) /\
    ((forall d per, st !! d = Some per -> dom per = list_to_set SPLITS) ->
     forall d per, r.1.1 !! d = Some per -> dom per = list_to_set SPLITS).
Proof.
  induction datasets as [|[ds_name tid] datasets IH];
    intros st cc tot fs r fs' H; cbn [foldM] in H.
  - unfold ret in H. injection H as <- _.
    split; [done|]. split; [by intros ds ?%elem_of_nil|]. split; [by left | done].
  - apply bind_Ok_inv in H as ([[st1 cc1] tot1] & fs1 & Hstep & H).
    pose proof (merge1_merge_dataset_under out root dry_run _ _ _ _ _ Hstep) as Hg1.
    assert (grows_under out fs1 fs') as Hg2.
    { revert H. apply writes_under_foldM. intros. apply merge1_merge_dataset_under. }
    apply IH in H as (Hkeep & Hin & Hout & Hshape).
    unfold Merge1.merge_dataset in Hstep.
    apply bind_Ok_inv in Hstep as (e & fs2 & He & Hstep).
    unfold Os.exists_ in He. injection He as <- <-.
    case_bool_decide as Hex; cbn [negb] in Hstep.
    + eapply merge1_splits_stats in Hstep as (per' & Hst1 & Hdom);
        [|apply lookup_insert_eq].
      simpl in Hst1. rewrite insert_insert_eq in Hst1. subst st1.
      split; [|split; [|split]].
      * intros ds Hds. apply Hkeep.
        destruct (decide (ds = ds_name)) as [->|Hne];
          [by rewrite lookup_insert_eq | by rewrite lookup_insert_ne].
      * intros ds Hds Hfs. cbn in Hds. apply elem_of_cons in Hds as [->|Hds].
        -- apply Hkeep. by rewrite lookup_insert_eq.
        -- apply Hin; [done|]. by apply (Hg1 (root ++ [ds])).
      * intros ds Hds. destruct (Hout ds Hds) as [Hst|[Hd Hfs]].
        -- destruct (decide (ds = ds_name)) as [->|Hne].
           ++ right. split; [cbn; apply list_elem_of_here|].
              apply (Hg2 (root ++ [ds_name])), (Hg1 (root ++ [ds_name])), Hex.
           ++ left. by rewrite lookup_insert_ne in Hst.
        -- right. split; [cbn; by apply list_elem_of_further | done].
      * intros Hst. apply Hshape. intros d per.
        destruct (decide (d = ds_name)) as [->|Hne].
        -- rewrite lookup_insert_eq. intros [= <-]. rewrite Hdom, dom_empty_L.
           by rewrite (left_id_L ∅ (∪)).
        -- rewrite lookup_insert_ne by done. apply Hst.
    + unfold ret in Hstep. injection Hstep as <- <- <- <-.
      split; [done|]. split; [|split; [|done]].
      * intros ds Hds Hfs. cbn in Hds. apply elem_of_cons in Hds as [->|Hds]; [done|].
        by apply Hin.
      * intros ds Hds. destruct (Hout ds Hds) as [Hst|[Hd Hfs]]; [by left|].
        right. split; [cbn; by apply list_elem_of_further | done].
Qed.

(** X5. The shape of [stats].  In the forced-id script the keys of
    [stats] are exactly the directory names of the datasets passed in;
    in the per-dataset-mapping script every [DATASETS] folder that
    exists under the root when [merge] starts has an entry, and every
    entry belongs to a [DATASETS] folder that exists when [merge]
    returns.  In both scripts every entry has exactly the three splits
    train, valid and test, whether the split was found or not. *)
Theorem stats_cover_the_datasets
    (root out : path) (datasets : list path) (dry_run : bool)
    (fs fs' : gmap path node) (r : merge_result) :
  (Merge1.merge root out dry_run fs = Ok (r, fs') ->
   (forall ds, ds ∈ Merge1.DATASETS.*1 -> is_Some (fs !! (root ++ [ds])) ->
               is_Some (r.1.1 !! ds)) /\
   (forall ds, is_Some (r.1.1 !! ds) ->
               ds ∈ Merge1.DATASETS.*1 /\ is_Some (fs' !! (root ++ [ds]))) /\
   (forall ds per, r.1.1 !! ds = Some per -> dom per = list_to_set SPLITS)) /\
  (Merge2.merge root out datasets dry_run fs = Ok (r, fs') ->
   dom r.1.1 = list_to_set (name <$> datasets) /\
   (forall ds per, r.1.1 !! ds = Some per -> dom per = list_to_set SPLITS)).
Proof.
  split; intros H.
  - unfold Merge1.merge, Merge1.merge_with in H.
    apply bind_Ok_inv in H as ([] & fs1 & Hmk & H).
    apply bind_Ok_inv in H as (r1 & fs2 & Hloop & H).
    apply bind_Ok_inv in H as ([] & fs3 & Hyaml & H).
    unfold ret in H. injection H as <- <-.
    pose proof (make_output_dirs_under out _ _ _ Hmk) as Hg1.
    assert (grows_under out fs2 fs3) as Hg3.
    { revert Hyaml. apply writes_under_when, writes_under_write_file.
      by apply prefix_app_r. }
    apply merge1_datasets_stats in Hloop as (_ & Hin & Hout & Hshape).
    split; [|split].
    + intros ds Hds Hfs. apply Hin; [done|]. by apply (Hg1 (root ++ [ds])).
    + intros ds Hds. destruct (Hout ds Hds) as [Hst|[Hd Hfs]].
      * rewrite lookup_empty in Hst. by destruct Hst.
      * split; [done|]. by apply (Hg3 (root ++ [ds])).
    + apply Hshape. intros d per. by rewrite lookup_empty.
  - unfold Merge2.merge in H.
    apply bind_Ok_inv in H as ([] & fs1 & Hmk & H).
    apply bind_Ok_inv in H as (r1 & fs2 & Hloop & H).
    apply bind_Ok_inv in H as ([] & fs3 & Hyaml & H).
    unfold ret in H. injection H as <- <-.
    apply merge2_datasets_stats in Hloop as [Hd Hshape]. split.
    + rewrite Hd, dom_empty_L. by rewrite (left_id_L ∅ (∪)).
    + apply Hshape. intros d per. by rewrite lookup_empty.
Qed.

Lemma stats_cover_the_datasets_witness :
  exists r fs',
    Merge1.merge Samples.root ["data"; "out"] false Samples.tree = Ok (r, fs') /\
    is_Some (r.1.1 !! "credit-cards.yolov11") /\
    (forall ds per, r.1.1 !! ds = Some per -> dom per = list_to_set SPLITS).
Proof.
  destruct sample_merge1_run as (r & fs' & Hrun & _).
  exists r, fs'. split; [exact Hrun|].
  destruct (proj1 (stats_cover_the_datasets Samples.root ["data"; "out"] [] false
                     Samples.tree fs' r) Hrun) as (Hin & _ & Hshape).
  split; [|exact Hshape].
  apply Hin; [compute_done | vm_compute; by eexists].
Defined.

(** ** What a merge leaves under the output directory *)

Lemma make_output_dirs_elsewhere out fs fs' q :
  Merge1.make_output_dirs out fs = Ok (tt, fs') ->
  (forall d, d ∈ out_dirs out -> ~ q `prefix_of` d) ->
  fs' !! q = fs !! q.
Proof.
  intros H Hq.
  assert (forall dirs (fs fs' : gmap path node),
            foldM (fun (_ : unit) d => Os.mkdir_p d) tt dirs fs = Ok (tt, fs') ->
            (forall d, d ∈ dirs -> ~ q `prefix_of` d) -> fs' !! q = fs !! q) as Hgen.
  { clear. induction dirs as [|d dirs IH]; intros fs fs' H Hq; cbn [foldM] in H.
    - unfold ret in H. by injection H as <-.
    - apply bind_Ok_inv in H as ([] & fs1 & Hmk & H).
      rewrite (IH fs1 fs' H) by (intros d' Hd'; apply Hq; by right).
      apply mkdir_p_Ok in Hmk as [Hl _]. rewrite Hl.
      rewrite bool_decide_false; [done | apply Hq; by left]. }
  apply (Hgen (out_dirs out)); [|done]. clear Hq Hgen.
  unfold Merge1.make_output_dirs, Merge1.make_dirs, out_dirs, SPLITS in *.
  cbn [foldM flat_map app] in *.
  repeat match type of H with
         | bind _ _ _ = Ok _ =>
             let u := fresh "u" in let f := fresh "fs" in let Hm := fresh "Hm" in
             apply bind_Ok_inv in H as (u & f & Hm & H); destruct u
         end.
  repeat match goal with
         | Hm : bind (Os.mkdir_p _) _ _ = Ok _ |- _ =>
             let u := fresh "u" in let f := fresh "fs" in let Hn := fresh "Hn" in
             apply bind_Ok_inv in Hm as (u & f & Hn & Hm); destruct u
         end.
  unfold ret in H. injection H as <-.
  repeat match goal with
         | Hm : Os.mkdir_p _ _ = Ok _ |- _ =>
             rewrite (bind_Ok _ _ _ _ _ Hm); clear Hm
         end.
  reflexivity.
Qed.

Lemma yaml_not_on_the_way out d :
  d ∈ out_dirs out -> ~ (out ++ ["data.yaml"]) `prefix_of` d.
Proof.
  unfold out_dirs, SPLITS. cbn [flat_map app].
  rewrite !elem_of_cons, elem_of_nil.
  intros [->|[->|[->|[->|[->|[->|[]]]]]]] [k Hk];
    rewrite <- app_assoc in Hk; apply app_inv_head in Hk; discriminate Hk.
Qed.

Lemma merge_leaves_the_layout root out datasets dry_run fs r fs' :
  Merge1.merge root out dry_run fs = Ok (r, fs') \/
  Merge2.merge root out datasets dry_run fs = Ok (r, fs') ->
  out_ready out fs' /\
  fs' !! (out ++ ["data.yaml"])
  = if dry_run then fs !! (out ++ ["data.yaml"])
    else Some (File (Text data_yaml_text)).
Proof.
  intros H.
  assert (exists fs1 fs2,
            Merge1.make_output_dirs out fs = Ok (tt, fs1) /\
            grows_under out fs1 fs2 /\
            (dry_run = true -> fs2 = fs1) /\
            when (negb dry_run) (Os.write_text (out ++ ["data.yaml"]) data_yaml_text) fs2
            = Ok (tt, fs')) as (fs1 & fs2 & Hmk & Hg & Hdry & Hyaml).
  { destruct H as [H|H].
    - unfold Merge1.merge, Merge1.merge_with in H.
      apply bind_Ok_inv in H as ([] & fs1 & Hmk & H).
      apply bind_Ok_inv in H as (r1 & fs2 & Hloop & H).
      apply bind_Ok_inv in H as ([] & fs3 & Hyaml & H).
      unfold ret in H. injection H as _ <-.
      exists fs1, fs2. split; [done|]. split; [|split; [|done]].
      + revert Hloop. apply writes_under_foldM. intros.
        apply merge1_merge_dataset_under.
      + intros ->. injection Hyaml as <-.
        destruct (preview_only_makes_output_dirs root out datasets fs r1 fs2) as [Hp _].
        assert (Merge1.merge root out true fs = Ok (r1, fs2)) as Hrun.
        { unfold Merge1.merge, Merge1.merge_with.
          by rewrite (bind_Ok _ _ _ _ _ Hmk), (bind_Ok _ _ _ _ _ Hloop). }
        apply Hp in Hrun. congruence.
    - unfold Merge2.merge in H.
      apply bind_Ok_inv in H as ([] & fs1 & Hmk & H).
      apply bind_Ok_inv in H as (r1 & fs2 & Hloop & H).
      apply bind_Ok_inv in H as ([] & fs3 & Hyaml & H).
      unfold ret in H. injection H as _ <-.
      exists fs1, fs2. split; [done|]. split; [|split; [|done]].
      + revert Hloop. apply writes_under_foldM. intros.
        apply merge2_merge_dataset_under.
      + intros ->. injection Hyaml as <-.
        destruct (preview_only_makes_output_dirs root out datasets fs r1 fs2) as [_ Hp].
        assert (Merge2.merge root out datasets true fs = Ok (r1, fs2)) as Hrun.
        { unfold Merge2.merge.
          by rewrite (bind_Ok _ _ _ _ _ Hmk), (bind_Ok _ _ _ _ _ Hloop). }
        apply Hp in Hrun. pose proof (eq_trans (eq_sym Hrun) Hmk) as E.
        by injection E. }
  pose proof (make_output_dirs_ready out fs fs1 Hmk) as Hready.
  assert (out_ready out fs2) as Hready2.
  { intros d q Hd Hq. apply (Hg q), (Hready d q Hd Hq). }
  destruct dry_run; cbn [negb when] in Hyaml.
  - injection Hyaml as <-. split; [done|]. rewrite Hdry by done.
    apply (make_output_dirs_elsewhere out fs fs1); [done|].
    apply yaml_not_on_the_way.
  - unfold Os.write_text in Hyaml. apply write_file_Ok in Hyaml as ->. split.
    + intros d q Hd Hq. rewrite lookup_insert_ne; [by apply (Hready2 d q)|].
      intros <-. by apply (yaml_not_on_the_way out d).
    + by rewrite lookup_insert_eq.
Qed.

(** X6. What a merge leaves under the output directory.  Whenever
    [merge] returns, in either script and in either mode, the output
    directory and its six split directories are directories.  A run
    that is not a preview leaves [data.yaml] there with the paths of the
    three splits, [nc: 3] and the three unified names, whatever was
    merged; a preview leaves [data.yaml] as it was, absent if it was
    absent. *)
Theorem merge_leaves_layout_and_card
    (root out : path) (datasets : list path) (dry_run : bool)
    (fs fs' : gmap path node) (r : merge_result) :
  Merge1.merge root out dry_run fs = Ok (r, fs') \/
  Merge2.merge root out datasets dry_run fs = Ok (r, fs') ->
  fs' !! out = Some Dir /\
  (forall s sub, s ∈ SPLITS -> sub ∈ ["images"; "labels"] ->
                 fs' !! (out ++ [s; sub]) = Some Dir) /\
  fs' !! (out ++ ["data.yaml"])
  = (if dry_run then fs !! (out ++ ["data.yaml"])
     else Some (File (Text data_yaml_text))) /\
  splitlines data_yaml_text
  = [ "train: train/images"; "val: valid/images"; "test: test/images"; EmptyString;
      "nc: 3"; "names: ['credit_card', 'id_card', 'passport']" ].
Proof.
  intros H. apply merge_leaves_the_layout in H as [Hready Hyaml].
  split; [|split; [|split; [exact Hyaml | reflexivity]]].
  - apply (Hready (out ++ ["train"; "images"])); [|by apply prefix_app_r].
    apply list_elem_of_here.
  - intros s sub Hs Hsub. apply (Hready (out ++ [s; sub])); [|done].
    unfold SPLITS in Hs. rewrite !elem_of_cons, elem_of_nil in Hs.
    rewrite !elem_of_cons, elem_of_nil in Hsub.
    unfold out_dirs, SPLITS. cbn [flat_map app]. rewrite !elem_of_cons.
    destruct Hs as [->|[->|[->|[]]]], Hsub as [->|[->|[]]]; tauto.
Qed.

Lemma merge_leaves_layout_and_card_witness :
  exists r fs',
    Merge2.merge Samples.root ["data"; "out"] [Samples.cards] false Samples.tree
    = Ok (r, fs') /\
    fs' !! ["data"; "out"; "valid"; "labels"] = Some Dir /\
    fs' !! ["data"; "out"; "data.yaml"] = Some (File (Text data_yaml_text)).
Proof.
  destruct sample_merge2_run as (r & fs' & Hrun & _).
  exists r, fs'. split; [exact Hrun|].
  destruct (merge_leaves_layout_and_card Samples.root ["data"; "out"] [Samples.cards]
              false Samples.tree fs' r (or_intror Hrun)) as (_ & Hdirs & Hyaml & _).
  split; [|exact Hyaml].
  apply (Hdirs "valid" "labels"); compute_done.
Defined.

(** ** A merged output is a dataset *)

Lemma discovery_Ok glob root fs :
  fs !! root = Some Dir ->
  Merge2.resolve_datasets glob root None fs
  = Ok (List.filter (looks_like_yolo fs) (candidates glob fs root None), fs).
Proof.
  intros Hroot. unfold Merge2.resolve_datasets, candidates.
  unfold bind at 1. unfold bind at 1. unfold Os.iterdir. rewrite Hroot.
  rewrite (foldM_filter fs Merge2.keep_discovered
             (fun p => is_dir_node (fs !! p) && endswith (lower (name p)) ".yolov11"))
    by (intros f p; reflexivity).
  by rewrite foldM_keep_usable.
Qed.

Lemma out_ready_looks_like_yolo out fs :
  out_ready out fs -> looks_like_yolo fs out = true.
Proof.
  intros Hready.
  assert (forall s, s ∈ SPLITS -> fs !! (out ++ [s; "images"]) = Some Dir) as Hd.
  { intros s Hs. apply (Hready (out ++ [s; "images"])); [|done].
    unfold SPLITS in Hs. rewrite !elem_of_cons, elem_of_nil in Hs.
    unfold out_dirs, SPLITS. cbn [flat_map app]. rewrite !elem_of_cons.
    destruct Hs as [->|[->|[->|[]]]]; tauto. }
  unfold looks_like_yolo, split_resolves. cbn.
  rewrite (Hd "train"), (Hd "valid"), (Hd "test") by compute_done. reflexivity.
Qed.

(** X7. The output of a merge is itself a dataset for the forced-id
    script.  When the output directory is placed directly under the root
    and its name, lower-cased, ends in [.yolov11] (the default
    [merged_dataset.yolov11] does), then after [merge] has returned, in
    either script and even in a preview, dataset discovery from the same
    root returns, and the output directory is among the datasets it
    yields: a following run without [--datasets] merges the previous
    output into itself. *)
Theorem merged_output_is_discovered
    (glob : gmap path node -> path -> string -> list path)
    (root : path) (out_name : string) (datasets : list path) (dry_run : bool)
    (fs fs' : gmap path node) (r : merge_result) :
  endswith (lower out_name) ".yolov11" = true ->
  Merge1.merge root (root ++ [out_name]) dry_run fs = Ok (r, fs') \/
  Merge2.merge root (root ++ [out_name]) datasets dry_run fs = Ok (r, fs') ->
  exists usable,
    Merge2.resolve_datasets glob root None fs' = Ok (usable, fs') /\
    root ++ [out_name] ∈ usable.
Proof.
  intros Hname H. apply merge_leaves_the_layout in H as [Hready _].
  set (out := root ++ [out_name]) in *.
  assert (forall q, q `prefix_of` out -> fs' !! q = Some Dir) as Hdirs.
  { intros q Hq. apply (Hready (out ++ ["train"; "images"])).
    - apply list_elem_of_here.
    - by apply prefix_app_r. }
  assert (fs' !! root = Some Dir) as Hroot by (apply Hdirs; by apply prefix_app_r).
  assert (fs' !! out = Some Dir) as Hout by by apply Hdirs.
  eexists. split; [by apply discovery_Ok|].
  rewrite list_elem_of_In. apply filter_In. split.
  2:{ by apply out_ready_looks_like_yolo. }
  unfold candidates. apply filter_In. split.
  2:{ cbv beta. rewrite Hout. unfold out. by rewrite name_child, Hname. }
  apply filter_In. split.
  - rewrite <- list_elem_of_In. apply elem_of_walk. split; [done|]. split.
    + split; [by apply prefix_app_r|]. unfold out. intros E.
      apply (f_equal length) in E. rewrite length_app in E. simpl in E. lia.
    + by rewrite Hout.
  - cbv beta. unfold out. rewrite length_app. simpl. apply Nat.eqb_eq. lia.
Qed.

Lemma sample_default_out_preview :
  exists r fs',
    Merge2.merge Samples.root ["data"; "merged_dataset.yolov11"] [Samples.cards] true
                 Samples.tree = Ok (r, fs').
Proof.
  assert (snd <$> returned (Merge2.merge Samples.root ["data"; "merged_dataset.yolov11"]
                              [Samples.cards] true Samples.tree) = Some 4) as H4
    by (vm_compute; reflexivity).
  destruct (Merge2.merge Samples.root ["data"; "merged_dataset.yolov11"] [Samples.cards]
              true Samples.tree) as [[r fs']|e]; [|discriminate H4].
  by exists r, fs'.
Qed.

Lemma merged_output_is_discovered_witness :
  exists r fs' usable,
    Merge2.merge Samples.root ["data"; "merged_dataset.yolov11"] [Samples.cards] true
                 Samples.tree = Ok (r, fs') /\
    Merge2.resolve_datasets Samples.literal_glob Samples.root None fs'
    = Ok (usable, fs') /\
    ["data"; "merged_dataset.yolov11"] ∈ usable.
Proof.
  destruct sample_default_out_preview as (r & fs' & Hrun).
  destruct (merged_output_is_discovered Samples.literal_glob Samples.root
              "merged_dataset.yolov11" [Samples.cards] true Samples.tree fs' r
              eq_refl (or_intror Hrun)) as (usable & Hres & Hin).
  exists r, fs', usable. split; [exact Hrun|]. split; [exact Hres | exact Hin].
Defined.

(** ** Split directories and their aliases *)

Lemma find_in_aliases_first ds aliases fs :
  exists dirs,
    Merge2.find_in_aliases ds aliases fs = Ok (dirs, fs) /\
    match dirs.1 with
    | None =>
        dirs.2 = None /\
        forall a, a ∈ aliases -> is_dir_node (fs !! (ds ++ [a; "images"])) = false
    | Some images =>
        exists before a after,
          aliases = before ++ a :: after /\
          images = ds ++ [a; "images"] /\ fs !! images = Some Dir /\
          (forall b, b ∈ before -> is_dir_node (fs !! (ds ++ [b; "images"])) = false) /\
          dirs.2 = (if bool_decide (is_Some (fs !! (ds ++ [a; "labels"])))
                    then Some (ds ++ [a; "labels"]) else None)
    end.
Proof.
  induction aliases as [|alias rest IH]; cbn [Merge2.find_in_aliases].
  - eexists. split; [reflexivity|]. simpl. split; [done|]. by intros a ?%elem_of_nil.
  - unfold bind at 1. unfold Os.exists_ at 1. unfold bind at 1. unfold Os.is_dir at 1.
    destruct (is_dir_node (fs !! (ds ++ [alias; "images"]))) eqn:Ed.
    + assert (fs !! (ds ++ [alias; "images"]) = Some Dir) as Hd
        by (by destruct (fs !! (ds ++ [alias; "images"])) as [[?|]|]).
      rewrite bool_decide_true by (by rewrite Hd). cbn [andb].
      eexists. split; [reflexivity|]. cbn [fst snd].
      exists [], alias, rest. split; [done|]. split; [done|]. split; [done|].
      split; [by intros b ?%elem_of_nil | done].
    + rewrite andb_false_r. destruct IH as (dirs & Hrun & Hspec).
      exists dirs. split; [exact Hrun|]. destruct dirs.1 as [images|].
      * destruct Hspec as (before & a & after & -> & Hi & Hd & Hb & Hl).
        exists (alias :: before), a, after. split; [done|]. split; [done|].
        split; [done|]. split; [|done].
        intros b [->|Hin]%elem_of_cons; [done | by apply Hb].
      * destruct Hspec as [Hn Hall]. split; [done|].
        intros a [->|Hin]%elem_of_cons; [done | by apply Hall].
Qed.

(** X8. [find_split_dirs] never raises and never changes the tree.  It
    yields the image directory of the first alias, in the order of
    [SPLIT_ALIASES], whose [images] entry is a directory: for the split
    [valid], [valid/images] wins over [val/images].  The label
    directory comes from that same alias, and is yielded when anything
    exists under that name, a directory or not.  When no alias has an
    [images] directory both results are [None], also when a [labels]
    directory is there. *)
Theorem find_split_dirs_takes_the_first_alias
    (ds : path) (k : Merge2.split_key) (fs : gmap path node) :
  exists dirs,
    Merge2.find_split_dirs ds k fs = Ok (dirs, fs) /\
    match dirs.1 with
    | None =>
        dirs.2 = None /\
        forall a, a ∈ Merge2.SPLIT_ALIASES k ->
                  is_dir_node (fs !! (ds ++ [a; "images"])) = false
    | Some images =>
        exists before a after,
          Merge2.SPLIT_ALIASES k = before ++ a :: after /\
          images = ds ++ [a; "images"] /\ fs !! images = Some Dir /\
          (forall b, b ∈ before -> is_dir_node (fs !! (ds ++ [b; "images"])) = false) /\
          dirs.2 = (if bool_decide (is_Some (fs !! (ds ++ [a; "labels"])))
                    then Some (ds ++ [a; "labels"]) else None)
    end.
Proof. apply find_in_aliases_first. Qed.

(** ** File-name prefixes *)

Lemma replace_char_one a b s :
  list_ascii_of_string (replace_char a (String b EmptyString) s)
  = (fun c => if code c =? code a then b else c) <$> list_ascii_of_string s.
Proof.
  induction s as [|c s IH]; [done|]. cbn [replace_char list_ascii_of_string].
  destruct (code c =? code a) eqn:E; rewrite append_cons, append_nil_l;
    cbn [list_ascii_of_string fmap list_fmap]; rewrite E; f_equal; exact IH.
Qed.

Lemma list_ascii_inj s t :
  list_ascii_of_string s = list_ascii_of_string t -> s = t.
Proof.
  intros H. rewrite <- (string_of_list_ascii_of_string s),
              <- (string_of_list_ascii_of_string t). by rewrite H.
Qed.

Lemma length_list_ascii s : length (list_ascii_of_string s) = String.length s.
Proof. induction s as [|c s IH]; [done|]. simpl. by rewrite IH. Qed.

Lemma all_chars_Forall P s :
  all_chars P s = true <-> Forall (fun c => P c = true) (list_ascii_of_string s).
Proof.
  induction s as [|c s IH]; simpl; [by split; [constructor|]|].
  rewrite andb_true_iff, Forall_cons, IH. done.
Qed.

Lemma sanitize_prefix_map s :
  list_ascii_of_string (Merge2.sanitize_prefix s)
  = (fun c => if unsafe_char c then "_"%char else c) <$> list_ascii_of_string s.
Proof.
  unfold Merge2.sanitize_prefix. rewrite !replace_char_one.
  rewrite <- !list_fmap_compose. apply list_fmap_ext. intros _ c _. simpl.
  unfold unsafe_char.
  change (code "/") with 47. change (code " ") with 32. change (code ".") with 46.
  change (code "_") with 95.
  destruct (Nat.eqb_spec (code c) 47) as [E1|H1]; [done|].
  destruct (Nat.eqb_spec (code c) 32) as [E2|H2]; [done|].
  destruct (Nat.eqb_spec (code c) 46) as [E3|H3]; done.
Qed.

Lemma sanitize_prefix_safe s :
  all_chars (fun c => negb (unsafe_char c)) (Merge2.sanitize_prefix s) = true.
Proof.
  apply all_chars_Forall. rewrite sanitize_prefix_map.
  apply Forall_fmap, Forall_forall. intros c _. simpl.
  by destruct (unsafe_char c) eqn:E; [|rewrite E].
Qed.

(** X9. [sanitize_prefix] works character by character: the path
    separator, the space and the dot each become an underscore and
    every other character stays.  The result has the length of the
    name, holds none of the three characters, so that the prefixed file
    name is a single path component, and sanitizing it again changes
    nothing.  Two different names can get the same prefix. *)
Theorem sanitize_prefix_by_character (nm : string) :
  list_ascii_of_string (Merge2.sanitize_prefix nm)
  = (fun c => if unsafe_char c then "_"%char else c) <$> list_ascii_of_string nm /\
  String.length (Merge2.sanitize_prefix nm) = String.length nm /\
  all_chars (fun c => negb (unsafe_char c)) (Merge2.sanitize_prefix nm) = true /\
  Merge2.sanitize_prefix (Merge2.sanitize_prefix nm) = Merge2.sanitize_prefix nm /\
  Merge2.sanitize_prefix "a.b" = Merge2.sanitize_prefix "a b".
Proof.
  split; [apply sanitize_prefix_map|]. split; [|split; [|split; [|reflexivity]]].
  - rewrite <- !length_list_ascii, sanitize_prefix_map. apply length_fmap.
  - apply sanitize_prefix_safe.
  - apply list_ascii_inj. rewrite sanitize_prefix_map.
    rewrite <- (list_fmap_id (list_ascii_of_string (Merge2.sanitize_prefix nm))) at 2.
    apply Forall_fmap_ext_1. eapply Forall_impl;
      [apply all_chars_Forall, sanitize_prefix_safe|].
    intros c Hc. simpl in *. by destruct (unsafe_char c).
Qed.

(** ** The exported artefact *)

(** X10. [find_coreml_path] on a list yields an item of the list: the
    first whose suffix is [.mlmodel] or [.mlpackage], also when other
    items come before it, and the first item when no suffix matches.
    Only the empty list has no result ([x[0]] raises).  A value that is
    not a list is taken as the path.  The comparison is on the exact
    suffix: [.MLMODEL] does not match. *)
Theorem find_coreml_path_picks_the_artefact (x : CoreML.export_out) :
  match x with
  | CoreML.One p => CoreML.find_coreml_path x = Some p
  | CoreML.Many xs =>
      (CoreML.find_coreml_path x = None <-> xs = []) /\
      (forall p, CoreML.find_coreml_path x = Some p ->
         p ∈ xs /\
         ((is_coreml p = true /\
           exists before after,
             xs = before ++ p :: after /\
             Forall (fun q => is_coreml q = false) before) \/
          (Forall (fun q => is_coreml q = false) xs /\ xs !! 0 = Some p)))
  end /\
  is_coreml ["best.MLMODEL"] = false.
Proof.
  split; [|reflexivity]. destruct x as [p|xs]; [reflexivity|].
  unfold CoreML.find_coreml_path. fold is_coreml.
  change (fun p => bool_decide (suffix p = ".mlmodel")
                   || bool_decide (suffix p = ".mlpackage")) with is_coreml.
  induction xs as [|q xs IH]; [by split; [|intros p [=]]|].
  cbn [List.find]. destruct (is_coreml q) eqn:Eq.
  - split; [by split|]. intros p [= <-]. split; [by left|]. left.
    split; [done|]. by exists [], xs.
  - destruct IH as [Hnone Hsome]. split.
    + split; [|done]. by destruct (List.find is_coreml xs).
    + intros p Hp. destruct (List.find is_coreml xs) as [p'|] eqn:Ef.
      * injection Hp as ->. destruct (Hsome p eq_refl) as [Hin [Hc|Hc]].
        -- split; [by right|]. left. destruct Hc as (Hp & before & after & -> & Hb).
           split; [done|]. exists (q :: before), after. split; [done|].
           by constructor.
        -- destruct Hc as [Hall _]. apply find_some in Ef as [Hin' Hc'].
           rewrite Forall_forall in Hall. rewrite <- list_elem_of_In in Hin'.
           rewrite Hall in Hc' by done. discriminate.
      * simpl in Hp. injection Hp as <-. split; [by left|]. right. split; [|done].
        constructor; [done|]. apply Forall_forall. intros z Hz.
        destruct (is_coreml z) eqn:Ez; [|done].
        rewrite list_elem_of_In in Hz.
        by pose proof (find_none _ _ Ef z Hz) as Hn; simpl in Hn; congruence.
Qed.

(** ** Names in the output *)

Lemma rfind_dot_app a b :
  rfind_dot (a +:+ b)
  = match rfind_dot b with
    | Some i => Some (String.length a + i)
    | None => rfind_dot a
    end.
Proof.
  induction a as [|c a IH]; [rewrite append_nil_l; by destruct (rfind_dot b)|].
  rewrite append_cons. cbn [rfind_dot]. rewrite IH.
  by destruct (rfind_dot b).
Qed.

Lemma rfind_dot_none a :
  all_chars (fun c => negb (code c =? 46)) a = true -> rfind_dot a = None.
Proof.
  induction a as [|c a IH]; [done|]. cbn [all_chars rfind_dot].
  intros [Hc Ha]%andb_prop. rewrite IH by done.
  by apply negb_true_iff in Hc as ->.
Qed.

Lemma drop_chars_app a b i :
  drop_chars (String.length a + i) (a +:+ b) = drop_chars i b.
Proof.
  induction a as [|c a IH]; [by rewrite append_nil_l|]. by rewrite append_cons.
Qed.

Lemma take_chars_app a b i :
  take_chars (String.length a + i) (a +:+ b) = a +:+ take_chars i b.
Proof.
  induction a as [|c a IH]; [by rewrite !append_nil_l|].
  rewrite !append_cons. simpl. by rewrite IH.
Qed.

Lemma prefixed_name_parts (q nm : string) :
  rfind_dot q = None ->
  suffix_of nm <> EmptyString ->
  suffix_of (q +:+ nm) = suffix_of nm /\
  match rfind_dot nm with
  | Some i =>
      rfind_dot (q +:+ nm) = Some (String.length q + i) /\
      (0 <? String.length q + i)
      && (String.length q + i <? String.length (q +:+ nm) - 1) = true
  | None => False
  end.
Proof.
  intros Hn Hs. unfold suffix_of in *. rewrite rfind_dot_app, Hn.
  destruct (rfind_dot nm) as [i|]; [|done].
  destruct (Nat.ltb_spec 0 i) as [H0|]; [|done]. cbn [andb] in *.
  destruct (Nat.ltb_spec i (String.length nm - 1)) as [H1|]; [|done].
  assert ((0 <? String.length q + i)
          && (String.length q + i <? String.length (q +:+ nm) - 1) = true) as Hc.
  { rewrite length_append. apply andb_true_intro. split; apply Nat.ltb_lt; lia. }
  rewrite Hc. split; [apply drop_chars_app | by split].
Qed.

(** X17. Files keep their extension and their pairing in the output.
    The name a file gets in the output is the dataset prefix, an
    underscore and the file's own name.  In both scripts the prefix
    holds no dot, so for a file whose name has a suffix the new name has
    the same suffix, and its stem is the prefix, an underscore and the
    old stem: an image stays an image, and an image and a label file
    that had the same stem still have the same stem. *)
Theorem output_names_keep_suffix_and_stem
    (ds_name : string) (out_dir p : path) :
  suffix p <> EmptyString ->
  let dest2 := out_dir ++ [Merge2.sanitize_prefix ds_name +:+ "_" +:+ name p] in
  let dest1 :=
    out_dir ++ [replace_char "." "_" (replace_char "/" "_" ds_name) +:+ "_" +:+ name p] in
  suffix dest2 = suffix p /\
  stem dest2 = Merge2.sanitize_prefix ds_name +:+ "_" +:+ stem p /\
  Merge2.has_image_ext dest2 = Merge2.has_image_ext p /\
  suffix dest1 = suffix p /\
  stem dest1 = replace_char "." "_" (replace_char "/" "_" ds_name) +:+ "_" +:+ stem p.
Proof.
  intros Hs.
  assert (forall prefix,
            all_chars (fun c => negb (code c =? 46)) prefix = true ->
            suffix (out_dir ++ [prefix +:+ "_" +:+ name p]) = suffix p /\
            stem (out_dir ++ [prefix +:+ "_" +:+ name p])
            = prefix +:+ "_" +:+ stem p) as Hgen.
  { intros prefix Hp. unfold suffix, stem in *. rewrite name_child.
    assert (prefix +:+ "_" +:+ name p = (prefix +:+ "_") +:+ name p) as E
      by (by rewrite append_assoc).
    assert (rfind_dot (prefix +:+ "_") = None) as Hn.
    { apply rfind_dot_none. by rewrite all_chars_app, Hp. }
    rewrite E. destruct (prefixed_name_parts (prefix +:+ "_") (name p) Hn Hs)
      as [Hsuf Hdot].
    split; [exact Hsuf|]. unfold suffix_of in Hs.
    destruct (rfind_dot (name p)) as [i|]; [|done]. destruct Hdot as [-> ->].
    destruct ((0 <? i) && (i <? String.length (name p) - 1)); [|done].
    by rewrite take_chars_app, append_assoc. }
  assert (all_chars (fun c => negb (code c =? 46)) (Merge2.sanitize_prefix ds_name)
          = true) as H2.
  { eapply all_chars_impl; [|apply sanitize_prefix_safe].
    intros c. unfold unsafe_char. rewrite !negb_true_iff, !orb_false_iff. tauto. }
  assert (all_chars (fun c => negb (code c =? 46))
            (replace_char "." "_" (replace_char "/" "_" ds_name)) = true) as H1.
  { apply all_chars_Forall. rewrite replace_char_one.
    apply Forall_fmap, Forall_forall. intros c _. simpl.
    change (code ".") with 46. by destruct (code c =? 46) eqn:E; [|rewrite E]. }
  cbn zeta. destruct (Hgen _ H2) as [Ha Hb], (Hgen _ H1) as [Hc Hd].
  split; [exact Ha|]. split; [exact Hb|]. split; [|by split].
  unfold Merge2.has_image_ext. by rewrite Ha.
Qed.

Lemma output_names_keep_suffix_and_stem_witness :
  suffix (["out"; "train"; "images"] ++ [Merge2.sanitize_prefix "my set.v2.yolov11"
                                          +:+ "_" +:+ name ["d"; "im.g"; "a.b.JPG"]])
  = ".JPG" /\
  stem (["out"; "train"; "images"] ++ [Merge2.sanitize_prefix "my set.v2.yolov11"
                                        +:+ "_" +:+ name ["d"; "im.g"; "a.b.JPG"]])
  = "my_set_v2_yolov11_a.b".
Proof.
  assert (suffix ["d"; "im.g"; "a.b.JPG"] <> EmptyString) as Hs by discriminate.
  destruct (output_names_keep_suffix_and_stem "my set.v2.yolov11"
              ["out"; "train"; "images"] ["d"; "im.g"; "a.b.JPG"] Hs)
    as (H1 & H2 & _).
  split; [exact H1 | exact H2].
Defined.

(** ** The command line of the forced-id script *)









(** ** Export: the copy is faithful *)

Lemma foldr_graft_at (fs m : gmap path node) (key : path -> path) l p n :
  p ∈ l -> fs !! p = Some n ->
  (forall q, q ∈ l -> key q = key p -> q = p) ->
  foldr (fun p m => match fs !! p with
                    | Some n => <[key p := n]> m
                    | None => m
                    end) m l !! key p = Some n.
Proof.
  intros Hin Hp Hinj. induction l as [|q l IH]; [by apply elem_of_nil in Hin|].
  simpl. destruct (decide (q = p)) as [->|Hne].
  - rewrite Hp. by rewrite lookup_insert_eq.
  - assert (key q <> key p) as Hk.
    { intros E. apply Hne, Hinj; [by left | done]. }
    apply elem_of_cons in Hin as [->|Hin]; [done|].
    assert (foldr (fun p m => match fs !! p with
                              | Some n => <[key p := n]> m
                              | None => m
                              end) m l !! key p = Some n) as IH'.
    { apply IH; [done|]. intros q' Hq'. apply Hinj. by right. }
    destruct (fs !! q); [by rewrite lookup_insert_ne | done].
Qed.

Lemma foldr_graft_miss (fs m : gmap path node) (key : path -> path) l q :
  (forall p, p ∈ l -> key p <> q) ->
  foldr (fun p m => match fs !! p with
                    | Some n => <[key p := n]> m
                    | None => m
                    end) m l !! q = m !! q.
Proof.
  intros Hkey. induction l as [|p l IH]; simpl; [done|].
  assert (key p <> q) as Hp by (apply Hkey; by left).
  rewrite <- IH by (intros p' Hp'; apply Hkey; by right).
  destruct (fs !! p); [by rewrite lookup_insert_ne | done].
Qed.

Lemma copytree_Ok src dst fs fs' :
  Os.copytree src dst fs = Ok (tt, fs') ->
  fs !! src = Some Dir /\ fs' !! dst = Some Dir /\
  forall rel n, rel <> [] -> fs !! (src ++ rel) = Some n ->
                fs' !! (dst ++ rel) = Some n.
Proof.
  unfold Os.copytree. intros H.
  destruct (fs !! src) as [[c|]|] eqn:Hsrc; try done.
  case_bool_decide; [done|].
  destruct (Os.mkdir_p dst fs) as [[[] fs1]|e] eqn:Hmk; [|done].
  injection H as <-. split; [done|]. split.
  - rewrite foldr_graft_miss; [by apply (mkdir_p_makes dst fs fs1)|].
    intros p Hw E. apply elem_of_walk in Hw as (_ & [[k ->] Hne] & _).
    rewrite drop_app_length in E.
    rewrite <- (app_nil_r dst) in E at 2. apply app_inv_head in E as ->.
    by rewrite app_nil_r in Hne.
  - intros rel n Hrel Hn.
    assert (src ++ rel ∈ walk fs src) as Hw.
    { apply elem_of_walk. split; [done|]. split; [|by eexists].
      split; [by apply prefix_app_r|]. intros E.
      apply (f_equal length) in E. rewrite length_app in E.
      destruct rel; [done | simpl in E; lia]. }
    pose proof (foldr_graft_at fs fs1 (fun p => dst ++ drop (length src) p)
                  (walk fs src) (src ++ rel) n Hw Hn) as Hg.
    cbv beta in Hg. rewrite drop_app_length in Hg. apply Hg.
    intros q Hq E. apply app_inv_head in E.
    apply elem_of_walk in Hq as (_ & [[k ->] _] & _).
    rewrite drop_app_length in E. by rewrite E.
Qed.

Lemma split_on_go_plain sep cur s :
  all_chars (fun c => negb (code c =? code sep)) s = true ->
  split_on_go sep cur s = [cur +:+ s].
Proof.
  revert cur. induction s as [|c s IH]; intros cur Hs; cbn [split_on_go].
  - by rewrite append_nil_r.
  - cbn [all_chars] in Hs. apply andb_prop in Hs as [Hc Hs].
    apply negb_true_iff in Hc. rewrite Hc, IH by done. unfold snoc.
    by rewrite append_assoc.
Qed.

Lemma joinpath_plain (p : path) (s : string) :
  all_chars (fun c => negb (code c =? code "/")) s = true ->
  s <> EmptyString -> s <> "." ->
  joinpath p s = p ++ [s].
Proof.
  intros Hs He Hd. unfold joinpath, split_on.
  rewrite split_on_go_plain, append_nil_l by done. cbn [List.filter].
  rewrite !bool_decide_false by done. cbn [orb negb].
  destruct s as [|c s]; [done|]. cbn [all_chars] in Hs.
  apply andb_prop in Hs as [Hc _]. apply negb_true_iff in Hc.
  cbn [startswith]. rewrite Nat.eqb_sym, Hc. done.
Qed.

(** X12. The export copies the artefact as it is, to the place
    [--outname] names.  The intended name is
    [cwd / f"{outname}{ext}"]: a separator in [--outname] leads into
    sub-directories, and only an [--outname] without separator gives a
    name directly in the working directory.  When [main] gets past the
    copy, the target is the intended name or, that being taken, one of
    its suffixed variants, in the directory of the intended name; a file
    artefact is at the target with the content it had; a directory
    artefact ([.mlpackage]) is at the target as a directory, and every
    node below it is below the target at the same relative path with the
    same content.  [--outname] is taken to hold no [..] component and
    the target not to lie inside the artefact: [copytree] into the tree
    it is copying is outside what [Os.copytree] describes. *)
Theorem export_copies_the_artefact
    (produced cwd t : path) (outname : string) (fs fs' : gmap path node) :
  no_dotdot (outname +:+ suffix produced) ->
  ~ produced `prefix_of` t ->
  CoreML.main_after_export produced cwd outname fs = Ok (t, fs') ->
  let intended := joinpath cwd (outname +:+ suffix produced) in
  (t = intended \/ exists i, 1 <= i /\ t = CoreML.candidate intended i) /\
  parent t = parent intended /\
  (all_chars (fun c => negb (code c =? code "/")) (outname +:+ suffix produced) = true ->
   outname +:+ suffix produced <> EmptyString -> outname +:+ suffix produced <> "." ->
   parent t = cwd) /\
  match fs !! produced with
  | Some (File c) => fs' !! t = Some (File c)
  | Some Dir =>
      fs' !! t = Some Dir /\
      forall rel n, fs !! (produced ++ rel) = Some n -> fs' !! (t ++ rel) = Some n
  | None => False
  end.
Proof.
  intros _ _ H. cbv zeta. unfold CoreML.main_after_export in H.
  apply bind_Ok_inv in H as (found & fs0 & Hfound & H).
  unfold Os.exists_ in Hfound. injection Hfound as <- <-.
  case_bool_decide as Hprod; [|done]. cbn [negb] in H.
  apply bind_Ok_inv in H as (t' & fs1 & Hnext & H).
  set (intended := joinpath cwd (outname +:+ suffix produced)) in *.
  destruct (next_free_path_spec fs intended) as (p & Hp & Hfree & Hbase & Hcand).
  rewrite Hp in Hnext. injection Hnext as <- <-.
  apply bind_Ok_inv in H as ([] & fs2 & Hcopy & H).
  unfold ret in H. injection H as <- <-.
  assert (p = intended \/ exists i, 1 <= i /\ p = CoreML.candidate intended i) as Hname.
  { destruct (fs !! intended) as [n|] eqn:Eb.
    - right. destruct Hcand as (i & Hi & -> & _); [by eexists|]. by exists i.
    - left. by apply Hbase. }
  assert (parent p = parent intended) as Hparent.
  { destruct Hname as [->|(i & _ & ->)]; [done|].
    unfold CoreML.candidate. by rewrite parent_child. }
  split; [exact Hname|]. split; [exact Hparent|]. split.
  - intros Hs He Hd. unfold intended in *.
    rewrite joinpath_plain in Hparent by done.
    rewrite Hparent. apply parent_child.
  - unfold CoreML.copy_to_target in Hcopy.
    case_bool_decide as Heq.
    { subst p. rewrite Hfree in Hprod. by destruct Hprod. }
    apply bind_Ok_inv in Hcopy as (d & fs3 & Hd & Hcopy).
    unfold Os.is_dir in Hd. injection Hd as <- <-.
    destruct (fs !! produced) as [[c|]|] eqn:Esrc; cbn [is_dir_node] in Hcopy.
    + unfold Os.copy2 in Hcopy. rewrite Hfree, Esrc in Hcopy. cbn [is_dir_node] in Hcopy.
      rewrite bool_decide_false in Hcopy by done. cbn [andb] in Hcopy.
      apply write_file_Ok in Hcopy as ->. by rewrite lookup_insert_eq.
    + apply bind_Ok_inv in Hcopy as (occ & fs4 & Hocc & Hcopy).
      unfold Os.exists_ in Hocc. injection Hocc as <- <-.
      case_bool_decide; [done|].
      apply copytree_Ok in Hcopy as (_ & Ht & Hrel). split; [done|].
      intros rel n Hn. destruct rel as [|x rel].
      * rewrite app_nil_r in Hn |- *. congruence.
      * by apply Hrel.
    + by destruct Hprod.
Qed.

Lemma export_copies_the_artefact_witness :
  let fs : gmap path node :=
    list_to_map [ ([], Dir); (["w"], Dir); (["w"; "models"], Dir); (["runs"], Dir);
                  (["runs"; "best.mlpackage"], Dir);
                  (["runs"; "best.mlpackage"; "Data"], Dir);
                  (["runs"; "best.mlpackage"; "Data"; "model.bin"],
                     File (Binary [Byte.xff]));
                  (["w"; "models"; "coreml.mlpackage"], Dir) ] in
  exists fs',
    CoreML.main_after_export ["runs"; "best.mlpackage"] ["w"] "models/coreml" fs
    = Ok (["w"; "models"; "coreml_1.mlpackage"], fs') /\
    parent ["w"; "models"; "coreml_1.mlpackage"]
    = parent (joinpath ["w"] ("models/coreml" +:+ suffix ["runs"; "best.mlpackage"])) /\
    fs' !! ["w"; "models"; "coreml_1.mlpackage"; "Data"; "model.bin"]
    = Some (File (Binary [Byte.xff])).
Proof.
  intros fs.
  destruct (returned_Some
              (CoreML.main_after_export ["runs"; "best.mlpackage"] ["w"]
                 "models/coreml" fs)
              ["w"; "models"; "coreml_1.mlpackage"]) as [fs' Hrun];
    [vm_compute; reflexivity|].
  exists fs'. split; [exact Hrun|].
  assert (no_dotdot ("models/coreml" +:+ suffix ["runs"; "best.mlpackage"])) as Hplain
    by (unfold no_dotdot; compute_done).
  assert (~ ["runs"; "best.mlpackage"] `prefix_of` ["w"; "models"; "coreml_1.mlpackage"])
    as Hout by (intros [k Hk]; discriminate Hk).
  pose proof (export_copies_the_artefact ["runs"; "best.mlpackage"] ["w"]
                ["w"; "models"; "coreml_1.mlpackage"] "models/coreml" fs fs'
                Hplain Hout Hrun) as (_ & Hparent & _ & Hcopy).
  split; [exact Hparent|].
  assert (fs !! ["runs"; "best.mlpackage"] = Some Dir) as Hd
    by (vm_compute; reflexivity).
  rewrite Hd in Hcopy. destruct Hcopy as [_ Hrel].
  apply (Hrel ["Data"; "model.bin"]). vm_compute. reflexivity.
Defined.

(** ** A split that is not there *)

(** X13. A split without an image directory contributes nothing.  In
    the forced-id script, when no alias of the split has an [images]
    directory, [process_split] returns three zeros, leaves the tally as
    it was and touches nothing, in both modes and also when label files
    are there.  In the per-dataset-mapping script the same holds when
    neither [images] nor [labels] exists under the split. *)
Theorem missing_split_contributes_nothing
    (ds : path) (k : Merge2.split_key) (split : string) (oi ol : path)
    (prefix : string) (tid : Z) (counts : gmap Z nat) (dry_run : bool)
    (fs : gmap path node) :
  ((forall a, a ∈ Merge2.SPLIT_ALIASES k ->
              is_dir_node (fs !! (ds ++ [a; "images"])) = false) ->
   Merge2.process_split ds k oi ol prefix tid counts dry_run fs
   = Ok ((0, 0, 0, counts), fs)) /\
  (fs !! (ds ++ [split; "images"]) = None ->
   fs !! (ds ++ [split; "labels"]) = None ->
   Merge1.process_split ds split oi ol prefix tid counts dry_run fs
   = Ok ((0, 0, 0, counts), fs)).
Proof.
  split.
  - intros Hno. unfold Merge2.process_split, Merge2.find_split_dirs.
    destruct (find_in_aliases_first ds (Merge2.SPLIT_ALIASES k) fs)
      as (dirs & Hrun & Hspec).
    rewrite (bind_Ok _ _ _ _ _ Hrun). destruct dirs.1 as [images|]; [|done].
    destruct Hspec as (before & a & after & Hal & -> & Hd & _).
    assert (is_dir_node (fs !! (ds ++ [a; "images"])) = false) as Hf.
    { apply Hno. rewrite Hal. apply elem_of_app. right. by left. }
    by rewrite Hd in Hf.
  - intros Hi Hl. unfold Merge1.process_split.
    assert (forall p, fs !! p = None -> Os.exists_ p fs = Ok (false, fs)) as He.
    { intros p Hp. unfold Os.exists_. rewrite Hp, bool_decide_false; [done|].
      by intros [? ?]. }
    rewrite (bind_Ok _ _ _ _ _ (He _ Hi)).
    rewrite (bind_Ok (ret []) _ fs [] fs eq_refl).
    rewrite (bind_Ok _ _ _ _ _ (He _ Hl)). reflexivity.
Qed.

Lemma missing_split_contributes_nothing_witness :
  Merge2.process_split Samples.cards Merge2.Valid ["data"; "out"; "valid"; "images"]
    ["data"; "out"; "valid"; "labels"] "p" 1 ∅ false Samples.tree
  = Ok ((0, 0, 0, ∅), Samples.tree) /\
  Merge1.process_split Samples.cards "valid" ["data"; "out"; "valid"; "images"]
    ["data"; "out"; "valid"; "labels"] "p" 1 ∅ false Samples.tree
  = Ok ((0, 0, 0, ∅), Samples.tree).
Proof.
  split.
  - apply (proj1 (missing_split_contributes_nothing Samples.cards Merge2.Valid "valid"
                    _ _ "p" 1 ∅ false Samples.tree)).
    intros a Ha. cbn in Ha. rewrite !elem_of_cons, elem_of_nil in Ha.
    destruct Ha as [->|[->|[]]]; vm_compute; reflexivity.
  - apply (proj2 (missing_split_contributes_nothing Samples.cards Merge2.Valid "valid"
                    _ _ "p" 1 ∅ false Samples.tree)); vm_compute; reflexivity.
Defined.

(** ** What the preview counts *)

Lemma line_boxes_length line : length (line_boxes line) = boxes_of_line line.
Proof.
  unfold line_boxes, boxes_of_line.
  destruct (split (strip line)) as [|p vals]; [done|].
  cbn [length Nat.eqb]. rewrite Nat.sub_succ, Nat.sub_0_r.
  destruct (5 <=? S (length vals)); cbn [andb]; [|done].
  destruct (Nat.eqb_spec (length vals mod 4) 0) as [Hm|]; [|done].
  rewrite range_by_four by done. by rewrite !length_fmap, length_seq.
Qed.

Lemma foldl_boxes_written tid st (gs : list (list string)) :
  bbox_written (foldl (fun st g => Merge2.append_line tid (str tid :: g) st) st gs)
  = bbox_written st + length gs.
Proof.
  revert st. induction gs as [|g gs IH]; intros st; simpl; [lia|].
  rewrite IH. simpl. lia.
Qed.

Lemma remap_lines_boxes_written tid st lines :
  bbox_written (remap_lines (Merge2.append_line tid) tid st lines)
  = bbox_written st + sum_list (boxes_of_line <$> lines).
Proof.
  rewrite remap_lines_boxes, foldl_boxes_written. f_equal.
  induction lines as [|l lines IH]; [done|].
  cbn [fmap list_fmap concat sum_list sum_list_with].
  rewrite length_app, line_boxes_length. f_equal. exact IH.
Qed.

Lemma merge2_label_preview ol prefix tid counts cl bw lab fs r fs' :
  Merge2.remap_label ol prefix tid true (counts, cl, bw) lab fs = Ok (r, fs') ->
  fs' = fs /\ is_file_node (fs !! lab) = true /\
  r.1.2 = S cl /\ r.2 = bw + file_boxes fs lab.
Proof.
  unfold Merge2.remap_label. cbn [negb when]. intros H.
  apply bind_Ok_inv in H as ([] & fs1 & [= <-] & H).
  apply bind_Ok_inv in H as (text & fs2 & Hread & H).
  apply bind_Ok_inv in H as ([] & fs3 & [= <-] & H).
  unfold ret in H. injection H as <- <-.
  unfold Os.read_text in Hread. unfold file_boxes.
  destruct (fs !! lab) as [[[s|b]|]|]; try done. injection Hread as <- <-.
  split; [done|]. split; [done|]. split; [done|]. cbn [fst snd].
  by rewrite remap_lines_boxes_written.
Qed.

Lemma merge1_label_preview ol prefix tid counts cl bw lab fs r fs' :
  Merge1.remap_label ol prefix tid true (counts, cl, bw) lab fs = Ok (r, fs') ->
  fs' = fs /\
  r.1.2 = cl + (if is_file_node (fs !! lab) then 1 else 0) /\
  r.2 = bw + (if is_file_node (fs !! lab) then file_boxes fs lab else 0).
Proof.
  unfold Merge1.remap_label. cbn [negb when]. intros H.
  apply bind_Ok_inv in H as (f & fs0 & Hf & H).
  unfold Os.is_file in Hf. injection Hf as <- <-.
  destruct (is_file_node (fs !! lab)) eqn:Ef.
  - apply bind_Ok_inv in H as ([] & fs1 & [= <-] & H).
    apply bind_Ok_inv in H as (text & fs2 & Hread & H).
    apply bind_Ok_inv in H as ([] & fs3 & [= <-] & H).
    unfold ret in H. injection H as <- <-.
    unfold Os.read_text in Hread. unfold file_boxes.
    destruct (fs !! lab) as [[[s|b]|]|]; try done. injection Hread as <- <-.
    split; [done|]. split; [cbn; lia|]. cbn [fst snd].
    rewrite (remap_lines_ext _ _ tid (merge1_append_is_merge2 tid)).
    by rewrite remap_lines_boxes_written.
  - unfold ret in H. injection H as <- <-. cbn. split; [done|]. lia.
Qed.

Lemma merge2_labels_preview ol prefix tid fs lbls :
  forall counts cl bw r fs',
    foldM (Merge2.remap_label ol prefix tid true) (counts, cl, bw) lbls fs
    = Ok (r, fs') ->
    r.1.2 = cl + length lbls /\ r.2 = bw + sum_list (file_boxes fs <$> lbls).
Proof.
  induction lbls as [|lab lbls IH]; intros counts cl bw r fs' H; cbn [foldM] in H.
  - unfold ret in H. injection H as <- _. simpl. lia.
  - apply bind_Ok_inv in H as ([[c1 cl1] bw1] & fs1 & Hstep & H).
    apply merge2_label_preview in Hstep as (-> & _ & Hcl & Hbw).
    cbn [fst snd] in Hcl, Hbw. subst cl1 bw1.
    apply IH in H as [H1 H2]. rewrite H1, H2, fmap_cons.
    cbn [sum_list_with length id]. split; lia.
Qed.

Lemma merge1_labels_preview ol prefix tid fs lbls :
  forall counts cl bw r fs',
    foldM (Merge1.remap_label ol prefix tid true) (counts, cl, bw) lbls fs
    = Ok (r, fs') ->
    let files := List.filter (fun p => is_file_node (fs !! p)) lbls in
    r.1.2 = cl + length files /\ r.2 = bw + sum_list (file_boxes fs <$> files).
Proof.
  induction lbls as [|lab lbls IH]; intros counts cl bw r fs' H; cbn [foldM] in H.
  - unfold ret in H. injection H as <- _. simpl. lia.
  - apply bind_Ok_inv in H as ([[c1 cl1] bw1] & fs1 & Hstep & H).
    apply merge1_label_preview in Hstep as (-> & Hcl & Hbw).
    cbn [fst snd] in Hcl, Hbw. subst cl1 bw1.
    apply IH in H as [H1 H2]. cbn zeta in H1, H2 |- *. rewrite H1, H2.
    cbn [List.filter]. destruct (is_file_node (fs !! lab));
      rewrite ?fmap_cons; cbn [sum_list_with length id]; split; lia.
Qed.

Lemma filter_txt_files (fs : gmap path node) l :
  List.filter (fun p => is_file_node (fs !! p))
    (List.filter (fun p => endswith (name p) ".txt") l)
  = List.filter (fun p => endswith (name p) ".txt" && is_file_node (fs !! p)) l.
Proof.
  induction l as [|p l IH]; [done|]. cbn [List.filter].
  destruct (endswith (name p) ".txt"); cbn [andb List.filter]; [|exact IH].
  destruct (is_file_node (fs !! p)); by rewrite IH.
Qed.

(** X14. What the preview reports for a split is what the label files
    hold.  When the preview of [process_split] returns, [labels_copied]
    is the number of regular files below the label directory whose name
    ends in [.txt], and the box count is the sum, over these files and
    their lines, of the boxes a line stands for: none for a blank line,
    one per four values when the values after the class id come in
    fours, one otherwise.  In the forced-id script the label directory
    is the one [find_split_dirs] yields, and without an image or label
    directory both numbers are zero; in the per-dataset-mapping script
    it is [labels] under the split, looked at whether or not [images]
    is there. *)
Theorem preview_counts_the_boxes
    (ds : path) (k : Merge2.split_key) (split : string) (oi ol : path)
    (prefix : string) (tid : Z) (counts counts' : gmap Z nat)
    (fs fs' : gmap path node) (ci cl bx : nat) :
  (Merge1.process_split ds split oi ol prefix tid counts true fs
   = Ok ((ci, cl, bx, counts'), fs') ->
   let lbls := label_files fs (ds ++ [split; "labels"]) in
   cl = length lbls /\ bx = sum_list (file_boxes fs <$> lbls)) /\
  (Merge2.process_split ds k oi ol prefix tid counts true fs
   = Ok ((ci, cl, bx, counts'), fs') ->
   exists dirs,
     Merge2.find_split_dirs ds k fs = Ok (dirs, fs) /\
     match dirs with
     | (Some _, Some labels_dir) =>
         let lbls := label_files fs labels_dir in
         cl = length lbls /\ bx = sum_list (file_boxes fs <$> lbls)
     | _ => cl = 0 /\ bx = 0
     end).
Proof.
  split; intros H.
  - unfold Merge1.process_split in H.
    apply bind_Ok_inv in H as (ie & fs1 & Hie & H).
    unfold Os.exists_ in Hie. injection Hie as <- <-.
    apply bind_Ok_inv in H as (image_files & fs2 & Himgs & H).
    assert (fs2 = fs) as ->.
    { destruct (bool_decide _); [unfold Os.glob_all in Himgs|unfold ret in Himgs];
        by injection Himgs as _ <-. }
    apply bind_Ok_inv in H as (le & fs3 & Hle & H).
    unfold Os.exists_ in Hle. injection Hle as <- <-.
    apply bind_Ok_inv in H as (lbls & fs4 & Hlbls & H).
    assert (fs4 = fs /\
            List.filter (fun p => is_file_node (fs !! p)) lbls
            = label_files fs (ds ++ [split; "labels"])) as [-> Hl].
    { unfold label_files.
      destruct (bool_decide (is_Some (fs !! (ds ++ [split; "labels"])))) eqn:He.
      - unfold Os.glob_txt in Hlbls. injection Hlbls as <- <-.
        split; [done | apply filter_txt_files].
      - unfold ret in Hlbls. injection Hlbls as <- <-. split; [done|].
        apply bool_decide_eq_false in He.
        unfold walk. destruct (fs !! (ds ++ [split; "labels"])) as [n|] eqn:E;
          [destruct He; by eexists | done]. }
    apply bind_Ok_inv in H as (n & fs5 & Hcopy & H).
    rewrite merge1_copy_images_preview in Hcopy. injection Hcopy as <- <-.
    apply bind_Ok_inv in H as ([[c1 c2] c3] & fs6 & Hloop & H).
    unfold ret in H. injection H as _ <- <- _ _.
    apply merge1_labels_preview in Hloop as [H1 H2]. cbn zeta in H1, H2.
    rewrite Hl in H1, H2. cbn [fst snd] in H1, H2. cbn zeta. split; lia.
  - unfold Merge2.process_split, Merge2.find_split_dirs in *.
    apply bind_Ok_inv in H as (dirs & fs1 & Hdirs & H).
    pose proof Hdirs as Hfs. apply reads_only_find_in_aliases in Hfs as ->.
    exists dirs. split; [done|]. destruct dirs as [[images_dir|] [labels_dir|]];
      cbn [fst snd] in H.
    + apply bind_Ok_inv in H as (imgs & fs2 & Himgs & H).
      unfold Merge2.iter_images in Himgs. injection Himgs as <- <-.
      apply bind_Ok_inv in H as (n & fs3 & Hcopy & H).
      assert (fs3 = fs) as ->.
      { revert Hcopy. apply reads_only_foldM. intros m img. unfold Merge2.copy_image.
        apply reads_only_bind; [apply reads_only_ret | intros; apply reads_only_ret]. }
      apply bind_Ok_inv in H as (lbls & fs4 & Hlbls & H).
      unfold Merge2.iter_label_files in Hlbls. injection Hlbls as <- <-.
      apply bind_Ok_inv in H as ([[c1 c2] c3] & fs5 & Hloop & H).
      unfold ret in H. injection H as _ <- <- _ _.
      apply merge2_labels_preview in Hloop as [H1 H2].
      cbn [fst snd] in H1, H2. cbn zeta. unfold label_files. split; lia.
    + apply bind_Ok_inv in H as (imgs & fs2 & _ & H).
      apply bind_Ok_inv in H as (n & fs3 & _ & H).
      unfold ret in H. by injection H as _ <- <- _ _.
    + unfold ret in H. by injection H as _ <- <- _ _.
    + unfold ret in H. by injection H as _ <- <- _ _.
Qed.

Lemma sample_split_preview :
  exists counts' fs',
    Merge1.process_split Samples.cards "train" ["data"; "out"; "train"; "images"]
      ["data"; "out"; "train"; "labels"] "p" 0 ∅ true Samples.tree
    = Ok ((2, 2, 4, counts'), fs').
Proof.
  assert (fst <$> returned
            (Merge1.process_split Samples.cards "train" ["data"; "out"; "train"; "images"]
               ["data"; "out"; "train"; "labels"] "p" 0 ∅ true Samples.tree)
          = Some (2, 2, 4)) as H4 by (vm_compute; reflexivity).
  destruct (Merge1.process_split Samples.cards "train" ["data"; "out"; "train"; "images"]
              ["data"; "out"; "train"; "labels"] "p" 0 ∅ true Samples.tree)
    as [[[[[ci cl] bx] counts'] fs']|e]; [|discriminate H4].
  exists counts', fs'. simpl in H4. congruence.
Qed.

Lemma preview_counts_the_boxes_witness :
  exists counts' fs',
    Merge1.process_split Samples.cards "train" ["data"; "out"; "train"; "images"]
      ["data"; "out"; "train"; "labels"] "p" 0 ∅ true Samples.tree
    = Ok ((2, 2, 4, counts'), fs') /\
    4 = sum_list (file_boxes Samples.tree
                    <$> label_files Samples.tree (Samples.cards ++ ["train"; "labels"])).
Proof.
  destruct sample_split_preview as (counts' & fs' & Hrun).
  exists counts', fs'. split; [exact Hrun|].
  exact (proj2 (proj1 (preview_counts_the_boxes Samples.cards Merge2.Train "train"
                         _ _ "p" 0 ∅ counts' Samples.tree fs' 2 2 4) Hrun)).
Defined.

(** ** Discovery yields distinct names *)

Lemma discovered_are_children
    (glob : gmap path node -> path -> string -> list path)
    (fs : gmap path node) (root d : path) :
  d ∈ candidates glob fs root None ->
  exists x, d = root ++ [x] /\ fs !! d = Some Dir /\
            endswith (lower x) ".yolov11" = true.
Proof.
  unfold candidates. rewrite list_elem_of_In, !filter_In, <- list_elem_of_In.
  intros [[Hw Hlen] Hkeep]. apply elem_of_walk in Hw as (_ & [[k ->] _] & _).
  apply Nat.eqb_eq in Hlen. rewrite length_app in Hlen.
  destruct k as [|x [|y k]]; simpl in Hlen; try lia.
  exists x. split; [done|]. apply andb_prop in Hkeep as [Hd He].
  rewrite name_child in He. split; [|done].
  by destruct (fs !! (root ++ [x])) as [[?|]|].
Qed.

Lemma discovered_NoDup
    (glob : gmap path node -> path -> string -> list path)
    (fs : gmap path node) (root : path) :
  NoDup (name <$> List.filter (looks_like_yolo fs) (candidates glob fs root None)).
Proof.
  assert (NoDup (List.filter (looks_like_yolo fs) (candidates glob fs root None)))
    as Hnd.
  { unfold candidates. do 3 apply NoDup_bool_filter. apply NoDup_walk. }
  apply NoDup_fmap_2_strong; [|done].
  intros a b Ha Hb E.
  rewrite list_elem_of_In, filter_In, <- list_elem_of_In in Ha, Hb.
  destruct Ha as [Ha _], Hb as [Hb _].
  apply (discovered_are_children glob) in Ha as (x & -> & _).
  apply (discovered_are_children glob) in Hb as (y & -> & _).
  rewrite !name_child in E. by rewrite E.
Qed.

(** X15. Without [--datasets] the three aggregates always agree.  The
    datasets discovery yields are directories directly under the root,
    pairwise distinct and with pairwise distinct names; so when [main]
    of the forced-id script, run in discovery mode, merges, the
    [total_boxes] it reports equals the sum of the [boxes] entries of
    [stats] as well as the sum of [class_counts]: no entry of [stats] is
    replaced by a later dataset of the same name. *)
Theorem discovery_mode_aggregates_agree
    (glob : gmap path node -> path -> string -> list path)
    (root : path) (args_out : string) (dry_run : bool)
    (fs fs' : gmap path node) (r : merge_result) :
  Merge2.main glob root args_out None dry_run fs = Ok (Some r, fs') ->
  r.2 = stats_boxes r.1.1 /\ r.2 = counts_total r.1.2 /\
  exists usable,
    Merge2.resolve_datasets glob root None fs = Ok (usable, fs) /\
    NoDup (name <$> usable) /\
    Forall (fun d => parent d = root /\ fs !! d = Some Dir) usable /\
    dom r.1.1 = list_to_set (name <$> usable).
Proof.
  intros H. unfold Merge2.main in H.
  apply bind_Ok_inv in H as (cands & fs1 & Hres & H).
  pose proof Hres as Hspec. apply resolve_datasets_spec in Hspec.
  injection Hspec as -> ->.
  set (usable := List.filter _ _) in *.
  destruct usable as [|d ds] eqn:Eu; [unfold ret in H; by injection H|].
  rewrite <- Eu in *. clear Eu.
  apply bind_Ok_inv in H as (r' & fs2 & Hm & H).
  unfold ret in H. injection H as -> ->.
  unfold Merge2.merge in Hm.
  apply bind_Ok_inv in Hm as ([] & fs3 & _ & Hm).
  apply bind_Ok_inv in Hm as (r1 & fs4 & Hloop & Hm).
  apply bind_Ok_inv in Hm as ([] & fs5 & _ & Hm).
  unfold ret in Hm. injection Hm as <- _.
  pose proof (discovered_NoDup glob fs root) as Hnd. fold usable in Hnd.
  assert (consistent r1) as [Hs Hc].
  { eapply merge2_datasets_consistent; [exact Hnd | apply consistent_start | | exact Hloop].
    intros d' _. apply lookup_empty. }
  split; [done|]. split; [done|]. exists usable. split; [done|]. split; [done|].
  split.
  - apply Forall_forall. intros d' Hd'. unfold usable in Hd'.
    rewrite list_elem_of_In, filter_In, <- list_elem_of_In in Hd'.
    destruct Hd' as [Hd' _].
    apply (discovered_are_children glob) in Hd' as (x & -> & Hdir & _).
    by rewrite parent_child.
  - apply merge2_datasets_stats in Hloop as [Hd _].
    rewrite Hd, dom_empty_L. apply (left_id_L ∅ (∪)).
Qed.

Lemma sample_main_discovery :
  exists r fs',
    Merge2.main Samples.literal_glob Samples.root "out" None true Samples.full_tree
    = Ok (Some r, fs') /\ r.2 = 4.
Proof.
  assert ((fun o : option merge_result =>
             match o with Some r => Some r.2 | None => None end) <$>
            returned (Merge2.main Samples.literal_glob Samples.root "out" None true
                        Samples.full_tree)
          = Some (Some 4)) as H4 by (vm_compute; reflexivity).
  destruct (Merge2.main Samples.literal_glob Samples.root "out" None true
              Samples.full_tree) as [[[r|] fs']|e]; try discriminate H4.
  exists r, fs'. split; [reflexivity|]. simpl in H4. congruence.
Qed.

Lemma discovery_mode_aggregates_agree_witness :
  exists r fs',
    Merge2.main Samples.literal_glob Samples.root "out" None true Samples.full_tree
    = Ok (Some r, fs') /\
    r.2 = 4 /\ stats_boxes r.1.1 = 4 /\ counts_total r.1.2 = 4.
Proof.
  destruct sample_main_discovery as (r & fs' & Hrun & H4).
  destruct (discovery_mode_aggregates_agree _ _ _ _ _ _ _ Hrun) as (Hs & Hc & _).
  exists r, fs'. split; [exact Hrun|]. split; [exact H4|].
  split; congruence.
Defined.

(** ** The two scripts on the same split *)

Lemma remap_label_same ol prefix tid acc lab fs :
  is_file_node (fs !! lab) = true ->
  Merge1.remap_label ol prefix tid true acc lab fs
  = Merge2.remap_label ol prefix tid true acc lab fs.
Proof.
  intros Hf. destruct acc as [[counts cl] bw].
  unfold Merge1.remap_label, Merge2.remap_label.
  unfold bind at 1. unfold Os.is_file at 1. rewrite Hf.
  cbn [negb when]. unfold bind, ret, Os.read_text.
  destruct (fs !! lab) as [[[s|b]|]|]; try done.
  by rewrite (remap_lines_ext _ _ tid (merge1_append_is_merge2 tid)).
Qed.

Lemma labels_loop_same ol prefix tid fs lbls :
  forall acc r fs',
    foldM (Merge1.remap_label ol prefix tid true) acc lbls fs = Ok (r, fs') ->
    foldM (Merge2.remap_label ol prefix tid true) acc
          (List.filter (fun p => is_file_node (fs !! p)) lbls) fs = Ok (r, fs).
Proof.
  induction lbls as [|lab lbls IH]; intros acc r fs' H; cbn [foldM] in H.
  - unfold ret in H. by injection H as <- _.
  - apply bind_Ok_inv in H as (acc1 & fs1 & Hstep & H).
    destruct acc as [[counts cl] bw].
    pose proof Hstep as Hfs. apply merge1_label_preview in Hfs as [-> _].
    apply IH in H. cbn [List.filter].
    destruct (is_file_node (fs !! lab)) eqn:Ef.
    + cbn [foldM]. rewrite remap_label_same in Hstep by done.
      by rewrite (bind_Ok _ _ _ _ _ Hstep).
    + unfold Merge1.remap_label in Hstep. unfold bind at 1 in Hstep.
      unfold Os.is_file at 1 in Hstep. rewrite Ef in Hstep.
      unfold ret in Hstep. by injection Hstep as <-.
Qed.

Lemma filter_length_le {A} (f g : A -> bool) (l : list A) :
  (forall a, g a = true -> f a = true) ->
  length (List.filter g l) <= length (List.filter f l).
Proof.
  intros Hfg. induction l as [|a l IH]; [done|]. cbn [List.filter].
  destruct (g a) eqn:Eg.
  - rewrite (Hfg a Eg). simpl. lia.
  - destruct (f a); simpl; lia.
Qed.

(** X16. The two scripts on the same split.  Take a split whose image
    directory is [<dataset>/<split>/images] under the split's own name.
    Whenever the preview of the per-dataset-mapping script's
    [process_split] returns for it, so does the preview of the forced-id
    script's, for the same target id, with the same [labels_copied], the
    same box count and the same tally; its [images_copied] is at most
    that of the per-dataset-mapping script, which also counts files that
    are not images. *)
Theorem scripts_agree_on_a_canonical_split
    (ds : path) (k : Merge2.split_key) (oi ol : path) (prefix : string) (tid : Z)
    (counts counts' : gmap Z nat) (fs fs' : gmap path node) (ci cl bx : nat) :
  fs !! (ds ++ [Merge2.key_name k; "images"]) = Some Dir ->
  Merge1.process_split ds (Merge2.key_name k) oi ol prefix tid counts true fs
  = Ok ((ci, cl, bx, counts'), fs') ->
  exists ci2,
    Merge2.process_split ds k oi ol prefix tid counts true fs
    = Ok ((ci2, cl, bx, counts'), fs) /\ ci2 <= ci.
Proof.
  intros Hdir H. unfold Merge1.process_split in H.
  apply bind_Ok_inv in H as (ie & fs1 & Hie & H).
  unfold Os.exists_ in Hie. injection Hie as <- <-.
  rewrite bool_decide_true in H by (by rewrite Hdir).
  apply bind_Ok_inv in H as (image_files & fs2 & Himgs & H).
  unfold Os.glob_all in Himgs. injection Himgs as <- <-.
  apply bind_Ok_inv in H as (le & fs3 & Hle & H).
  unfold Os.exists_ in Hle. injection Hle as <- <-.
  apply bind_Ok_inv in H as (lbls & fs4 & Hlbls & H).
  assert (fs4 = fs) as ->.
  { destruct (bool_decide _); [unfold Os.glob_txt in Hlbls|unfold ret in Hlbls];
      by injection Hlbls as _ <-. }
  apply bind_Ok_inv in H as (n & fs5 & Hcopy & H).
  apply bind_Ok_inv in H as ([[c1 c2] c3] & fs6 & Hloop & H).
  unfold ret in H. injection H as <- <- <- <- _.
  assert (Merge2.find_split_dirs ds k fs
          = Ok ((Some (ds ++ [Merge2.key_name k; "images"]),
                 if bool_decide (is_Some (fs !! (ds ++ [Merge2.key_name k; "labels"])))
                 then Some (ds ++ [Merge2.key_name k; "labels"]) else None), fs))
    as Hfind.
  { unfold Merge2.find_split_dirs.
    destruct k; cbn [Merge2.SPLIT_ALIASES Merge2.key_name Merge2.find_in_aliases] in *;
      unfold bind, Os.exists_, Os.is_dir, ret; rewrite Hdir; cbn [is_dir_node];
      by rewrite bool_decide_true by (by eexists). }
  unfold Merge2.process_split. rewrite (bind_Ok _ _ _ _ _ Hfind). cbn [fst snd].
  unfold bind at 1. unfold Merge2.iter_images at 1.
  set (imgs := List.filter _ (walk fs _)).
  assert (foldM (Merge2.copy_image oi prefix true) 0 imgs fs
          = Ok (length imgs, fs)) as Hcopy2.
  { assert (forall l m, foldM (Merge2.copy_image oi prefix true) m l fs
                        = Ok (m + length l, fs)) as Hgen.
    { induction l as [|img l IH]; intros m; cbn [foldM].
      - unfold ret. do 2 f_equal. simpl. lia.
      - unfold bind at 1. unfold Merge2.copy_image at 1. cbn [negb when].
        unfold bind, ret. rewrite IH. do 2 f_equal. simpl. lia. }
    apply Hgen. }
  rewrite (bind_Ok _ _ _ _ _ Hcopy2).
  rewrite merge1_copy_images_preview in Hcopy. injection Hcopy as <- <-.
  exists (length imgs). split.
  2:{ unfold imgs. cbn [Nat.add]. apply filter_length_le.
      intros a Ha. cbv beta in Ha |- *. apply andb_prop in Ha as [Ha _]. exact Ha. }
  destruct (bool_decide (is_Some (fs !! (ds ++ [Merge2.key_name k; "labels"])))).
  - unfold Os.glob_txt in Hlbls. injection Hlbls as <-.
    apply labels_loop_same in Hloop. rewrite filter_txt_files in Hloop.
    unfold bind at 1. unfold Merge2.iter_label_files at 1.
    by rewrite (bind_Ok _ _ _ _ _ Hloop).
  - unfold ret in Hlbls. injection Hlbls as <-. cbn [foldM] in Hloop.
    unfold ret in Hloop. by injection Hloop as <- <- <-.
Qed.

Lemma scripts_agree_on_a_canonical_split_witness :
  exists counts' fs' ci2,
    Merge1.process_split Samples.cards "train" ["data"; "out"; "train"; "images"]
      ["data"; "out"; "train"; "labels"] "p" 0 ∅ true Samples.tree
    = Ok ((2, 2, 4, counts'), fs') /\
    Merge2.process_split Samples.cards Merge2.Train ["data"; "out"; "train"; "images"]
      ["data"; "out"; "train"; "labels"] "p" 0 ∅ true Samples.tree
    = Ok ((ci2, 2, 4, counts'), Samples.tree) /\ ci2 <= 2.
Proof.
  destruct sample_split_preview as (counts' & fs' & Hrun).
  assert (Samples.tree !! (Samples.cards ++ [Merge2.key_name Merge2.Train; "images"])
          = Some Dir) as Hdir by (vm_compute; reflexivity).
  destruct (scripts_agree_on_a_canonical_split Samples.cards Merge2.Train _ _ "p" 0 ∅
              counts' Samples.tree fs' 2 2 4 Hdir Hrun) as (ci2 & H2 & Hle).
  exists counts', fs', ci2. split; [exact Hrun|]. split; [exact H2 | exact Hle].
Defined.

(** ** Files of the same name *)

Lemma place_file oi x img c fs fs' :
  fs !! img = Some (File c) -> ~ oi `prefix_of` img ->
  is_dir_node (fs !! (oi ++ [x])) = false ->
  (Os.mkdir_p (parent (oi ++ [x])) ;; Os.copy2 img (oi ++ [x])) fs = Ok (tt, fs') ->
  fs' !! (oi ++ [x]) = Some (File c) /\
  (forall q, q <> oi ++ [x] -> is_Some (fs !! q) -> fs' !! q = fs !! q) /\
  (forall q, q <> oi ++ [x] -> ~ q `prefix_of` oi -> fs' !! q = fs !! q).
Proof.
  intros Himg Hout Hnd H. rewrite parent_child in H.
  apply bind_Ok_inv in H as ([] & fs1 & Hmk & H).
  apply mkdir_p_Ok in Hmk as [Hl Hk].
  assert (~ (oi ++ [x]) `prefix_of` oi) as Hd.
  { intros [k Hk']. apply (f_equal length) in Hk'. rewrite !length_app in Hk'.
    simpl in Hk'. lia. }
  assert (img <> oi ++ [x]) as Hne.
  { intros ->. apply Hout. by apply prefix_app_r. }
  unfold Os.copy2 in H.
  assert (fs1 !! (oi ++ [x]) = fs !! (oi ++ [x])) as E1
    by (by rewrite Hl, bool_decide_false).
  assert (fs1 !! img = Some (File c)) as E2
    by (rewrite Hk; [done | by eexists]).
  rewrite E1, Hnd, E2 in H.
  rewrite (bool_decide_false (img = oi ++ [x])) in H by done. cbn [andb] in H.
  apply write_file_Ok in H as ->. split; [by rewrite lookup_insert_eq|]. split.
  - intros q Hq Hs. rewrite lookup_insert_ne by done. by apply Hk.
  - intros q Hq Hp. rewrite lookup_insert_ne by done.
    by rewrite Hl, bool_decide_false.
Qed.

(** X18. The output is flat, and files of the same name share one
    destination.  The destination of an image depends on the dataset
    prefix and the file's own name only, not on the sub-folder it was
    found in, although images are enumerated recursively.  When two
    image files of the same name are copied in the same split by a run
    that is not a preview, the counter goes up by two, the destination
    holds the content of the second, and nothing else below the output
    image directory has changed: [images_copied] can exceed the number
    of files written.  Both scripts build the name in the same way. *)
Theorem same_named_images_share_a_destination
    (oi img1 img2 : path) (prefix : string) (c1 c2 : content) (n r : nat)
    (fs fs' : gmap path node) :
  name img1 = name img2 ->
  fs !! img1 = Some (File c1) -> fs !! img2 = Some (File c2) ->
  ~ oi `prefix_of` img1 -> ~ oi `prefix_of` img2 ->
  is_dir_node (fs !! (oi ++ [prefix +:+ "_" +:+ name img1])) = false ->
  foldM (Merge2.copy_image oi prefix false) n [img1; img2] fs = Ok (r, fs') \/
  foldM (Merge1.copy_image oi prefix false) n [img1; img2] fs = Ok (r, fs') ->
  r = n + 2 /\
  fs' !! (oi ++ [prefix +:+ "_" +:+ name img1]) = Some (File c2) /\
  forall q, q <> oi ++ [prefix +:+ "_" +:+ name img1] -> ~ q `prefix_of` oi ->
            fs' !! q = fs !! q.
Proof.
  intros Hname H1 H2 Ho1 Ho2 Hnd H.
  assert (exists fs1,
            (Os.mkdir_p (parent (oi ++ [prefix +:+ "_" +:+ name img1])) ;;
             Os.copy2 img1 (oi ++ [prefix +:+ "_" +:+ name img1])) fs = Ok (tt, fs1) /\
            (Os.mkdir_p (parent (oi ++ [prefix +:+ "_" +:+ name img1])) ;;
             Os.copy2 img2 (oi ++ [prefix +:+ "_" +:+ name img1])) fs1 = Ok (tt, fs') /\
            r = n + 2) as (fs1 & Ha & Hb & Hr).
  { destruct H as [H|H]; cbn [foldM] in H.
    - apply bind_Ok_inv in H as (n1 & fs1 & Hs1 & H).
      apply bind_Ok_inv in H as (n2 & fs2 & Hs2 & H).
      unfold ret in H. injection H as <- <-.
      unfold Merge2.copy_image in Hs1, Hs2. rewrite <- Hname in Hs2.
      cbn [negb when] in Hs1, Hs2.
      apply bind_Ok_inv in Hs1 as ([] & fs1' & Hs1 & [= <- ->]).
      apply bind_Ok_inv in Hs2 as ([] & fs2' & Hs2 & [= <- ->]).
      exists fs1. split; [done|]. split; [done | lia].
    - apply bind_Ok_inv in H as (n1 & fs1 & Hs1 & H).
      apply bind_Ok_inv in H as (n2 & fs2 & Hs2 & H).
      unfold ret in H. injection H as <- <-.
      unfold Merge1.copy_image in Hs1.
      apply bind_Ok_inv in Hs1 as (f1 & fs0 & Hf1 & Hs1).
      unfold Os.is_file in Hf1. injection Hf1 as <- <-.
      rewrite H1 in Hs1. cbn [is_file_node negb when] in Hs1.
      apply bind_Ok_inv in Hs1 as ([] & fs1' & Hs1 & [= <- ->]).
      destruct (place_file _ _ _ _ _ _ H1 Ho1 Hnd Hs1) as (_ & Hkeep & _).
      unfold Merge1.copy_image in Hs2. rewrite <- Hname in Hs2.
      apply bind_Ok_inv in Hs2 as (f2 & fs0 & Hf2 & Hs2).
      unfold Os.is_file in Hf2. injection Hf2 as <- <-.
      rewrite Hkeep, H2 in Hs2.
      + cbn [is_file_node negb when] in Hs2.
        apply bind_Ok_inv in Hs2 as ([] & fs2' & Hs2 & [= <- ->]).
        exists fs1. split; [done|]. split; [done | lia].
      + intros ->. apply Ho2. by apply prefix_app_r.
      + by eexists. }
  split; [exact Hr|].
  destruct (place_file _ _ _ _ _ _ H1 Ho1 Hnd Ha) as (Hd1 & Hkeep1 & Hrest1).
  assert (img2 <> oi ++ [prefix +:+ "_" +:+ name img1]) as Hne2.
  { intros ->. apply Ho2. by apply prefix_app_r. }
  assert (fs1 !! img2 = Some (File c2)) as H2'.
  { rewrite Hkeep1; [done | done | by eexists]. }
  assert (is_dir_node (fs1 !! (oi ++ [prefix +:+ "_" +:+ name img1])) = false) as Hnd'
    by (by rewrite Hd1).
  destruct (place_file _ _ _ _ _ _ H2' Ho2 Hnd' Hb) as (Hd2 & _ & Hrest2).
  split; [exact Hd2|]. intros q Hq Hp.
  rewrite Hrest2, Hrest1 by done. done.
Qed.

Lemma same_named_images_share_a_destination_witness :
  let fs : gmap path node :=
    list_to_map [ ([], Dir); (["d"], Dir); (["d"; "a.jpg"], File (Binary [Byte.xff]));
                  (["d"; "sub"], Dir);
                  (["d"; "sub"; "a.jpg"], File (Binary [Byte.xd8])) ] in
  exists fs',
    foldM (Merge2.copy_image ["out"] "p" false) 0 [["d"; "a.jpg"]; ["d"; "sub"; "a.jpg"]] fs
    = Ok (2, fs') /\
    fs' !! ["out"; "p_a.jpg"] = Some (File (Binary [Byte.xd8])).
Proof.
  intros fs.
  destruct (returned_Some
              (foldM (Merge2.copy_image ["out"] "p" false) 0
                 [["d"; "a.jpg"]; ["d"; "sub"; "a.jpg"]] fs) 2) as [fs' Hrun];
    [vm_compute; reflexivity|].
  exists fs'. split; [exact Hrun|].
  assert (~ ["out"] `prefix_of` ["d"; "a.jpg"]) as Ho1
    by (intros [k Hk]; discriminate Hk).
  assert (~ ["out"] `prefix_of` ["d"; "sub"; "a.jpg"]) as Ho2
    by (intros [k Hk]; discriminate Hk).
  exact (proj1 (proj2 (same_named_images_share_a_destination ["out"] ["d"; "a.jpg"]
                         ["d"; "sub"; "a.jpg"] "p" (Binary [Byte.xff])
                         (Binary [Byte.xd8]) 0 2 fs fs' eq_refl eq_refl eq_refl
                         Ho1 Ho2 eq_refl (or_introl Hrun)))).
Defined.
